(** * Autofill Assistant: field classification pipeline

    A shallow embedding of [src/lib/field-mapper/field-mapper.js] and
    [src/lib/llm/gemini-client.js], followed by the properties of the
    specification that concern them.

    Conventions of the embedding:
    - a JavaScript string is a [string] whose characters are read as code
      units below 256 (the Latin-1 range);
    - a JavaScript number that only ever holds an integer (timestamps,
      counters) is a [Z]; a confidence is a rational [Q].  Every confidence
      the code computes is a quotient of two small integers compared with a
      decimal literal, and rounding to a double is monotone, so the
      comparisons on [Q] agree with the ones on doubles;
    - [undefined] attributes are [None];
    - field objects mutated in place live in a heap [gmap loc Field];
    - a [Map] is an association list in insertion order. *)

From Stdlib Require Import String Ascii ZArith QArith Bool Lia Permutation Sorted.
From Stdlib Require Floats.PrimFloat.
From stdpp Require Import base option list gmap.

Local Open Scope string_scope.
Local Open Scope Z_scope.

(* ===================================================================== *)
(** ** JavaScript strings *)
(* ===================================================================== *)

Module JsString.

(** The double quote, written by its code so that selectors can contain it. *)
Definition dq : ascii := ascii_of_nat 34.
Definition sq : ascii := ascii_of_nat 39.

Definition code (c : ascii) : N := N_of_ascii c.

(** Upper-case letters of the Latin-1 range: A-Z, and U+00C0..U+00DE
    without the multiplication sign U+00D7. *)
Definition isUpper (c : ascii) : bool :=
  let n := code c in
  ((65 <=? n) && (n <=? 90) || (192 <=? n) && (n <=? 222) && negb (n =? 215))%N.

Definition lowerChar (c : ascii) : ascii :=
  if isUpper c then ascii_of_N (code c + 32) else c.

(** [String.prototype.toLowerCase] *)
Fixpoint toLowerCase (s : string) : string :=
  match s with
  | EmptyString => EmptyString
  | String c r => String (lowerChar c) (toLowerCase r)
  end.

(** [s.startsWith(p)], returning what follows the prefix. *)
Fixpoint stripPrefix (p s : string) : option string :=
  match p, s with
  | EmptyString, _ => Some s
  | String a p', String b s' => if Ascii.eqb a b then stripPrefix p' s' else None
  | String _ _, EmptyString => None
  end.

(** [s.includes(needle)] *)
Fixpoint includes (s needle : string) : bool :=
  match stripPrefix needle s with
  | Some _ => true
  | None =>
      match s with
      | EmptyString => false
      | String _ r => includes r needle
      end
  end.

(** [parts.join(sep)] *)
Fixpoint join (sep : string) (parts : list string) : string :=
  match parts with
  | [] => EmptyString
  | [p] => p
  | p :: rest => p ++ sep ++ join sep rest
  end.

(** [s.substring(0, n)] *)
Definition substring0 (n : nat) (s : string) : string := String.substring 0 n s.

(** [x || s] with the empty string for [s], for an attribute that may
    be undefined. *)
Definition orEmpty (o : option string) : string :=
  match o with Some s => s | None => EmptyString end.

(** Truthiness of a string value. *)
Definition truthy (s : string) : bool :=
  match s with EmptyString => false | _ => true end.

(** No string occurs twice in [l]. *)
Fixpoint nodupb (l : list string) : bool :=
  match l with
  | [] => true
  | x :: rest => negb (existsb (String.eqb x) rest) && nodupb rest
  end.

(** *** [btoa]: base64 of a string of code units below 256

    On such strings [btoa] does not throw. *)

Definition alphabet : string :=
  "ABCDEFGHIJKLMNOPQRSTUVWXYZabcdefghijklmnopqrstuvwxyz0123456789+/".

Definition digit64 (n : N) : ascii :=
  match String.get (N.to_nat n) alphabet with
  | Some c => c
  | None => "="%char
  end.

Fixpoint btoa (s : string) : string :=
  match s with
  | EmptyString => EmptyString
  | String a EmptyString =>
      let x := code a in
      String (digit64 (x / 4)) (String (digit64 (x mod 4 * 16)) "==")
  | String a (String b EmptyString) =>
      let x := code a in
      let y := code b in
      String (digit64 (x / 4))
        (String (digit64 (x mod 4 * 16 + y / 16))
           (String (digit64 (y mod 16 * 4)) "="))
  | String a (String b (String c r)) =>
      let x := code a in
      let y := code b in
      let z := code c in
      String (digit64 (x / 4))
        (String (digit64 (x mod 4 * 16 + y / 16))
           (String (digit64 (y mod 16 * 4 + z / 64))
              (String (digit64 (z mod 64)) (btoa r))))
  end%N.

End JsString.

(* ===================================================================== *)
(** ** Regular expressions of the pattern tables *)
(* ===================================================================== *)

Module RegExp.
Import JsString.

(** Every expression of [QUESTION_PATTERNS] is a sequence of literal
    words separated by [.*], with the [i] flag: [/why.*want.*work/i] has
    the three segments why, want and work. *)
Record t := { segments : list string; ignoreCase : bool }.

(** [.] matches any code unit but a line terminator. *)
Definition isLineTerminator (c : ascii) : bool :=
  ((code c =? 10) || (code c =? 13))%N.

(** [.*k]: skip any number of non-terminators, then continue with [k]. *)
Fixpoint dotStar (k : string -> bool) (s : string) : bool :=
  k s ||
  match s with
  | EmptyString => false
  | String c r => if isLineTerminator c then false else dotStar k r
  end.

(** The expression matched at the very start of [s]. *)
Fixpoint matchHere (segs : list string) (s : string) : bool :=
  match segs with
  | [] => true
  | seg :: rest =>
      match stripPrefix seg s with
      | None => false
      | Some s' =>
          match rest with
          | [] => true
          | _ => dotStar (matchHere rest) s'
          end
      end
  end.

(** The expression matched at some position of [s]. *)
Fixpoint matchAnywhere (segs : list string) (s : string) : bool :=
  matchHere segs s ||
  match s with
  | EmptyString => false
  | String _ r => matchAnywhere segs r
  end.

(** [pattern.test(s)].  The words of the tables are lower-case ASCII,
    for which matching without regard to case is matching on the
    lower-cased subject. *)
Definition test (r : t) (s : string) : bool :=
  matchAnywhere (segments r) (if ignoreCase r then toLowerCase s else s).

End RegExp.

(* ===================================================================== *)
(** ** Field descriptors and the page they come from *)
(* ===================================================================== *)

(** A DOM element is known to the pipeline only through the three calls of
    [matchesSelector] and [matchesSelectorFallback]. *)
Definition Element := nat.

Module Dom.
(** [None] stands for a call that throws. *)
Record t := {
  matches : Element -> string -> option bool;
  querySelectorAll : string -> option (list Element);
  getAttribute : Element -> string -> option string
}.

(** A page on which every selector query throws, as when the mapper runs
    without a document. *)
Definition absent : t :=
  {| matches := fun _ _ => None;
     querySelectorAll := fun _ => None;
     getAttribute := fun _ _ => None |}.
End Dom.

Module Field.
(** The object built by [analyzeField] of the content script, with the
    attributes the mapper and the client add to it. *)
Record t := {
  element : option Element;
  formIndex : Z;
  inputIndex : Z;
  type : string;
  name : string;
  id : string;
  placeholder : string;
  label : string;
  required : bool;
  value : string;
  options : list (string * string);
  purpose : option string;
  confidence : option Q;
  mappingMethod : option string;
  needsLLMAnalysis : bool;
  needsManualReview : bool;
  llmReasoning : option string
}.

(** The attributes no function of the pipeline assigns. *)
Definition descriptor (f : t) :=
  (element f, formIndex f, inputIndex f, type f, name f, id f,
   placeholder f, label f, required f, value f, options f).

(** [field.purpose = p; field.confidence = c; field.mappingMethod = m] *)
Definition assignMapping (p : option string) (c : Q) (m : string) (f : t) : t :=
  {| element := element f; formIndex := formIndex f; inputIndex := inputIndex f;
     type := type f; name := name f; id := id f; placeholder := placeholder f;
     label := label f; required := required f; value := value f;
     options := options f;
     purpose := p; confidence := Some c; mappingMethod := Some m;
     needsLLMAnalysis := needsLLMAnalysis f;
     needsManualReview := needsManualReview f;
     llmReasoning := llmReasoning f |}.

Definition set_needsLLMAnalysis (b : bool) (f : t) : t :=
  {| element := element f; formIndex := formIndex f; inputIndex := inputIndex f;
     type := type f; name := name f; id := id f; placeholder := placeholder f;
     label := label f; required := required f; value := value f;
     options := options f;
     purpose := purpose f; confidence := confidence f;
     mappingMethod := mappingMethod f;
     needsLLMAnalysis := b;
     needsManualReview := needsManualReview f;
     llmReasoning := llmReasoning f |}.

Definition set_needsManualReview (b : bool) (f : t) : t :=
  {| element := element f; formIndex := formIndex f; inputIndex := inputIndex f;
     type := type f; name := name f; id := id f; placeholder := placeholder f;
     label := label f; required := required f; value := value f;
     options := options f;
     purpose := purpose f; confidence := confidence f;
     mappingMethod := mappingMethod f;
     needsLLMAnalysis := needsLLMAnalysis f;
     needsManualReview := b;
     llmReasoning := llmReasoning f |}.

(** [{...field, purpose, confidence, llmReasoning, mappingMethod}] *)
Definition spread (p : option string) (c : option Q) (m : option string)
    (r : option string) (f : t) : t :=
  {| element := element f; formIndex := formIndex f; inputIndex := inputIndex f;
     type := type f; name := name f; id := id f; placeholder := placeholder f;
     label := label f; required := required f; value := value f;
     options := options f;
     purpose := p; confidence := c; mappingMethod := m;
     needsLLMAnalysis := needsLLMAnalysis f;
     needsManualReview := needsManualReview f;
     llmReasoning := r |}.

(** A text input as [analyzeField] builds it before any mapping. *)
Definition input (ty nm ident ph lbl : string) : t :=
  {| element := None; formIndex := 0; inputIndex := 0;
     type := ty; name := nm; id := ident; placeholder := ph; label := lbl;
     required := false; value := EmptyString; options := [];
     purpose := None; confidence := None; mappingMethod := None;
     needsLLMAnalysis := false; needsManualReview := false;
     llmReasoning := None |}.
End Field.

(** Comparisons of confidences. *)
Definition Qgtb (a b : Q) : bool := negb (Qle_bool a b).
Definition Math_min (a b : Q) : Q := if Qle_bool a b then a else b.
Definition Math_max (a b : Q) : Q := if Qle_bool a b then b else a.

(* ===================================================================== *)
(** ** field-mapper.js *)
(* ===================================================================== *)

Module FieldMapper.
Import JsString.

(** *** The three tables *)

(** [q v] is [v] between double quotes; [sel before v] is the selector
    that reads [before], the quoted [v] and a closing bracket. *)
Definition q (v : string) : string := String dq (v ++ String dq EmptyString).
Definition sel (before v : string) : string := before ++ q v ++ "]".

Definition ATS_FIELD_RULES : list (string * list (string * list string)) :=
  [ ("workday",
     [ ("firstName", [ sel "[data-automation-id*=" "firstName";
                       sel "[data-automation-id*=" "first_name";
                       sel "input[name*=" "firstName";
                       sel "input[name*=" "first_name" ]);
       ("lastName", [ sel "[data-automation-id*=" "lastName";
                      sel "[data-automation-id*=" "last_name";
                      sel "input[name*=" "lastName";
                      sel "input[name*=" "last_name" ]);
       ("email", [ sel "[data-automation-id*=" "email";
                   sel "input[name*=" "email";
                   sel "input[type=" "email" ]);
       ("phone", [ sel "[data-automation-id*=" "phone";
                   sel "input[name*=" "phone";
                   sel "input[type=" "tel" ]);
       ("address", [ sel "[data-automation-id*=" "address";
                     sel "input[name*=" "address" ]);
       ("city", [ sel "[data-automation-id*=" "city";
                  sel "input[name*=" "city" ]);
       ("state", [ sel "[data-automation-id*=" "state";
                   sel "[data-automation-id*=" "province";
                   sel "select[name*=" "state";
                   sel "select[name*=" "province" ]);
       ("zipCode", [ sel "[data-automation-id*=" "zip";
                     sel "[data-automation-id*=" "postal";
                     sel "input[name*=" "zip";
                     sel "input[name*=" "postal" ]);
       ("country", [ sel "[data-automation-id*=" "country";
                     sel "select[name*=" "country" ]) ]);
    ("greenhouse",
     [ ("firstName", [ sel "input[name=" "job_application[first_name]";
                       sel "input[name*=" "first_name";
                       "#first_name" ]);
       ("lastName", [ sel "input[name=" "job_application[last_name]";
                      sel "input[name*=" "last_name";
                      "#last_name" ]);
       ("email", [ sel "input[name=" "job_application[email]";
                   sel "input[name*=" "email";
                   sel "input[type=" "email" ]);
       ("phone", [ sel "input[name=" "job_application[phone]";
                   sel "input[name*=" "phone";
                   sel "input[type=" "tel" ]);
       ("resumeUpload", [ sel "input[name=" "job_application[resume]";
                          sel "input[type=" "file" ++ sel "[name*=" "resume" ]);
       ("coverLetterUpload", [ sel "input[name=" "job_application[cover_letter]";
                               sel "input[type=" "file" ++ sel "[name*=" "cover" ]) ]);
    ("lever",
     [ ("firstName", [ sel "input[name=" "name";
                       sel "input[name*=" "first";
                       sel ".application-question input[placeholder*=" "First" ]);
       ("lastName", [ sel "input[name*=" "last";
                      sel ".application-question input[placeholder*=" "Last" ]);
       ("email", [ sel "input[name=" "email";
                   sel "input[type=" "email" ]);
       ("phone", [ sel "input[name=" "phone";
                   sel "input[type=" "tel" ]);
       ("resumeUpload", [ sel "input[name=" "resume";
                          sel "input[type=" "file" ]) ]);
    ("icims",
     [ ("firstName", [ sel "input[name*=" "firstName";
                       sel "input[id*=" "firstName" ]);
       ("lastName", [ sel "input[name*=" "lastName";
                      sel "input[id*=" "lastName" ]);
       ("email", [ sel "input[name*=" "email";
                   sel "input[type=" "email" ]);
       ("phone", [ sel "input[name*=" "phone";
                   sel "input[type=" "tel" ]) ]);
    ("taleo",
     [ ("firstName", [ sel "input[name*=" "firstName";
                       sel "input[name*=" "first_name" ]);
       ("lastName", [ sel "input[name*=" "lastName";
                      sel "input[name*=" "last_name" ]);
       ("email", [ sel "input[name*=" "email" ]);
       ("phone", [ sel "input[name*=" "phone" ]) ]) ].

Record Patterns := {
  names : list string;
  ids : list string;
  placeholders : list string;
  labels : list string;
  types : list string
}.

(** U+00E9, the accented letter of one French label. *)
Definition eacute : string := String (ascii_of_nat 233) EmptyString.

Definition HEURISTIC_PATTERNS : list (string * Patterns) :=
  [ ("firstName",
     {| names := ["firstname"; "first_name"; "first-name"; "fname"; "forename"; "givenname"];
        ids := ["firstname"; "first_name"; "first-name"; "fname"];
        placeholders := ["first name"; "given name"; "forename"];
        labels := ["first name"; "given name"; "forename"; "pr" ++ eacute ++ "nom"];
        types := ["text"] |});
    ("lastName",
     {| names := ["lastname"; "last_name"; "last-name"; "lname"; "surname"; "familyname"];
        ids := ["lastname"; "last_name"; "last-name"; "lname"];
        placeholders := ["last name"; "surname"; "family name"];
        labels := ["last name"; "surname"; "family name"; "nom de famille"];
        types := ["text"] |});
    ("fullName",
     {| names := ["name"; "full_name"; "fullname"; "full-name"; "completename"];
        ids := ["name"; "full_name"; "fullname"];
        placeholders := ["full name"; "your name"; "name"];
        labels := ["full name"; "name"; "your name"; "nom complet"];
        types := ["text"] |});
    ("email",
     {| names := ["email"; "email_address"; "email-address"; "emailaddress"; "mail"];
        ids := ["email"; "email_address"; "email-address"];
        placeholders := ["email"; "email address"; "your email"; "e-mail"];
        labels := ["email"; "email address"; "e-mail address"];
        types := ["email"; "text"] |});
    ("phone",
     {| names := ["phone"; "phone_number"; "phone-number"; "phonenumber"; "telephone"; "mobile"; "cell"];
        ids := ["phone"; "phone_number"; "telephone"];
        placeholders := ["phone"; "phone number"; "telephone"; "mobile"; "cell phone"];
        labels := ["phone"; "phone number"; "telephone"; "mobile number"];
        types := ["tel"; "text"] |});
    ("address",
     {| names := ["address"; "street_address"; "street-address"; "streetaddress"; "addr"];
        ids := ["address"; "street_address"; "street-address"];
        placeholders := ["address"; "street address"; "your address"];
        labels := ["address"; "street address"; "home address"];
        types := ["text"] |});
    ("city",
     {| names := ["city"; "town"; "locality"];
        ids := ["city"; "town"];
        placeholders := ["city"; "town"];
        labels := ["city"; "town"; "locality"];
        types := ["text"] |});
    ("state",
     {| names := ["state"; "province"; "region"; "state_province"];
        ids := ["state"; "province"; "region"];
        placeholders := ["state"; "province"; "region"];
        labels := ["state"; "province"; "state/province"; "region"];
        types := ["text"; "select-one"] |});
    ("zipCode",
     {| names := ["zip"; "zipcode"; "zip_code"; "postal"; "postalcode"; "postal_code"];
        ids := ["zip"; "zipcode"; "postal"];
        placeholders := ["zip"; "zip code"; "postal code"];
        labels := ["zip code"; "postal code"; "zip"];
        types := ["text"] |});
    ("country",
     {| names := ["country"; "nation"];
        ids := ["country"];
        placeholders := ["country"];
        labels := ["country"; "nation"];
        types := ["select-one"; "text"] |});
    ("currentTitle",
     {| names := ["title"; "job_title"; "position"; "current_title"; "role"];
        ids := ["title"; "job_title"; "position"];
        placeholders := ["job title"; "current title"; "position"; "role"];
        labels := ["job title"; "current title"; "position"; "current position"];
        types := ["text"] |});
    ("currentCompany",
     {| names := ["company"; "employer"; "current_company"; "organization"];
        ids := ["company"; "employer"];
        placeholders := ["company"; "employer"; "current company"];
        labels := ["company"; "employer"; "current employer"; "organization"];
        types := ["text"] |});
    ("yearsExperience",
     {| names := ["experience"; "years_experience"; "experience_years"];
        ids := ["experience"; "years_experience"];
        placeholders := ["years of experience"; "experience"];
        labels := ["years of experience"; "experience"; "work experience"];
        types := ["number"; "text"; "select-one"] |});
    ("desiredSalary",
     {| names := ["salary"; "desired_salary"; "expected_salary"; "compensation"];
        ids := ["salary"; "desired_salary"];
        placeholders := ["desired salary"; "expected salary"; "salary"];
        labels := ["desired salary"; "expected salary"; "salary expectations"];
        types := ["number"; "text"] |});
    ("availableStartDate",
     {| names := ["start_date"; "available_date"; "availability"];
        ids := ["start_date"; "available_date"];
        placeholders := ["start date"; "available date"; "when can you start"];
        labels := ["start date"; "availability"; "when can you start"];
        types := ["date"; "text"] |});
    ("resumeUpload",
     {| names := ["resume"; "cv"; "curriculum"];
        ids := ["resume"; "cv"];
        placeholders := [];
        labels := ["resume"; "cv"; "curriculum vitae"];
        types := ["file"] |});
    ("coverLetterUpload",
     {| names := ["cover_letter"; "coverletter"; "cover"];
        ids := ["cover_letter"; "coverletter"];
        placeholders := [];
        labels := ["cover letter"; "covering letter"];
        types := ["file"] |}) ].

(** [/a.*b/i] *)
Definition re (segs : list string) : RegExp.t :=
  {| RegExp.segments := segs; RegExp.ignoreCase := true |}.

Definition QUESTION_PATTERNS : list (string * list RegExp.t) :=
  [ ("whyInterested",
     [ re ["why"; "interested"]; re ["why"; "want"; "work"]; re ["why"; "apply"];
       re ["why"; "company"]; re ["motivation"; "position"] ]);
    ("whyQualified",
     [ re ["why"; "qualified"]; re ["why"; "right"; "candidate"];
       re ["what"; "makes"; "qualified"]; re ["relevant"; "experience"] ]);
    ("careerGoals",
     [ re ["career"; "goals"]; re ["professional"; "goals"];
       re ["future"; "plans"]; re ["where"; "see"; "yourself"] ]);
    ("greatestStrength",
     [ re ["greatest"; "strength"]; re ["biggest"; "strength"];
       re ["key"; "strength"]; re ["what"; "strength"] ]);
    ("greatestWeakness",
     [ re ["greatest"; "weakness"]; re ["biggest"; "weakness"];
       re ["area"; "improvement"]; re ["what"; "weakness"] ]) ].

(** *** [mapFieldByATS] and the selector matching under it *)

Definition isQuote (c : ascii) : bool := Ascii.eqb c dq || Ascii.eqb c sq.

(** The [*], [^] or [$] an attribute operator may start with. *)
Definition isOperatorMark (c : ascii) : bool :=
  Ascii.eqb c "*" || Ascii.eqb c "^" || Ascii.eqb c "$".

(** White space ([\s]) among the code units below 256. *)
Definition isSpace (c : ascii) : bool :=
  let n := code c in
  ((9 <=? n) && (n <=? 13) || (n =? 32) || (n =? 160))%N.

(** The longest prefix of [s] without a character of [stop], and the rest. *)
Fixpoint spanUntil (stop : ascii -> bool) (s : string) : string * string :=
  match s with
  | EmptyString => (EmptyString, EmptyString)
  | String c r =>
      if stop c then (EmptyString, s)
      else let '(a, b) := spanUntil stop r in (String c a, b)
  end.

(** The leftmost position of [s] at which [f] succeeds. *)
Fixpoint searchFirst (f : string -> option string) (s : string) : option string :=
  match f s with
  | Some v => Some v
  | None =>
      match s with
      | EmptyString => None
      | String _ r => searchFirst f r
      end
  end.

(** The expression of [matchesSelectorFallback] for the attribute [attr],
    tried at the start of [s]: an opening bracket, [attr], at most one
    operator mark, the equals sign, a quote, the longest non-empty run
    of characters that are not quotes (the group), a quote and the
    closing bracket. *)
Definition attributeAt (attr s : string) : option string :=
  match stripPrefix ("[" ++ attr) s with
  | None => None
  | Some r1 =>
      let r2 :=
        match r1 with
        | String c r => if isOperatorMark c then r else r1
        | EmptyString => r1
        end in
      match r2 with
      | String e (String o r3) =>
          if Ascii.eqb e "=" && isQuote o then
            match spanUntil isQuote r3 with
            | (String c cap, String _ (String b _)) =>
                if Ascii.eqb b "]" then Some (String c cap) else None
            | _ => None
            end
          else None
      | _ => None
      end
  end.

(** [selector.match] of that expression: group 1 of the leftmost match. *)
Definition attributePattern (attr selector : string) : option string :=
  searchFirst (attributeAt attr) selector.

(** The id expression tried at the start of [s]: a hash sign and the
    longest non-empty run of characters other than an opening bracket,
    white space and a dot (the group). *)
Definition idAt (s : string) : option string :=
  match s with
  | String h r =>
      if Ascii.eqb h "#" then
        match spanUntil (fun c => Ascii.eqb c "[" || isSpace c || Ascii.eqb c ".") r with
        | (String c cap, _) => Some (String c cap)
        | _ => None
        end
      else None
  | EmptyString => None
  end.

(** [selector.match] of the id expression: group 1 of the leftmost match. *)
Definition idPattern (selector : string) : option string := searchFirst idAt selector.

Definition matchesSelectorFallback (dom : Dom.t) (field : Field.t)
    (selector : string) : bool :=
  let nameMatch := attributePattern "name" selector in
  if match nameMatch with
     | Some v => includes (Field.name field) v
     | None => false
     end
  then true
  else
    let idMatch := idPattern selector in
    if match idMatch with
       | Some v => String.eqb (Field.id field) v
       | None => false
       end
    then true
    else
      let dataMatch := attributePattern "data-automation-id" selector in
      match dataMatch with
      | Some v =>
          match Field.element field with
          | Some e =>
              match Dom.getAttribute dom e "data-automation-id" with
              | Some dataAttr => truthy dataAttr && includes dataAttr v
              | None => false
              end
          | None => false
          end
      | None => false
      end.

(** The [try] block asks the page; any exception leads to the fallback. *)
Definition matchesSelector (dom : Dom.t) (field : Field.t) (selector : string) : bool :=
  let direct :=
    match Field.element field with
    | Some e => Dom.matches dom e selector
    | None => Some false
    end in
  match direct with
  | None => matchesSelectorFallback dom field selector
  | Some true => true
  | Some false =>
      match Dom.querySelectorAll dom selector with
      | None => matchesSelectorFallback dom field selector
      | Some allMatching =>
          match Field.element field with
          | Some e => existsb (Nat.eqb e) allMatching
          | None => false
          end
      end
  end.

(** The two nested loops over the purposes and selectors of one platform. *)
Fixpoint firstRule (dom : Dom.t) (field : Field.t)
    (atsRules : list (string * list string)) : string :=
  match atsRules with
  | [] => "unknown"
  | (purpose, selectors) :: rest =>
      if existsb (matchesSelector dom field) selectors then purpose
      else firstRule dom field rest
  end.

(** [ATS_FIELD_RULES[atsType]] *)
Fixpoint rulesOf {A} (table : list (string * A)) (key : string) : option A :=
  match table with
  | [] => None
  | (k, v) :: rest => if String.eqb k key then Some v else rulesOf rest key
  end.

Definition mapFieldByATS (dom : Dom.t) (field : Field.t) (atsType : string) : string :=
  match rulesOf ATS_FIELD_RULES atsType with
  | None => "unknown"
  | Some atsRules => firstRule dom field atsRules
  end.

(** *** [mapFieldByHeuristics] *)

Record HeuristicMapping := { purpose : string; confidence : Q }.

(** [list.filter(x => fieldText.includes(x.toLowerCase())).length] *)
Definition countIncluded (fieldText : string) (l : list string) : nat :=
  length (List.filter (fun x => includes fieldText (toLowerCase x)) l).

Definition score (fieldText type : string) (patterns : Patterns) : nat :=
  (countIncluded fieldText (names patterns)
   + countIncluded fieldText (placeholders patterns)
   + countIncluded fieldText (labels patterns)
   + (if existsb (String.eqb type) (types patterns) then 1 else 0))%nat.

Definition maxScore (patterns : Patterns) : nat :=
  (length (names patterns) + length (placeholders patterns)
   + length (labels patterns) + length (types patterns))%nat.

(** [maxScore > 0 ? score / maxScore : 0] *)
Definition ratio (s m : nat) : Q :=
  if (0 <? m)%nat then Z.of_nat s # Pos.of_nat m else 0%Q.

Definition confidenceOf (fieldText type : string) (patterns : Patterns) : Q :=
  ratio (score fieldText type patterns) (maxScore patterns).

(** A purpose qualifies for a field when its confidence exceeds 0.3. *)
Definition qualifies (fieldText type : string) (patterns : Patterns) : Prop :=
  (3 # 10 < confidenceOf fieldText type patterns)%Q.

(** The loop over the purposes, left at the first confidence above 0.3. *)
Fixpoint heuristicsLoop (fieldText type : string)
    (table : list (string * Patterns)) : HeuristicMapping :=
  match table with
  | [] => {| purpose := "unknown"; confidence := 0%Q |}
  | (p, patterns) :: rest =>
      let c := confidenceOf fieldText type patterns in
      if Qgtb c (3 # 10) then {| purpose := p; confidence := Math_min c (8 # 10) |}
      else heuristicsLoop fieldText type rest
  end.

Definition heuristicText (field : Field.t) : string :=
  toLowerCase (Field.name field ++ " " ++ Field.id field ++ " "
               ++ Field.placeholder field ++ " " ++ Field.label field).

Definition mapFieldByHeuristics (field : Field.t) : HeuristicMapping :=
  heuristicsLoop (heuristicText field) (Field.type field) HEURISTIC_PATTERNS.

(** *** [mapFieldByQuestionPatterns] *)

Fixpoint firstPattern (questionText : string)
    (table : list (string * list RegExp.t)) : string :=
  match table with
  | [] => "unknown"
  | (p, patterns) :: rest =>
      if existsb (fun pattern => RegExp.test pattern questionText) patterns then p
      else firstPattern questionText rest
  end.

Definition questionText (field : Field.t) : string :=
  toLowerCase (Field.label field ++ " " ++ Field.placeholder field).

Definition mapFieldByQuestionPatterns (field : Field.t) : string :=
  firstPattern (questionText field) QUESTION_PATTERNS.

(** *** [mapFields] *)

(** What the mapping functions return: a string, or the object of
    [mapFieldByHeuristics]. *)
Inductive JsValue :=
| JsStr (s : string)
| JsObj (o : HeuristicMapping).

(** [v !== s] for a string [s]: an object is never strictly equal to a
    string. *)
Definition strictNotEqual (v : JsValue) (s : string) : bool :=
  match v with
  | JsStr t => negb (String.eqb t s)
  | JsObj _ => true
  end.

(** The mapping functions [mapFields] calls for a field. *)
Inductive Stage := RuleMatching | HeuristicMatching | PatternMatching.

(** [field.purpose || 'unknown'] *)
Definition orUnknown (p : option string) : string :=
  match p with
  | Some s => if truthy s then s else "unknown"
  | None => "unknown"
  end.

(** The arrow function given to [fields.map], from its last stage to its
    first; each part returns the assigned field and the stages called. *)
Definition tryQuestionPatterns (field : Field.t) : Field.t * list Stage :=
  let questionMapping := mapFieldByQuestionPatterns field in
  if strictNotEqual (JsStr questionMapping) "unknown" then
    (Field.assignMapping (Some questionMapping) (7 # 10) "question-pattern" field,
     [PatternMatching])
  else
    (Field.set_needsLLMAnalysis true
       (Field.assignMapping (Some (orUnknown (Field.purpose field))) 0 "none" field),
     [PatternMatching]).

Definition tryHeuristics (field : Field.t) : Field.t * list Stage :=
  let heuristicMapping := mapFieldByHeuristics field in
  if strictNotEqual (JsObj heuristicMapping) "unknown" then
    (Field.assignMapping (Some (purpose heuristicMapping))
       (confidence heuristicMapping) "heuristic" field,
     [HeuristicMatching])
  else
    let '(field', stages) := tryQuestionPatterns field in
    (field', HeuristicMatching :: stages).

Definition mapField (dom : Dom.t) (atsType : string) (field : Field.t)
    : Field.t * list Stage :=
  let atsMapping := mapFieldByATS dom field atsType in
  if strictNotEqual (JsStr atsMapping) "unknown" then
    (Field.assignMapping (Some atsMapping) (9 # 10) "ats-specific" field,
     [RuleMatching])
  else
    let '(field', stages) := tryHeuristics field in
    (field', RuleMatching :: stages).

(** The array holds references to field objects. *)
Definition loc := nat.

(** One step of [fields.map]: the object at [l] is assigned in place.  (A
    reference of the array always leads to an object; the second branch
    only makes the function total.) *)
Definition visit (dom : Dom.t) (atsType : string)
    (acc : gmap loc Field.t * list (loc * Stage)) (l : loc)
    : gmap loc Field.t * list (loc * Stage) :=
  match acc.1 !! l with
  | Some field =>
      let '(field', stages) := mapField dom atsType field in
      (<[l := field']> (acc.1), (acc.2 ++ List.map (pair l) stages)%list)
  | None => acc
  end.

Definition scheduleLLMAnalysis (fields : list loc) (heap : gmap loc Field.t)
    : gmap loc Field.t :=
  fold_left (fun h l => alter (Field.set_needsManualReview true) l h) fields heap.

Definition wantsLLM (heap : gmap loc Field.t) (l : loc) : bool :=
  match heap !! l with
  | Some field => Field.needsLLMAnalysis field
  | None => false
  end.

(** The stages [mapFields] calls for the object at [l]. *)
Definition stagesAt (dom : Dom.t) (atsType : string) (heap : gmap loc Field.t)
    (l : loc) : list (loc * Stage) :=
  match heap !! l with
  | Some field => List.map (pair l) (mapField dom atsType field).2
  | None => []
  end.

(** The values [mappingMethod] takes in [mapFields]. *)
Definition mappingMethods : list string :=
  ["ats-specific"; "heuristic"; "question-pattern"; "none"].

(** A field as [mapFields] leaves it: a purpose, one of the four methods
    and a confidence between 0 and 1. *)
Definition wellMapped (field : Field.t) : Prop :=
  (exists p, Field.purpose field = Some p)
  /\ (exists m, Field.mappingMethod field = Some m /\ In m mappingMethods)
  /\ (exists c, Field.confidence field = Some c /\ (0 <= c)%Q /\ (c <= 1)%Q).

(** [mapFields(fields, atsType = 'unknown')]: the returned array, the heap
    after the call and the stages called, in order. *)
Definition mapFields (dom : Dom.t) (fields : list loc) (atsType : option string)
    (heap : gmap loc Field.t)
    : list loc * gmap loc Field.t * list (loc * Stage) :=
  let ats := default "unknown" atsType in
  let mapped := fold_left (visit dom ats) fields (heap, []) in
  let mappedFields := fields in
  let llmFields := List.filter (wantsLLM mapped.1) mappedFields in
  let heap' :=
    if (0 <? length llmFields)%nat then scheduleLLMAnalysis llmFields mapped.1
    else mapped.1 in
  (mappedFields, heap', mapped.2).

End FieldMapper.

(* ===================================================================== *)
(** ** gemini-client.js *)
(* ===================================================================== *)

(** A JavaScript [Map] with string keys: the entries in insertion order,
    no key twice. *)
Module JsMap.
Section Operations.
Context {V : Type}.

Fixpoint get (key : string) (m : list (string * V)) : option V :=
  match m with
  | [] => None
  | (k, v) :: rest => if String.eqb k key then Some v else get key rest
  end.

(** [m.set(key, v)]: an existing key keeps its place. *)
Fixpoint set (key : string) (v : V) (m : list (string * V)) : list (string * V) :=
  match m with
  | [] => [(key, v)]
  | (k, w) :: rest =>
      if String.eqb k key then (k, v) :: rest else (k, w) :: set key v rest
  end.

(** [m.delete(key)]: the entry of [key] goes, the others keep their order. *)
Definition delete (key : string) (m : list (string * V)) : list (string * V) :=
  List.filter (fun e => negb (String.eqb e.1 key)) m.

Definition size (m : list (string * V)) : nat := length m.
End Operations.
End JsMap.

Module GeminiClient.
Import JsString.

(** *** Configuration and state *)

Definition requestsPerMinute : Z := 60.
Definition requestsPerDay : Z := 1500.

(** The mutable part of [RATE_LIMIT]. *)
Record RateLimit := {
  lastRequestTime : Z;
  dailyUsage : Z;
  dailyResetTime : Z
}.

Definition maxSize : nat := 100.
Definition ttl : Z := 24 * 60 * 60 * 1000.

Record CacheEntry := { data : list Field.t; timestamp : Z }.

(** [RATE_LIMIT] and [CACHE.fieldAnalysis]. *)
Record State := {
  RATE_LIMIT : RateLimit;
  fieldAnalysis : list (string * CacheEntry)
}.

(** The module state when the script is loaded. *)
Definition initial : State :=
  {| RATE_LIMIT := {| lastRequestTime := 0; dailyUsage := 0; dailyResetTime := 0 |};
     fieldAnalysis := [] |}.

Record Context := {
  atsType : option string;
  url : option string;
  company : option string
}.

(** *** The rate limiter *)

(** [canMakeRequest()] at time [now]: the answer and the state it leaves. *)
Definition canMakeRequest (now : Z) (rl : RateLimit) : bool * RateLimit :=
  let rl1 :=
    if 24 * 60 * 60 * 1000 <? now - dailyResetTime rl then
      {| lastRequestTime := lastRequestTime rl; dailyUsage := 0; dailyResetTime := now |}
    else rl in
  if requestsPerDay <=? dailyUsage rl1 then (false, rl1)
  else
    let timeSinceLastRequest := now - lastRequestTime rl1 in
    let minInterval := 60 * 1000 / requestsPerMinute in
    (minInterval <=? timeSinceLastRequest, rl1).

(** [updateRateLimit()] at time [now]. *)
Definition updateRateLimit (now : Z) (rl : RateLimit) : RateLimit :=
  {| lastRequestTime := now;
     dailyUsage := dailyUsage rl + 1;
     dailyResetTime := dailyResetTime rl |}.

(** *** The cache *)

Definition generateFieldCacheKey (fields : list Field.t) (context : Context) : string :=
  let fieldsHash :=
    join "|" (List.map (fun f => Field.type f ++ "-" ++ Field.name f ++ "-"
                                 ++ Field.id f ++ "-" ++ Field.label f) fields) in
  let contextHash := orEmpty (atsType context) ++ "-" ++ orEmpty (url context) in
  "fields-" ++ substring0 32 (btoa (fieldsHash ++ contextHash)).

(** [isCacheExpired(cachedResult)] at time [now]. *)
Definition isCacheExpired (now : Z) (cachedResult : CacheEntry) : bool :=
  ttl <? now - timestamp cachedResult.

(** [entries.sort((a, b) => a[1].timestamp - b[1].timestamp)]: the sort
    is stable, an entry goes before the later ones of the same age. *)
Fixpoint insertByTimestamp (x : string * CacheEntry)
    (l : list (string * CacheEntry)) : list (string * CacheEntry) :=
  match l with
  | [] => [x]
  | y :: rest =>
      if timestamp x.2 <=? timestamp y.2 then x :: y :: rest
      else y :: insertByTimestamp x rest
  end.

Fixpoint sortByTimestamp (l : list (string * CacheEntry)) : list (string * CacheEntry) :=
  match l with
  | [] => []
  | x :: rest => insertByTimestamp x (sortByTimestamp rest)
  end.

Definition cleanupCache (cache : list (string * CacheEntry)) : list (string * CacheEntry) :=
  if (maxSize <? JsMap.size cache)%nat then
    let entries := sortByTimestamp cache in
    let toRemove := firstn (JsMap.size cache - maxSize) entries in
    fold_left (fun c e => JsMap.delete e.1 c) toRemove cache
  else cache.

(** The entries that remain when those of [toRemove] are deleted. *)
Definition keptAfter (toRemove : list (string * CacheEntry)) (e : string * CacheEntry) : bool :=
  negb (existsb (String.eqb e.1) (List.map fst toRemove)).

(** The two statements that end a successful [analyzeFields]:
    [CACHE.fieldAnalysis.set(cacheKey, ...)] and [cleanupCache]. *)
Definition put (cacheKey : string) (analysis : list Field.t) (now : Z)
    (cache : list (string * CacheEntry)) : list (string * CacheEntry) :=
  cleanupCache (JsMap.set cacheKey {| data := analysis; timestamp := now |} cache).

(** The lookup that starts it:
    [cachedResult && !isCacheExpired(cachedResult)]. *)
Definition lookup (cacheKey : string) (now : Z)
    (cache : list (string * CacheEntry)) : option (list Field.t) :=
  match JsMap.get cacheKey cache with
  | Some cachedResult =>
      if negb (isCacheExpired now cachedResult) then Some (data cachedResult) else None
  | None => None
  end.

(** *** Fallback and response parsing *)

(** [field.confidence || 0] *)
Definition orZero (c : option Q) : Q :=
  match c with
  | Some x => if Qeq_bool x 0 then 0%Q else x
  | None => 0%Q
  end.

(** [field.mappingMethod || 'fallback'] *)
Definition orFallback (m : option string) : string :=
  match m with
  | Some s => if truthy s then s else "fallback"
  | None => "fallback"
  end.

Definition unavailable : string :=
  "LLM analysis unavailable, using heuristic fallback".

Definition fallbackField (field : Field.t) : Field.t :=
  Field.spread (Field.purpose field)
    (Some (Math_max (orZero (Field.confidence field)) (3 # 10)))
    (Some (orFallback (Field.mappingMethod field)))
    (Some unavailable) field.

Definition fallbackFieldAnalysis (fields : list Field.t) : list Field.t :=
  List.map fallbackField fields.

(** An object of the array the model answers with. *)
Record Analysis := {
  fieldIndex : Z;
  purpose : option string;
  confidence : option Q;
  reasoning : option string
}.

(** [originalFields.map((field, index) => ...)] from index [index] on. *)
Fixpoint enhance (analysis : list Analysis) (index : Z) (fields : list Field.t)
    : list Field.t :=
  match fields with
  | [] => []
  | field :: rest =>
      match List.find (fun a => fieldIndex a =? index + 1) analysis with
      | Some a =>
          Field.spread (purpose a) (confidence a) (Some "llm") (reasoning a) field
      | None => field
      end :: enhance analysis (index + 1) rest
  end.

(** [parseFieldAnalysisResponse]: [parsed] is the array [JSON.parse]
    yields, [None] when a step of the [try] block throws. *)
Definition parseFieldAnalysisResponse (parsed : option (list Analysis))
    (originalFields : list Field.t) : list Field.t :=
  match parsed with
  | Some analysis => enhance analysis 0 originalFields
  | None => originalFields
  end.

(** *** [analyzeFields] *)

(** What [makeGeminiRequest] meets: an exception (transport failure or a
    status that is not ok), or a response. *)
Inductive Remote :=
| RemoteFailure
| RemoteSuccess (parsed : option (list Analysis)).

(** The readings of [Date.now()] during one call, in program order. *)
Record Clock := {
  atAdmission : Z;
  atLookup : Z;
  atCommit : Z;
  atStore : Z
}.

Record Outcome := {
  result : list Field.t;
  state : State;
  requests : nat
}.

Definition analyzeFields (clock : Clock) (remote : Remote)
    (fields : list Field.t) (context : Context) (st : State) : Outcome :=
  let '(granted, rl) := canMakeRequest (atAdmission clock) (RATE_LIMIT st) in
  if negb granted then
    {| result := fallbackFieldAnalysis fields;
       state := {| RATE_LIMIT := rl; fieldAnalysis := fieldAnalysis st |};
       requests := 0 |}
  else
    let cacheKey := generateFieldCacheKey fields context in
    match lookup cacheKey (atLookup clock) (fieldAnalysis st) with
    | Some cached =>
        {| result := cached;
           state := {| RATE_LIMIT := rl; fieldAnalysis := fieldAnalysis st |};
           requests := 0 |}
    | None =>
        match remote with
        | RemoteFailure =>
            {| result := fallbackFieldAnalysis fields;
               state := {| RATE_LIMIT := rl; fieldAnalysis := fieldAnalysis st |};
               requests := 1 |}
        | RemoteSuccess parsed =>
            let rl' := updateRateLimit (atCommit clock) rl in
            let analysis := parseFieldAnalysisResponse parsed fields in
            {| result := analysis;
               state := {| RATE_LIMIT := rl';
                           fieldAnalysis :=
                             put cacheKey analysis (atStore clock) (fieldAnalysis st) |};
               requests := 1 |}
        end
    end.

(** *** Runs of the rate limiter and of the cache *)

Inductive Event :=
| Attempt (now : Z)
| Commit (now : Z).

Definition step (rl : RateLimit) (e : Event) : RateLimit :=
  match e with
  | Attempt now => (canMakeRequest now rl).2
  | Commit now => updateRateLimit now rl
  end.

Definition run (events : list Event) (rl : RateLimit) : RateLimit :=
  fold_left step events rl.

Definition isCommit (e : Event) : bool :=
  match e with Commit _ => true | Attempt _ => false end.

Definition eventTime (e : Event) : Z :=
  match e with Attempt now => now | Commit now => now end.

Record Put := { putKey : string; putData : list Field.t; putTime : Z }.

Definition entryOf (p : Put) : string * CacheEntry :=
  (putKey p, {| data := putData p; timestamp := putTime p |}).

Definition runPuts (puts : list Put) (cache : list (string * CacheEntry))
    : list (string * CacheEntry) :=
  fold_left (fun c p => put (putKey p) (putData p) (putTime p) c) puts cache.

End GeminiClient.

(* ===================================================================== *)
(** ** field-mapper.js: what [mapFields] leaves, and [validateMapping] *)
(* ===================================================================== *)

Module Mapped.
Import JsString FieldMapper.

(** The two assignments of the callback of [mapFields] that can be
    reached: the one after a rule match and the one after the heuristic
    stage. *)
Definition mappedField (dom : Dom.t) (atsType : string) (field : Field.t) : Field.t :=
  if strictNotEqual (JsStr (mapFieldByATS dom field atsType)) "unknown" then
    Field.assignMapping (Some (mapFieldByATS dom field atsType)) (9 # 10)
      "ats-specific" field
  else
    Field.assignMapping (Some (purpose (mapFieldByHeuristics field)))
      (confidence (mapFieldByHeuristics field)) "heuristic" field.

(** [scheduleLLMAnalysis] on an object of the batch: the objects flagged
    [needsLLMAnalysis] are marked for review. *)
Definition reviewed (field : Field.t) : Field.t :=
  if Field.needsLLMAnalysis field then Field.set_needsManualReview true field
  else field.

(** The purposes of the heuristic table, with "unknown". *)
Definition taxonomy : list string :=
  "unknown" :: List.map fst HEURISTIC_PATTERNS.

End Mapped.

Module Validation.
Import JsString.

(** A value of the profile: absent, [null], or a string as the profile form
    stores it. *)
Inductive Value := Undefined | Null | Str (s : string).

Record PersonalInfo := {
  firstName : Value; lastName : Value; email : Value; phone : Value;
  address : Value; city : Value; state : Value; zipCode : Value;
  country : Value
}.

Record WorkInfo := {
  currentTitle : Value; currentCompany : Value; yearsExperience : Value;
  desiredSalary : Value; availableStartDate : Value
}.

Record Documents := { resumePath : Value; coverLetterPath : Value }.

Record Profile := {
  personalInfo : option PersonalInfo;
  workInfo : option WorkInfo;
  documents : option Documents
}.

(** [section?.attribute] *)
Definition attribute {S} (section : option S) (get : S -> Value) : Value :=
  match section with
  | Some s => get s
  | None => Undefined
  end.

Definition truthyValue (v : Value) : bool :=
  match v with
  | Str s => truthy s
  | _ => false
  end.

(** The text of a value inside a template literal. *)
Definition text (v : Value) : string :=
  match v with
  | Str s => s
  | Null => "null"
  | Undefined => "undefined"
  end.

(** The cases of the [switch] that read one attribute. *)
Definition direct (profile : Profile) : list (string * Value) :=
  [ ("firstName", attribute (personalInfo profile) firstName);
    ("lastName", attribute (personalInfo profile) lastName);
    ("email", attribute (personalInfo profile) email);
    ("phone", attribute (personalInfo profile) phone);
    ("address", attribute (personalInfo profile) address);
    ("city", attribute (personalInfo profile) city);
    ("state", attribute (personalInfo profile) state);
    ("zipCode", attribute (personalInfo profile) zipCode);
    ("country", attribute (personalInfo profile) country);
    ("currentTitle", attribute (workInfo profile) currentTitle);
    ("currentCompany", attribute (workInfo profile) currentCompany);
    ("yearsExperience", attribute (workInfo profile) yearsExperience);
    ("desiredSalary", attribute (workInfo profile) desiredSalary);
    ("availableStartDate", attribute (workInfo profile) availableStartDate);
    ("resumeUpload", attribute (documents profile) resumePath);
    ("coverLetterUpload", attribute (documents profile) coverLetterPath) ].

(** [getValueForField(purpose, profile)]; an absent purpose takes the
    default case. *)
Definition getValueForField (purpose : option string) (profile : option Profile) : Value :=
  match profile with
  | None => Null
  | Some profile =>
      match purpose with
      | None => Null
      | Some p =>
          if String.eqb p "fullName" then
            if truthyValue (attribute (personalInfo profile) firstName)
               && truthyValue (attribute (personalInfo profile) lastName)
            then Str (text (attribute (personalInfo profile) firstName) ++ " "
                      ++ text (attribute (personalInfo profile) lastName))
            else Null
          else
            match FieldMapper.rulesOf (direct profile) p with
            | Some v => v
            | None => Null
            end
      end
  end.

(** [v !== null] *)
Definition notNull (v : Value) : bool :=
  match v with Null => false | _ => true end.

Record Issue := { field : Field.t; issue : string; message : string }.

Record Result := {
  valid : nat;
  invalid : nat;
  missing : nat;
  issues : list Issue
}.

(** The text of [field.purpose] inside a template literal. *)
Definition purposeText (p : option string) : string :=
  match p with Some s => s | None => "undefined" end.

(** The callback of [mappedFields.forEach]. *)
Definition check (profile : option Profile) (validation : Result) (f : Field.t) : Result :=
  if match Field.purpose f with Some p => String.eqb p "unknown" | None => false end then
    {| valid := valid validation; invalid := invalid validation;
       missing := S (missing validation);
       issues := issues validation
                 ++ [{| field := f; issue := "unmapped";
                        message := "Field purpose could not be determined" |}] |}
  else
    let hasData := notNull (getValueForField (Field.purpose f) profile) in
    if hasData then
      {| valid := S (valid validation); invalid := invalid validation;
         missing := missing validation; issues := issues validation |}
    else
      {| valid := valid validation; invalid := S (invalid validation);
         missing := missing validation;
         issues := issues validation
                   ++ [{| field := f; issue := "no-data";
                          message := "No profile data available for "
                                     ++ purposeText (Field.purpose f) |}] |}.

Definition validateMapping (mappedFields : list Field.t) (profile : option Profile) : Result :=
  fold_left (check profile) mappedFields
    {| valid := 0; invalid := 0; missing := 0; issues := [] |}.

(** A field that [validateMapping] counts as valid. *)
Definition countsValid (profile : option Profile) (f : Field.t) : bool :=
  negb (match Field.purpose f with Some p => String.eqb p "unknown" | None => false end)
  && notNull (getValueForField (Field.purpose f) profile).

(** The profile object without a section. *)
Definition emptyProfile : Profile :=
  {| personalInfo := None; workInfo := None; documents := None |}.

(** The purposes that read one attribute of the profile. *)
Definition isDirect (purpose : option string) : bool :=
  match purpose with
  | Some p => existsb (String.eqb p) (List.map fst (direct emptyProfile))
  | None => false
  end.

End Validation.

(* ===================================================================== *)
(** ** gemini-client.js: sequences of calls, and the question path *)
(* ===================================================================== *)

(** The object [JSON.parse] yields for a question; an attribute that is
    absent or falsy in the way its default tests is [None]. *)
Module Parsed.
Record ResponseStructure := {
  opening : option string;
  body : option string;
  closing : option string
}.

Record t := {
  category : option string;
  questionType : option string;
  keyPoints : option (list string);
  responseStructure : option ResponseStructure;
  advice : option (list string);
  suggestedLength : option string;
  confidence : option Q
}.
End Parsed.

(** What [AnswerLibrary.findMatchingTemplate] returns. *)
Module Template.
Record t := {
  key : string;
  category : option string;
  matchConfidence : option Q
}.
End Template.

Module Client.
Import JsString GeminiClient.

(** *** Field batches *)

(** The text [generateFieldCacheKey] encodes. *)
Definition keyText (fields : list Field.t) (context : Context) : string :=
  join "|" (List.map (fun f => Field.type f ++ "-" ++ Field.name f ++ "-"
                               ++ Field.id f ++ "-" ++ Field.label f) fields)
  ++ (orEmpty (atsType context) ++ "-" ++ orEmpty (url context)).

(** One call of [analyzeFields] with what it meets. *)
Record Call := {
  clock : Clock;
  remote : Remote;
  fields : list Field.t;
  context : Context
}.

Definition call (st : State) (c : Call) : State :=
  state (analyzeFields (clock c) (remote c) (fields c) (context c) st).

(** Calls, each awaited before the next is made. *)
Definition runCalls (calls : list Call) (st : State) : State :=
  fold_left call calls st.

(** The state the module keeps between calls. *)
Definition wellFormed (st : State) : Prop :=
  0 <= dailyUsage (RATE_LIMIT st) <= requestsPerDay
  /\ NoDup (List.map fst (fieldAnalysis st))
  /\ (JsMap.size (fieldAnalysis st) <= maxSize)%nat.

(** *** Questions *)

Record QuestionAnalysis := {
  category : option string;
  questionType : option string;
  keyPoints : list string;
  responseStructure : Parsed.ResponseStructure;
  advice : list string;
  suggestedLength : string;
  confidence : Q;
  source : string
}.

(** The object literal without attributes. *)
Definition noStructure : Parsed.ResponseStructure :=
  {| Parsed.opening := None; Parsed.body := None; Parsed.closing := None |}.

(** [x || d] *)
Definition orList (o : option (list string)) : list string :=
  match o with Some l => l | None => [] end.

Definition orString (o : option string) (d : string) : string :=
  match o with
  | Some s => if truthy s then s else d
  | None => d
  end.

Definition orNumber (o : option Q) (d : Q) : Q :=
  match o with
  | Some x => if Qeq_bool x 0 then d else x
  | None => d
  end.

(** [parseQuestionAnalysisResponse]: [parsed] is the object [JSON.parse]
    yields, [None] when a step of the [try] block throws. *)
Definition parseQuestionAnalysisResponse (parsed : option Parsed.t) : QuestionAnalysis :=
  match parsed with
  | Some analysis =>
      {| category := Parsed.category analysis;
         questionType := Parsed.questionType analysis;
         keyPoints := orList (Parsed.keyPoints analysis);
         responseStructure :=
           match Parsed.responseStructure analysis with
           | Some r => r
           | None => noStructure
           end;
         advice := orList (Parsed.advice analysis);
         suggestedLength := orString (Parsed.suggestedLength analysis) "medium";
         confidence := orNumber (Parsed.confidence analysis) (1 # 2);
         source := "llm" |}
  | None =>
      {| category := Some "unknown";
         questionType := Some "unknown";
         keyPoints := [];
         responseStructure := noStructure;
         advice := ["Unable to analyze question automatically"];
         suggestedLength := "medium";
         confidence := 0;
         source := "error" |}
  end.

(** [fallbackQuestionAnalysis]: [library] is
    [window.AnswerLibrary.findMatchingTemplate], [None] when the library
    is not loaded. *)
Definition fallbackQuestionAnalysis (library : option (string -> option Template.t))
    (questionText : string) : QuestionAnalysis :=
  match match library with Some find => find questionText | None => None end with
  | Some template =>
      {| category := Some (orString (Template.category template) "general");
         questionType := Some (Template.key template);
         keyPoints := ["Matches template: " ++ Template.key template];
         responseStructure :=
           {| Parsed.opening := Some "Use template response";
              Parsed.body := Some "Customize with personal details";
              Parsed.closing := Some "Professional closing" |};
         advice := ["Personalize the template response"; "Include specific examples"];
         suggestedLength := "medium";
         confidence := orNumber (Template.matchConfidence template) (1 # 2);
         source := "template_fallback" |}
  | None =>
      {| category := Some "unknown";
         questionType := Some "unknown";
         keyPoints := ["Manual analysis required"];
         responseStructure := noStructure;
         advice := ["Review question manually"; "Consider using a template"];
         suggestedLength := "medium";
         confidence := 0;
         source := "fallback" |}
  end.

Record QuestionContext := {
  position : option string;
  company : option string
}.

(** The text [generateQuestionCacheKey] encodes for the context. *)
Definition contextText (context : QuestionContext) : string :=
  orEmpty (position context) ++ "-" ++ orEmpty (company context).

Definition generateQuestionCacheKey (questionText : string) (context : QuestionContext)
    : string :=
  let questionHash := substring0 32 (btoa questionText) in
  let contextHash := orEmpty (position context) ++ "-" ++ orEmpty (company context) in
  "question-" ++ questionHash ++ "-" ++ substring0 16 (btoa contextHash).

Record QuestionEntry := { data : QuestionAnalysis; timestamp : Z }.

(** [cleanupCache] on a map of any entries that carry a timestamp. *)
Section Cleanup.
Context {E : Type} (time : E -> Z).

Fixpoint insertBy (x : string * E) (l : list (string * E)) : list (string * E) :=
  match l with
  | [] => [x]
  | y :: rest =>
      if time x.2 <=? time y.2 then x :: y :: rest
      else y :: insertBy x rest
  end.

Fixpoint sortBy (l : list (string * E)) : list (string * E) :=
  match l with
  | [] => []
  | x :: rest => insertBy x (sortBy rest)
  end.

Definition cleanupBy (cache : list (string * E)) : list (string * E) :=
  if (maxSize <? JsMap.size cache)%nat then
    let entries := sortBy cache in
    let toRemove := firstn (JsMap.size cache - maxSize) entries in
    fold_left (fun c e => JsMap.delete e.1 c) toRemove cache
  else cache.
End Cleanup.

(** [RATE_LIMIT] and the two maps of [CACHE]. *)
Record Store := {
  base : State;
  questionAnalysis : list (string * QuestionEntry)
}.

Inductive RemoteQ :=
| QFailure
| QSuccess (parsed : option Parsed.t).

Record QOutcome := {
  result : QuestionAnalysis;
  store : Store;
  requests : nat
}.

Definition withRateLimit (rl : RateLimit) (s : Store) : Store :=
  {| base := {| RATE_LIMIT := rl; fieldAnalysis := fieldAnalysis (base s) |};
     questionAnalysis := questionAnalysis s |}.

Definition analyzeQuestion (library : option (string -> option Template.t))
    (clock : Clock) (remote : RemoteQ) (questionText : string)
    (context : QuestionContext) (s : Store) : QOutcome :=
  let '(granted, rl) := canMakeRequest (atAdmission clock) (RATE_LIMIT (base s)) in
  if negb granted then
    {| result := fallbackQuestionAnalysis library questionText;
       store := withRateLimit rl s;
       requests := 0 |}
  else
    let cacheKey := generateQuestionCacheKey questionText context in
    match
      match JsMap.get cacheKey (questionAnalysis s) with
      | Some cachedResult =>
          if negb (ttl <? atLookup clock - timestamp cachedResult)
          then Some (data cachedResult) else None
      | None => None
      end
    with
    | Some cached =>
        {| result := cached; store := withRateLimit rl s; requests := 0 |}
    | None =>
        match remote with
        | QFailure =>
            {| result := fallbackQuestionAnalysis library questionText;
               store := withRateLimit rl s;
               requests := 1 |}
        | QSuccess parsed =>
            let analysis := parseQuestionAnalysisResponse parsed in
            {| result := analysis;
               store :=
                 {| base := {| RATE_LIMIT := updateRateLimit (atCommit clock) rl;
                               fieldAnalysis := fieldAnalysis (base s) |};
                    questionAnalysis :=
                      cleanupBy timestamp
                        (JsMap.set cacheKey
                           {| data := analysis; timestamp := atStore clock |}
                           (questionAnalysis s)) |};
               requests := 1 |}
        end
    end.

(** A call of one of the two analyses, with what it meets. *)
Inductive AnyCall :=
| FieldsCall (c : Call)
| QuestionCall (library : option (string -> option Template.t)) (clock : Clock)
    (remote : RemoteQ) (questionText : string) (context : QuestionContext).

Definition anyCall (s : Store) (c : AnyCall) : Store :=
  match c with
  | FieldsCall c =>
      {| base := call (base s) c; questionAnalysis := questionAnalysis s |}
  | QuestionCall library clock remote questionText context =>
      store (analyzeQuestion library clock remote questionText context s)
  end.

(** Calls of both kinds, each awaited before the next is made. *)
Definition runAll (calls : list AnyCall) (s : Store) : Store :=
  fold_left anyCall calls s.

(** The module when the script is loaded. *)
Definition loaded : Store := {| base := initial; questionAnalysis := [] |}.

(** An entry of any map of [CACHE] reduced to its key and timestamp. *)
Definition stamp {E} (time : E -> Z) (e : string * E) : string * CacheEntry :=
  (e.1, {| GeminiClient.data := []; GeminiClient.timestamp := time e.2 |}).

(** The state both analyses keep between calls. *)
Definition wellFormedStore (s : Store) : Prop :=
  wellFormed (base s)
  /\ NoDup (List.map fst (questionAnalysis s))
  /\ (JsMap.size (questionAnalysis s) <= maxSize)%nat.

(** [getUsageStats] *)
Record UsageStats := {
  statDailyUsage : Z;
  dailyLimit : Z;
  remainingToday : Z;
  fieldAnalysisSize : nat;
  questionAnalysisSize : nat;
  statMaxSize : nat;
  statLastRequestTime : Z
}.

Definition getUsageStats (s : Store) : UsageStats :=
  {| statDailyUsage := dailyUsage (RATE_LIMIT (base s));
     dailyLimit := requestsPerDay;
     remainingToday := requestsPerDay - dailyUsage (RATE_LIMIT (base s));
     fieldAnalysisSize := JsMap.size (fieldAnalysis (base s));
     questionAnalysisSize := JsMap.size (questionAnalysis s);
     statMaxSize := maxSize;
     statLastRequestTime := lastRequestTime (RATE_LIMIT (base s)) |}.

End Client.

(* ===================================================================== *)
(** ** gemini-client.js: a key that cannot be built, and overlapping calls *)
(* ===================================================================== *)

Module Async.
Import JsString GeminiClient.

(** [analyzeFields] with the outcome of [generateFieldCacheKey] made
    explicit.  [btoa] throws on a text with a code unit above 255; the
    strings of this file hold no such code unit, so [None] stands for a
    batch or context with one.  The exception is raised inside the [try]
    block, after the admission check and before the cache is read, and
    the [catch] block answers with the fallback: no request is made. *)
Definition analyzeFieldsWith (cacheKey : option string) (clock : Clock) (remote : Remote)
    (fields : list Field.t) (st : State) : Outcome :=
  let '(granted, rl) := canMakeRequest (atAdmission clock) (RATE_LIMIT st) in
  if negb granted then
    {| result := fallbackFieldAnalysis fields;
       state := {| RATE_LIMIT := rl; fieldAnalysis := fieldAnalysis st |};
       requests := 0 |}
  else
    match cacheKey with
    | None =>
        {| result := fallbackFieldAnalysis fields;
           state := {| RATE_LIMIT := rl; fieldAnalysis := fieldAnalysis st |};
           requests := 0 |}
    | Some cacheKey =>
        match lookup cacheKey (atLookup clock) (fieldAnalysis st) with
        | Some cached =>
            {| result := cached;
               state := {| RATE_LIMIT := rl; fieldAnalysis := fieldAnalysis st |};
               requests := 0 |}
        | None =>
            match remote with
            | RemoteFailure =>
                {| result := fallbackFieldAnalysis fields;
                   state := {| RATE_LIMIT := rl; fieldAnalysis := fieldAnalysis st |};
                   requests := 1 |}
            | RemoteSuccess parsed =>
                let rl' := updateRateLimit (atCommit clock) rl in
                let analysis := parseFieldAnalysisResponse parsed fields in
                {| result := analysis;
                   state := {| RATE_LIMIT := rl';
                               fieldAnalysis :=
                                 put cacheKey analysis (atStore clock) (fieldAnalysis st) |};
                   requests := 1 |}
            end
        end
    end.

(** *** Overlapping calls

    [analyzeFields] and [analyzeQuestion] are [async]: a call runs up to
    its first [await], and goes on when what it awaits has arrived; in
    between, other calls run.  The pieces that run without interruption
    and write the state of the module are the admission check (followed,
    in the same piece, by the reading of the cache), [updateRateLimit] at
    the end of [makeGeminiRequest], and the cache write with the
    [cleanupCache] that follows it. *)
Inductive Segment :=
| Admission (now : Z)
| Commitment (now : Z)
| FieldsStored (cacheKey : string) (analysis : list Field.t) (now : Z)
| QuestionStored (cacheKey : string) (analysis : Client.QuestionAnalysis) (now : Z).

Definition segment (s : Client.Store) (g : Segment) : Client.Store :=
  match g with
  | Admission now =>
      Client.withRateLimit (canMakeRequest now (RATE_LIMIT (Client.base s))).2 s
  | Commitment now =>
      Client.withRateLimit (updateRateLimit now (RATE_LIMIT (Client.base s))) s
  | FieldsStored cacheKey analysis now =>
      {| Client.base := {| RATE_LIMIT := RATE_LIMIT (Client.base s);
                    fieldAnalysis := put cacheKey analysis now (fieldAnalysis (Client.base s)) |};
         Client.questionAnalysis := Client.questionAnalysis s |}
  | QuestionStored cacheKey analysis now =>
      {| Client.base := Client.base s;
         Client.questionAnalysis :=
           Client.cleanupBy Client.timestamp
             (JsMap.set cacheKey {| Client.data := analysis; Client.timestamp := now |}
                (Client.questionAnalysis s)) |}
  end.

(** The pieces of any number of calls, in the order in which they run. *)
Definition runSegments (segments : list Segment) (s : Client.Store) : Client.Store :=
  fold_left segment segments s.

(** The pieces of one call that no other call interrupts, from the state
    in which it starts. *)
Definition segmentsOf (c : Client.AnyCall) (s : Client.Store) : list Segment :=
  match c with
  | Client.FieldsCall c =>
      let '(granted, _) := canMakeRequest (atAdmission (Client.clock c)) (RATE_LIMIT (Client.base s)) in
      if negb granted then [Admission (atAdmission (Client.clock c))]
      else
        let cacheKey := generateFieldCacheKey (Client.fields c) (Client.context c) in
        match lookup cacheKey (atLookup (Client.clock c)) (fieldAnalysis (Client.base s)) with
        | Some _ => [Admission (atAdmission (Client.clock c))]
        | None =>
            match Client.remote c with
            | RemoteFailure => [Admission (atAdmission (Client.clock c))]
            | RemoteSuccess parsed =>
                [Admission (atAdmission (Client.clock c));
                 Commitment (atCommit (Client.clock c));
                 FieldsStored cacheKey (parseFieldAnalysisResponse parsed (Client.fields c))
                   (atStore (Client.clock c))]
            end
        end
  | Client.QuestionCall library clock remote questionText context =>
      let '(granted, _) := canMakeRequest (atAdmission clock) (RATE_LIMIT (Client.base s)) in
      if negb granted then [Admission (atAdmission clock)]
      else
        let cacheKey := Client.generateQuestionCacheKey questionText context in
        match
          match JsMap.get cacheKey (Client.questionAnalysis s) with
          | Some cachedResult =>
              if negb (ttl <? atLookup clock - Client.timestamp cachedResult)
              then Some (Client.data cachedResult) else None
          | None => None
          end
        with
        | Some _ => [Admission (atAdmission clock)]
        | None =>
            match remote with
            | Client.QFailure => [Admission (atAdmission clock)]
            | Client.QSuccess parsed =>
                [Admission (atAdmission clock);
                 Commitment (atCommit clock);
                 QuestionStored cacheKey (Client.parseQuestionAnalysisResponse parsed)
                   (atStore clock)]
            end
        end
  end.

(** The pieces of calls each of which is awaited before the next is made. *)
Fixpoint serial (calls : list Client.AnyCall) (s : Client.Store) : list Segment :=
  match calls with
  | [] => []
  | c :: rest => (segmentsOf c s ++ serial rest (Client.anyCall s c))%list
  end.

(** Calls, one for each element of [times], that are all made at [now],
    before the request of any of them has returned, and whose requests
    then return at [times]. *)
Definition overlapping (now : Z) (times : list Z) : list Segment :=
  (repeat (Admission now) (length times) ++ List.map Commitment times)%list.

End Async.

(* ===================================================================== *)
(** ** Suggestions for manual review *)
(* ===================================================================== *)

(** The scores of [getSuggestions] are sums of 0.3, 0.4 and 0.2 compared
    with 0.1 and 1, and the order of the result depends on them: they are
    kept as doubles. *)
#[local] Set Warnings "-inexact-float".

Module Float64.
Import PrimFloat.
Local Open Scope float_scope.

Definition isNegativeZero (a : float) : bool :=
  match classify a with
  | FloatClass.NZero => true
  | _ => false
  end.

(** [Math.min] of two numbers: [NaN] when one of them is, and -0 before +0. *)
Definition Math_min (a b : float) : float :=
  if is_nan a || is_nan b then nan
  else if a <? b then a
  else if b <? a then b
  else if isNegativeZero a then a
  else b.

End Float64.

Module Suggest.
Import JsString FieldMapper PrimFloat.
Local Open Scope float_scope.

Record Suggestion := {
  purpose : string;
  confidence : float;
  reasons : list string
}.

(** The text of a reason: the kind, the word contains and the keyword
    between double quotes. *)
Definition reason (kind keyword : string) : string :=
  kind ++ " contains " ++ String dq keyword ++ String dq EmptyString.

Definition push {A} (l : list A) (x : A) : list A := (l ++ [x])%list.

(** [keywords.forEach(k => { if (fieldText.includes(k.toLowerCase()))
    { score += weight; reasons.push(reason) } })], on the pair of [score]
    and [reasons]. *)
Definition forEach (fieldText kind : string) (weight : float) (keywords : list string)
    (acc : float * list string) : float * list string :=
  fold_left
    (fun acc keyword =>
       if includes fieldText (toLowerCase keyword)
       then (acc.1 + weight, push acc.2 (reason kind keyword))
       else acc)
    keywords acc.

Definition typeMatches (field : Field.t) (patterns : Patterns) : bool :=
  existsb (String.eqb (Field.type field)) (types patterns).

(** The body of the loop up to the test of the score. *)
Definition scoreAndReasons (field : Field.t) (patterns : Patterns) : float * list string :=
  let fieldText := heuristicText field in
  let afterNames := forEach fieldText "name" 0.3 (names patterns) (0, []) in
  let afterLabels := forEach fieldText "label" 0.4 (labels patterns) afterNames in
  if typeMatches field patterns
  then (afterLabels.1 + 0.2, push afterLabels.2 ("type is " ++ Field.type field))
  else afterLabels.

(** What one purpose adds to [suggestions]. *)
Definition suggest (field : Field.t) (entry : string * Patterns) : list Suggestion :=
  let scored := scoreAndReasons field entry.2 in
  if 0.1 <? scored.1
  then [{| purpose := entry.1;
           confidence := Float64.Math_min scored.1 1;
           reasons := scored.2 |}]
  else [].

(** [(a, b) => b.confidence - a.confidence] *)
Definition comparator (a b : Suggestion) : float := confidence b - confidence a.

(** [Array.prototype.sort] is stable: an element moves behind another one
    only when the comparator is positive. *)
Fixpoint insert (x : Suggestion) (l : list Suggestion) : list Suggestion :=
  match l with
  | [] => [x]
  | y :: rest =>
      if 0 <? comparator x y then y :: insert x rest
      else x :: y :: rest
  end.

Fixpoint sort (l : list Suggestion) : list Suggestion :=
  match l with
  | [] => []
  | x :: rest => insert x (sort rest)
  end.

Definition getSuggestions (field : Field.t) : list Suggestion :=
  sort (flat_map (suggest field) HEURISTIC_PATTERNS).

(** The number of reasons a purpose collects for a field. *)
Definition matches (field : Field.t) (patterns : Patterns) : nat :=
  (countIncluded (heuristicText field) (names patterns)
   + countIncluded (heuristicText field) (labels patterns)
   + (if typeMatches field patterns then 1 else 0))%nat.

(** The score after [k] names, [j] labels and the type. *)
Definition accumulate (n : nat) (weight start : float) : float :=
  Nat.iter n (fun s => s + weight) start.

Definition scoreOf (k j : nat) (t : bool) : float :=
  let s := accumulate j 0.4 (accumulate k 0.3 0) in
  if t then s + 0.2 else s.

(** The confidences a table with at most 7 names and 4 labels for a
    purpose can produce. *)
Definition values : list float :=
  flat_map (fun k =>
    flat_map (fun j => [Float64.Math_min (scoreOf k j false) 1;
                        Float64.Math_min (scoreOf k j true) 1])
      (seq 0 5))
    (seq 0 8).

(** [a] may stand before [b] in a list in descending order. *)
Definition descending (a b : Suggestion) : Prop :=
  (confidence b <=? confidence a) = true.

End Suggest.

(* ===================================================================== *)
(** ** The content script: the caller of [mapFields] *)
(* ===================================================================== *)

Module ContentScript.
Import JsString.

(** [determineFieldPurpose(fieldInfo)], which [analyzeField] stores in
    [fieldInfo.purpose] before [analyzeFormFields] hands the fields to
    [FieldMapper.mapFields]. *)
Definition determineFieldPurpose (fieldInfo : Field.t) : string :=
  let text := toLowerCase (Field.name fieldInfo ++ " " ++ Field.id fieldInfo ++ " "
                           ++ Field.placeholder fieldInfo ++ " " ++ Field.label fieldInfo) in
  if includes text "first" && includes text "name" then "firstName"
  else if includes text "last" && includes text "name" then "lastName"
  else if includes text "full" && includes text "name" then "fullName"
  else if includes text "email" then "email"
  else if includes text "phone" then "phone"
  else if includes text "address" && negb (includes text "email") then "address"
  else if includes text "city" then "city"
  else if includes text "state" || includes text "province" then "state"
  else if includes text "zip" || includes text "postal" then "zipCode"
  else if includes text "country" then "country"
  else if includes text "current" && (includes text "title" || includes text "position")
  then "currentTitle"
  else if includes text "current" && includes text "company" then "currentCompany"
  else if includes text "experience" && includes text "year" then "yearsExperience"
  else if includes text "salary" then "desiredSalary"
  else if includes text "start" && includes text "date" then "availableStartDate"
  else if includes text "why" && includes text "interested" then "whyInterested"
  else if includes text "why" && includes text "qualified" then "whyQualified"
  else if includes text "cover" && includes text "letter" then "coverLetter"
  else if includes text "additional" && includes text "information" then "additionalInfo"
  else if String.eqb (Field.type fieldInfo) "file" then
    if includes text "resume" || includes text "cv" then "resumeUpload"
    else if includes text "cover" && includes text "letter" then "coverLetterUpload"
    else "fileUpload"
  else "unknown".

(** The purposes of [determineFieldPurpose] that no table of the field
    mapper knows. *)
Definition ownPurposes : list string :=
  ["whyInterested"; "whyQualified"; "coverLetter"; "additionalInfo"; "fileUpload"].

End ContentScript.

(* ===================================================================== *)
(** ** The specification's wording, where it differs from the code *)
(* ===================================================================== *)

Module Spec.
Import JsString FieldMapper.

(** Section 4.2: among the purposes whose confidence exceeds 0.3 the one
    with the highest confidence wins, the earlier one on a tie. *)
Fixpoint highestQualifying (fieldText type : string)
    (table : list (string * Patterns)) (best : option (string * Q))
    : option (string * Q) :=
  match table with
  | [] => best
  | (p, patterns) :: rest =>
      let c := confidenceOf fieldText type patterns in
      let best' :=
        if Qgtb c (3 # 10) then
          match best with
          | Some (_, b) => if Qgtb c b then Some (p, c) else best
          | None => Some (p, c)
          end
        else best in
      highestQualifying fieldText type rest best'
  end.

Definition scoreByHeuristics (field : Field.t) : HeuristicMapping :=
  match highestQualifying (heuristicText field) (Field.type field)
          HEURISTIC_PATTERNS None with
  | Some (p, c) => {| purpose := p; confidence := Math_min c (8 # 10) |}
  | None => {| purpose := "unknown"; confidence := 0%Q |}
  end.

(** Section 4.3: the expressions are applied to the lower-cased
    concatenation of the field's name, id, placeholder and label. *)
Definition patternText (field : Field.t) : string :=
  toLowerCase (Field.name field ++ " " ++ Field.id field ++ " "
               ++ Field.placeholder field ++ " " ++ Field.label field).

Definition matchByPattern (field : Field.t) : string :=
  firstPattern (patternText field) QUESTION_PATTERNS.

End Spec.

(* ===================================================================== *)
(** ** Concrete inputs used below *)
(* ===================================================================== *)

Module Samples.
Import FieldMapper GeminiClient.

(** A text input named company_name and labelled Company name. *)
Definition companyField : Field.t :=
  Field.input "text" "company_name" "" "" "Company name".

(** A text area whose question is carried by its name only. *)
Definition namedQuestion : Field.t :=
  Field.input "textarea" "why are you interested" "" "" "".

(** A text area whose question is its label. *)
Definition labelledQuestion : Field.t :=
  Field.input "textarea" "q1" "" "" "Why are you interested in this position?".

(** The e-mail input of a Greenhouse form. *)
Definition emailField : Field.t :=
  Field.input "email" "job_application[email]" "email" "" "Email".

(** A heap with that input alone, at reference 0. *)
Definition emailHeap : gmap loc Field.t := {[ 0%nat := emailField ]}.

(** The page context of the calls below. *)
Definition context : Context :=
  {| atsType := Some "greenhouse"; url := Some "https://boards.example/jobs/1";
     company := None |}.

(** A rate limiter whose daily window started at time 1000. *)
Definition windowStart : RateLimit :=
  {| lastRequestTime := 0; dailyUsage := 0; dailyResetTime := 1000 |}.

(** 1500 admissions, each granted and committed, one every two seconds. *)
Definition fullDay : list Event :=
  flat_map (fun i => [Attempt (2000 * Z.of_nat i); Commit (2000 * Z.of_nat i + 300)])
    (seq 1 1500).

(** A first call at time [t0], answered 400 ms later by a response without
    an array, and a second call of the same batch [delay] ms after [t0]. *)
Definition t0 : Z := 1700000000000.

Definition firstClock : Clock :=
  {| atAdmission := t0; atLookup := t0; atCommit := t0 + 400; atStore := t0 + 401 |}.

Definition clockAfter (delay : Z) : Clock :=
  {| atAdmission := t0 + delay; atLookup := t0 + delay;
     atCommit := t0 + delay + 400; atStore := t0 + delay + 401 |}.

Definition firstCall : Outcome :=
  analyzeFields firstClock (RemoteSuccess None) [companyField] context initial.

(** That text area as [mapFields] leaves it on an unknown platform. *)
Definition mappedQuestion : Field.t :=
  (mapField Dom.absent "unknown" labelledQuestion).1.

(** An entry stored one millisecond before the lifetime ran out at [t0]. *)
Definition staleState : State :=
  {| RATE_LIMIT := {| lastRequestTime := 0; dailyUsage := 3; dailyResetTime := t0 - ttl - 1 |};
     fieldAnalysis :=
       [(generateFieldCacheKey [companyField] context,
         {| data := [companyField]; timestamp := t0 - ttl - 1 |})] |}.

(** 101 writes of one key, 25 hours apart, so that each finds the entry
    of the one before expired; and 101 writes of different keys. *)
Definition sameKeyPuts : list Put :=
  List.map (fun i => {| putKey := "fields-same"; putData := [];
                        putTime := t0 + 90000000 * Z.of_nat i |}) (seq 1 101).

Definition key (i : nat) : string :=
  String (ascii_of_nat (32 + i)) EmptyString.

Definition distinctPuts : list Put :=
  List.map (fun i => {| putKey := key i; putData := [];
                        putTime := t0 + Z.of_nat i |}) (seq 1 101).

End Samples.

(* ===================================================================== *)
(** ** Further concrete inputs *)
(* ===================================================================== *)

Module Cases.
Import FieldMapper GeminiClient.

(** A heap with the labelled question at reference 0, carrying the purpose
    the content script gave it. *)
Definition questionHeap : gmap loc Field.t :=
  {[ 0%nat := Field.spread (Some "whyInterested") None None None
                Samples.labelledQuestion ]}.

(** A batch of one input with a long name, and the same input followed by
    a second one. *)
Definition nameField : Field.t :=
  Field.input "text" "applicant_first_name" "" "" "First name".

Definition shortBatch : list Field.t := [nameField].
Definition longBatch : list Field.t := [nameField; Samples.emailField].

(** Another page. *)
Definition otherContext : Context :=
  {| atsType := Some "lever"; url := Some "https://jobs.example/2"; company := None |}.

Definition shortCall : Outcome :=
  analyzeFields Samples.firstClock
    (RemoteSuccess (Some [{| fieldIndex := 1; purpose := Some "firstName";
                             confidence := Some (95 # 100);
                             reasoning := Some "name attribute" |}]))
    shortBatch Samples.context initial.

(** Two questions that agree on their first 24 characters. *)
Definition question1 : string := "Why are you interested in this position?".
Definition question2 : string := "Why are you interested in working remotely?".

Definition questionContext : Client.QuestionContext :=
  {| Client.position := Some "Engineer"; Client.company := Some "Example" |}.

(** The entry of [HEURISTIC_PATTERNS] for email. *)
Definition emailPatterns : Patterns :=
  {| names := ["email"; "email_address"; "email-address"; "emailaddress"; "mail"];
     ids := ["email"; "email_address"; "email-address"];
     placeholders := ["email"; "email address"; "your email"; "e-mail"];
     labels := ["email"; "email address"; "e-mail address"];
     types := ["email"; "text"] |}.

(** The module after 1499 requests of the day that began at [t0], the
    last of them committed at [t0 + 3000000]. *)
Definition almostSpent : Client.Store :=
  {| Client.base :=
       {| RATE_LIMIT := {| lastRequestTime := Samples.t0 + 3000000;
                           dailyUsage := 1499;
                           dailyResetTime := Samples.t0 |};
          fieldAnalysis := [] |};
     Client.questionAnalysis := [] |}.

Definition questionReply : option Parsed.t :=
  Some {| Parsed.category := Some "motivation";
          Parsed.questionType := Some "whyInterested";
          Parsed.keyPoints := Some ["the role"];
          Parsed.responseStructure := None;
          Parsed.advice := None;
          Parsed.suggestedLength := None;
          Parsed.confidence := Some (9 # 10) |}.

Definition questionCall : Client.QOutcome :=
  Client.analyzeQuestion None Samples.firstClock (Client.QSuccess questionReply)
    question1 questionContext Client.loaded.

End Cases.

(* ===================================================================== *)
(** ** Properties of the heuristic scorer and the pattern matcher *)
(* ===================================================================== *)

Import JsString FieldMapper.

Lemma Qgtb_lt (a b : Q) : Qgtb a b = true <-> (b < a)%Q.
Proof.
  unfold Qgtb. rewrite negb_true_iff. split.
  - intros H. apply Qnot_le_lt. intros Hle.
    apply Qle_bool_iff in Hle. congruence.
  - intros H. destruct (Qle_bool a b) eqn:E; [|reflexivity].
    apply Qle_bool_iff in E. exfalso. exact (Qlt_not_le _ _ H E).
Qed.

Lemma Qgtb_false (a b : Q) : Qgtb a b = false <-> ~ (b < a)%Q.
Proof.
  rewrite <- Qgtb_lt. destruct (Qgtb a b); split; intros; congruence.
Qed.

Lemma Math_min_le_r (a b : Q) : (Math_min a b <= b)%Q.
Proof.
  unfold Math_min. destruct (Qle_bool a b) eqn:E.
  - now apply Qle_bool_iff.
  - apply Qle_refl.
Qed.

Lemma Math_min_gt (t a b : Q) : (t < a)%Q -> (t < b)%Q -> (t < Math_min a b)%Q.
Proof. unfold Math_min. now destruct (Qle_bool a b). Qed.

Lemma ratio_nonneg (s m : nat) : (0 <= ratio s m)%Q.
Proof.
  unfold ratio. destruct (0 <? m)%nat; [|apply Qle_refl].
  unfold Qle. simpl. lia.
Qed.

(** The loop returns at the first qualifying purpose, or falls through. *)
Lemma heuristicsLoop_first (fieldText type : string) (table : list (string * Patterns)) :
  (exists pre p patterns post,
      table = (pre ++ (p, patterns) :: post)%list
      /\ Forall (fun e => ~ qualifies fieldText type e.2) pre
      /\ qualifies fieldText type patterns
      /\ heuristicsLoop fieldText type table
         = {| purpose := p;
              confidence := Math_min (confidenceOf fieldText type patterns) (8 # 10) |})
  \/ (Forall (fun e => ~ qualifies fieldText type e.2) table
      /\ heuristicsLoop fieldText type table = {| purpose := "unknown"; confidence := 0%Q |}).
Proof.
  induction table as [|[p patterns] rest IH]; simpl.
  - right. split; [constructor | reflexivity].
  - destruct (Qgtb (confidenceOf fieldText type patterns) (3 # 10)) eqn:E.
    + left. exists [], p, patterns, rest.
      apply Qgtb_lt in E. repeat split; [constructor | exact E].
    + apply Qgtb_false in E.
      destruct IH as [(pre & p' & pat' & post & -> & Hpre & Hq & Hres) | [Hall Hres]].
      * left. exists ((p, patterns) :: pre), p', pat', post.
        repeat split; [constructor; assumption | assumption | assumption].
      * right. split; [constructor; assumption | assumption].
Qed.

(** C2, as the code has it: a purpose qualifies exactly when its confidence
    (matched predicates over the purpose's predicate count) exceeds 0.3, and
    the scorer returns the first qualifying purpose of the table, whatever
    the confidence of the later ones, with that purpose's confidence capped
    at 0.8; when no purpose qualifies it returns "unknown" with confidence
    0. *)
Theorem C2_heuristics_first_qualifying (field : Field.t) :
  let fieldText := heuristicText field in
  let type := Field.type field in
  (forall p patterns, In (p, patterns) HEURISTIC_PATTERNS ->
     confidenceOf fieldText type patterns
     = Z.of_nat (score fieldText type patterns) # Pos.of_nat (maxScore patterns))
  /\ ((exists pre p patterns post,
         HEURISTIC_PATTERNS = (pre ++ (p, patterns) :: post)%list
         /\ Forall (fun e => ~ qualifies fieldText type e.2) pre
         /\ qualifies fieldText type patterns
         /\ mapFieldByHeuristics field
            = {| purpose := p;
                 confidence := Math_min (confidenceOf fieldText type patterns) (8 # 10) |})
      \/ (Forall (fun e => ~ qualifies fieldText type e.2) HEURISTIC_PATTERNS
          /\ mapFieldByHeuristics field = {| purpose := "unknown"; confidence := 0%Q |})).
Proof.
  intros fieldText type. split.
  - intros p patterns Hin. unfold confidenceOf, ratio.
    assert (Hall : forallb (fun e => (0 <? maxScore e.2)%nat) HEURISTIC_PATTERNS = true)
      by reflexivity.
    rewrite forallb_forall in Hall. specialize (Hall _ Hin). simpl in Hall.
    now rewrite Hall.
  - apply heuristicsLoop_first.
Qed.

(** C2, as stated, fails: for the input named company_name the purpose
    fullName qualifies with 4/13 and is returned, although currentCompany,
    later in the table, qualifies with the higher 4/12, which is what the
    specification's rule selects. *)
Lemma C2_counterexample :
  mapFieldByHeuristics Samples.companyField
  = {| purpose := "fullName"; confidence := 4 # 13 |}
  /\ Spec.scoreByHeuristics Samples.companyField
     = {| purpose := "currentCompany"; confidence := 4 # 12 |}
  /\ (4 # 13 < 4 # 12)%Q
  /\ mapFieldByHeuristics Samples.companyField
     <> Spec.scoreByHeuristics Samples.companyField.
Proof.
  split; [reflexivity|]. split; [reflexivity|]. split; [reflexivity|].
  intros H. vm_compute in H. discriminate H.
Qed.

(** C3: a field resolved by the heuristic scorer has a confidence above 0.3
    and at most 0.8. *)
Theorem C3_heuristic_confidence_range (field : Field.t) :
  purpose (mapFieldByHeuristics field) <> "unknown" ->
  (3 # 10 < confidence (mapFieldByHeuristics field))%Q
  /\ (confidence (mapFieldByHeuristics field) <= 8 # 10)%Q.
Proof.
  intros Hp. unfold mapFieldByHeuristics in *.
  destruct (heuristicsLoop_first (heuristicText field) (Field.type field) HEURISTIC_PATTERNS)
    as [(pre & p & patterns & post & _ & _ & Hq & Hres) | [_ Hres]];
    rewrite Hres in *; simpl in *.
  - split; [apply Math_min_gt; [exact Hq | reflexivity] | apply Math_min_le_r].
  - congruence.
Qed.

(** An instance: the input named company_name, resolved to fullName. *)
Lemma C3_witness :
  (3 # 10 < confidence (mapFieldByHeuristics Samples.companyField))%Q
  /\ (confidence (mapFieldByHeuristics Samples.companyField) <= 8 # 10)%Q.
Proof.
  apply (C3_heuristic_confidence_range Samples.companyField).
  vm_compute. discriminate.
Defined.

(** Some expression of a purpose matches the text. *)
Lemma firstPattern_first (text : string) (table : list (string * list RegExp.t)) :
  (exists pre p patterns post,
      table = (pre ++ (p, patterns) :: post)%list
      /\ Forall (fun e => existsb (fun r => RegExp.test r text) e.2 = false) pre
      /\ existsb (fun r => RegExp.test r text) patterns = true
      /\ firstPattern text table = p)
  \/ (Forall (fun e => existsb (fun r => RegExp.test r text) e.2 = false) table
      /\ firstPattern text table = "unknown").
Proof.
  induction table as [|[p patterns] rest IH]; simpl.
  - right. split; [constructor | reflexivity].
  - destruct (existsb (fun r => RegExp.test r text) patterns) eqn:E.
    + left. exists [], p, patterns, rest. repeat split; [constructor | exact E].
    + destruct IH as [(pre & p' & pat' & post & -> & Hpre & Hm & Hres) | [Hall Hres]].
      * left. exists ((p, patterns) :: pre), p', pat', post.
        repeat split; [constructor; assumption | assumption | assumption].
      * right. split; [constructor; assumption | assumption].
Qed.

(** C4, as stated, fails: the expressions are not applied to the name and
    the id.  A text area named "why are you interested" with no label and
    no placeholder is not matched, while the concatenation of name, id,
    placeholder and label is matched by the first expression. *)
Lemma C4_counterexample :
  mapFieldByQuestionPatterns Samples.namedQuestion = "unknown"
  /\ Spec.matchByPattern Samples.namedQuestion = "whyInterested".
Proof. split; reflexivity. Qed.

(** C4, as the code has it: the pattern matcher applies its ordered table
    to the lower-cased text made of the field's label, a space and its
    placeholder, and returns the first purpose one of whose expressions
    matches, "unknown" when there is none. *)
Theorem C4_pattern_matcher (field : Field.t) :
  let text := toLowerCase (Field.label field ++ " " ++ Field.placeholder field) in
  (exists pre p patterns post,
      QUESTION_PATTERNS = (pre ++ (p, patterns) :: post)%list
      /\ Forall (fun e => existsb (fun r => RegExp.test r text) e.2 = false) pre
      /\ existsb (fun r => RegExp.test r text) patterns = true
      /\ mapFieldByQuestionPatterns field = p)
  \/ (Forall (fun e => existsb (fun r => RegExp.test r text) e.2 = false) QUESTION_PATTERNS
      /\ mapFieldByQuestionPatterns field = "unknown").
Proof.
  intros text. apply firstPattern_first.
Qed.

(* ===================================================================== *)
(** ** Properties of [mapFields] *)
(* ===================================================================== *)

Lemma descriptor_inv (g f : Field.t) :
  Field.descriptor g = Field.descriptor f ->
  Field.element g = Field.element f /\ Field.type g = Field.type f
  /\ Field.name g = Field.name f /\ Field.id g = Field.id f
  /\ Field.placeholder g = Field.placeholder f /\ Field.label g = Field.label f.
Proof. unfold Field.descriptor. intros H. injection H as -> _ _ -> -> -> -> -> _ _ _. repeat split. Qed.

Lemma matchesSelector_descriptor (dom : Dom.t) (g f : Field.t) (selector : string) :
  Field.descriptor g = Field.descriptor f ->
  matchesSelector dom g selector = matchesSelector dom f selector.
Proof.
  intros H. apply descriptor_inv in H as (He & _ & Hn & Hi & _ & _).
  unfold matchesSelector, matchesSelectorFallback. now rewrite He, Hn, Hi.
Qed.

Lemma mapFieldByATS_descriptor (dom : Dom.t) (g f : Field.t) (atsType : string) :
  Field.descriptor g = Field.descriptor f ->
  mapFieldByATS dom g atsType = mapFieldByATS dom f atsType.
Proof.
  intros H. unfold mapFieldByATS.
  destruct (rulesOf ATS_FIELD_RULES atsType) as [atsRules|]; [|reflexivity].
  induction atsRules as [|[p selectors] rest IH]; simpl; [reflexivity|].
  rewrite IH.
  replace (existsb (matchesSelector dom g) selectors)
    with (existsb (matchesSelector dom f) selectors); [reflexivity|].
  induction selectors as [|x xs IHx]; simpl; [reflexivity|].
  now rewrite IHx, (matchesSelector_descriptor dom g f x H).
Qed.

(** The comparison of [mapFields] after the heuristic stage holds for
    every object [mapFieldByHeuristics] returns. *)
Lemma heuristic_comparison_always (o : HeuristicMapping) :
  strictNotEqual (JsObj o) "unknown" = true.
Proof. reflexivity. Qed.

Lemma mapField_stages (dom : Dom.t) (atsType : string) (field : Field.t) :
  (mapField dom atsType field).2
  = if strictNotEqual (JsStr (mapFieldByATS dom field atsType)) "unknown"
    then [RuleMatching] else [RuleMatching; HeuristicMatching].
Proof.
  unfold mapField.
  destruct (strictNotEqual (JsStr (mapFieldByATS dom field atsType)) "unknown");
    reflexivity.
Qed.

(** As a consequence [mapFields] never calls the pattern stage: a field
    the rules do not match ends with the method "heuristic", also when the
    scorer answers "unknown". *)
Lemma pattern_stage_never_called (dom : Dom.t) (atsType : string) (field : Field.t) :
  ~ In PatternMatching (mapField dom atsType field).2
  /\ (mapFieldByATS dom field atsType = "unknown" ->
      Field.mappingMethod (mapField dom atsType field).1 = Some "heuristic").
Proof.
  split.
  - rewrite mapField_stages.
    destruct (strictNotEqual _ _); simpl; intuition discriminate.
  - intros H. unfold mapField. rewrite H. reflexivity.
Qed.

Lemma mapField_stages_descriptor (dom : Dom.t) (atsType : string) (g f : Field.t) :
  Field.descriptor g = Field.descriptor f ->
  (mapField dom atsType g).2 = (mapField dom atsType f).2.
Proof.
  intros H. now rewrite !mapField_stages, (mapFieldByATS_descriptor dom g f atsType H).
Qed.

Lemma mapField_descriptor (dom : Dom.t) (atsType : string) (field : Field.t) :
  Field.descriptor (mapField dom atsType field).1 = Field.descriptor field.
Proof.
  unfold mapField.
  destruct (strictNotEqual (JsStr (mapFieldByATS dom field atsType)) "unknown");
    reflexivity.
Qed.

Lemma strictNotEqual_string (s t : string) :
  strictNotEqual (JsStr s) t = true <-> s <> t.
Proof.
  simpl. rewrite negb_true_iff. split.
  - intros E ->. now rewrite String.eqb_refl in E.
  - intros H. destruct (String.eqb s t) eqn:E; [|reflexivity].
    apply String.eqb_eq in E. contradiction.
Qed.

Lemma heuristic_confidence_bounds (field : Field.t) :
  (0 <= confidence (mapFieldByHeuristics field))%Q
  /\ (confidence (mapFieldByHeuristics field) <= 8 # 10)%Q.
Proof.
  unfold mapFieldByHeuristics.
  destruct (heuristicsLoop_first (heuristicText field) (Field.type field) HEURISTIC_PATTERNS)
    as [(pre & p & patterns & post & _ & _ & Hq & Hres) | [_ Hres]];
    rewrite Hres; simpl.
  - split; [|apply Math_min_le_r].
    apply Qlt_le_weak, Math_min_gt; [|reflexivity].
    apply Qlt_trans with (3 # 10); [reflexivity | exact Hq].
  - split; [apply Qle_refl | discriminate].
Qed.

Lemma mapField_wellMapped (dom : Dom.t) (atsType : string) (field : Field.t) :
  wellMapped (mapField dom atsType field).1.
Proof.
  unfold mapField, wellMapped, mappingMethods.
  destruct (strictNotEqual (JsStr (mapFieldByATS dom field atsType)) "unknown"); simpl.
  - split; [eauto|]. split; [exists "ats-specific"; simpl; auto|].
    exists (9 # 10). repeat split; discriminate.
  - destruct (heuristic_confidence_bounds field) as [H0 H8].
    split; [eauto|]. split; [exists "heuristic"; simpl; auto|].
    exists (confidence (mapFieldByHeuristics field)). repeat split; [exact H0|].
    apply Qle_trans with (8 # 10); [exact H8 | discriminate].
Qed.

Lemma scheduleLLMAnalysis_lookup (ls : list loc) (heap : gmap loc Field.t) (l : loc) :
  (l ∉ ls -> scheduleLLMAnalysis ls heap !! l = heap !! l)
  /\ (scheduleLLMAnalysis ls heap !! l = heap !! l
      \/ scheduleLLMAnalysis ls heap !! l
         = Field.set_needsManualReview true <$> heap !! l).
Proof.
  unfold scheduleLLMAnalysis. revert heap.
  induction ls as [|a ls IH]; intros heap; simpl.
  - split; auto.
  - destruct (IH (alter (Field.set_needsManualReview true) a heap)) as [IH1 IH2].
    destruct (decide (a = l)) as [->|Hne].
    + split; [intros Hn; exfalso; apply Hn; left|].
      right. destruct IH2 as [-> | ->]; rewrite lookup_alter_eq;
        destruct (heap !! l); reflexivity.
    + rewrite lookup_alter_ne in IH1, IH2 by exact Hne.
      split; [|exact IH2].
      intros Hn. apply IH1. intros Hin. apply Hn. now right.
Qed.

Section MapFieldsInvariant.
Variable dom : Dom.t.
Variable ats : string.
Variable heap0 : gmap loc Field.t.

(** [Q original current]: what the callback establishes for an object. *)
Variable Q : Field.t -> Field.t -> Prop.
Hypothesis Q_mapField :
  forall f0 g, Field.descriptor g = Field.descriptor f0 -> Q f0 (mapField dom ats g).1.

(** The state of [fields.map] after the references [visited]. *)
Let Inv (visited : list loc) (acc : gmap loc Field.t * list (loc * Stage)) : Prop :=
  (forall l, heap0 !! l = None -> acc.1 !! l = None)
  /\ (forall l f0, heap0 !! l = Some f0 ->
        exists f, acc.1 !! l = Some f
                  /\ Field.descriptor f = Field.descriptor f0
                  /\ (l ∈ visited -> Q f0 f)
                  /\ (l ∉ visited -> f = f0))
  /\ acc.2 = flat_map (stagesAt dom ats heap0) visited.

Lemma visit_inv (visited : list loc) (acc : gmap loc Field.t * list (loc * Stage)) (l : loc) :
  Inv visited acc -> Inv (visited ++ [l]) (visit dom ats acc l).
Proof.
  intros (Hnone & Hsome & Htrace). unfold visit, Inv.
  destruct (heap0 !! l) as [f0|] eqn:Hl.
  - destruct (Hsome l f0 Hl) as (f & Hf & Hd & _ & _). rewrite Hf.
    destruct (mapField dom ats f) as [f' stages] eqn:Hm. simpl.
    split; [|split].
    + intros l' Hl'. rewrite lookup_insert_ne; [now apply Hnone | congruence].
    + intros l' f0' Hl'. destruct (decide (l = l')) as [<-|Hne].
      * rewrite lookup_insert_eq. exists f'. split; [reflexivity|].
        assert (f0' = f0) as -> by congruence.
        replace f' with (mapField dom ats f).1 by now rewrite Hm.
        split; [now rewrite mapField_descriptor|].
        split; [intros _; now apply Q_mapField|].
        intros Hn. exfalso. apply Hn. apply elem_of_app. right. now left.
      * rewrite lookup_insert_ne by exact Hne.
        destruct (Hsome l' f0' Hl') as (g & Hg & Hgd & Hq & Hu).
        exists g. split; [exact Hg|]. split; [exact Hgd|]. split.
        -- intros Hin. apply Hq. apply elem_of_app in Hin as [Hin|Hin]; [exact Hin|].
           apply list_elem_of_singleton in Hin. congruence.
        -- intros Hn. apply Hu. intros Hin. apply Hn, elem_of_app. now left.
    + rewrite flat_map_app, Htrace. simpl. rewrite app_nil_r. f_equal.
      unfold stagesAt. rewrite Hl.
      replace stages with (mapField dom ats f).2 by now rewrite Hm.
      now rewrite (mapField_stages_descriptor dom ats f f0 Hd).
  - rewrite (Hnone l Hl). split; [exact Hnone|]. split.
    + intros l' f0' Hl'. destruct (Hsome l' f0' Hl') as (g & Hg & Hgd & Hq & Hu).
      exists g. split; [exact Hg|]. split; [exact Hgd|]. split.
      * intros Hin. apply Hq. apply elem_of_app in Hin as [Hin|Hin]; [exact Hin|].
        apply list_elem_of_singleton in Hin. congruence.
      * intros Hn. apply Hu. intros Hin. apply Hn, elem_of_app. now left.
    + rewrite flat_map_app, Htrace. simpl. unfold stagesAt at 3. rewrite Hl.
      now rewrite !app_nil_r.
Qed.

Lemma fold_visit_inv (fields visited : list loc)
    (acc : gmap loc Field.t * list (loc * Stage)) :
  Inv visited acc -> Inv (visited ++ fields) (fold_left (visit dom ats) fields acc).
Proof.
  revert visited acc. induction fields as [|l fields IH]; intros visited acc HI; simpl.
  - now rewrite app_nil_r.
  - replace (visited ++ l :: fields)%list with ((visited ++ [l]) ++ fields)%list
      by now rewrite <- app_assoc.
    apply IH, visit_inv, HI.
Qed.

(** [fields.map] from the heap [heap0]. *)
Lemma map_callback_inv (fields : list loc) :
  let mapped := fold_left (visit dom ats) fields (heap0, []) in
  (forall l, heap0 !! l = None -> mapped.1 !! l = None)
  /\ (forall l f0, heap0 !! l = Some f0 ->
        exists f, mapped.1 !! l = Some f
                  /\ Field.descriptor f = Field.descriptor f0
                  /\ (l ∈ fields -> Q f0 f)
                  /\ (l ∉ fields -> f = f0))
  /\ mapped.2 = flat_map (stagesAt dom ats heap0) fields.
Proof.
  apply (fold_visit_inv fields [] (heap0, [])).
  split; [auto|]. split; [|reflexivity].
  intros l f0 Hl. exists f0. split; [exact Hl|]. split; [reflexivity|].
  split; [|reflexivity].
  intros Hin. now apply not_elem_of_nil in Hin.
Qed.

End MapFieldsInvariant.

(** [mapFields] as a whole: the array returned, the stages called and the
    object each reference leads to afterwards. *)
Lemma mapFields_inv (dom : Dom.t) (fields : list loc) (atsType : option string)
    (heap : gmap loc Field.t) (Q : Field.t -> Field.t -> Prop) :
  (forall f0 g, Field.descriptor g = Field.descriptor f0 ->
     Q f0 (mapField dom (default "unknown" atsType) g).1) ->
  (forall f0 f, Q f0 f -> Q f0 (Field.set_needsManualReview true f)) ->
  (mapFields dom fields atsType heap).1.1 = fields
  /\ (mapFields dom fields atsType heap).2
     = flat_map (stagesAt dom (default "unknown" atsType) heap) fields
  /\ (forall l f0, heap !! l = Some f0 ->
        exists f, ((mapFields dom fields atsType heap).1.2) !! l = Some f
                  /\ Field.descriptor f = Field.descriptor f0
                  /\ (l ∈ fields -> Q f0 f)
                  /\ (l ∉ fields -> f = f0)).
Proof.
  intros HQ Hreview. unfold mapFields.
  destruct (map_callback_inv dom (default "unknown" atsType) heap Q HQ fields)
    as (_ & Hsome & Htrace).
  set (mapped := fold_left (visit dom (default "unknown" atsType)) fields (heap, [])) in *.
  simpl. split; [reflexivity|]. split; [exact Htrace|].
  intros l f0 Hl. destruct (Hsome l f0 Hl) as (f & Hf & Hd & Hq & Hu).
  destruct (0 <? length (List.filter (wantsLLM mapped.1) fields))%nat.
  - destruct (scheduleLLMAnalysis_lookup (List.filter (wantsLLM mapped.1) fields) mapped.1 l)
      as [Hout Hcases].
    destruct (decide (l ∈ fields)) as [Hin|Hn].
    + destruct Hcases as [Hsame | Hset].
      * exists f. rewrite Hsame. auto.
      * exists (Field.set_needsManualReview true f). rewrite Hset, Hf.
        split; [reflexivity|]. split; [exact Hd|]. split.
        -- intros _. apply Hreview, Hq, Hin.
        -- intros Hn. contradiction.
    + exists f. rewrite Hout, Hf; [auto|].
      intros Hin. apply Hn. apply list_elem_of_In in Hin.
      apply filter_In in Hin as [Hin _]. now apply list_elem_of_In.
  - exists f. auto.
Qed.

(** C1: when the rule stage matches a field of the batch, [mapFields]
    leaves it with the rule's purpose, the method "ats-specific" and the
    confidence 0.9, and calls neither the heuristic nor the pattern stage
    for it. *)
Theorem C1_rule_match_is_ats_specific (dom : Dom.t) (fields : list loc)
    (atsType : option string) (heap : gmap loc Field.t) (l : loc) (field : Field.t) :
  l ∈ fields ->
  heap !! l = Some field ->
  mapFieldByATS dom field (default "unknown" atsType) <> "unknown" ->
  (exists field',
      ((mapFields dom fields atsType heap).1.2) !! l = Some field'
      /\ Field.purpose field' = Some (mapFieldByATS dom field (default "unknown" atsType))
      /\ Field.mappingMethod field' = Some "ats-specific"
      /\ Field.confidence field' = Some (9 # 10))
  /\ (l, RuleMatching) ∈ (mapFields dom fields atsType heap).2
  /\ ((l, HeuristicMatching) ∉ (mapFields dom fields atsType heap).2)
  /\ (l, PatternMatching) ∉ (mapFields dom fields atsType heap).2.
Proof.
  intros Hin Hl Hats.
  set (ats := default "unknown" atsType) in *.
  pose (Q := fun f0 f : Field.t =>
          mapFieldByATS dom f0 ats <> "unknown" ->
          Field.purpose f = Some (mapFieldByATS dom f0 ats)
          /\ Field.mappingMethod f = Some "ats-specific"
          /\ Field.confidence f = Some (9 # 10)).
  destruct (mapFields_inv dom fields atsType heap Q) as (_ & Htrace & Hheap).
  { intros f0 g Hd Hne. fold ats. unfold mapField.
    rewrite (mapFieldByATS_descriptor dom g f0 ats Hd).
    apply strictNotEqual_string in Hne. rewrite Hne. simpl. auto. }
  { intros f0 f Hq Hne. exact (Hq Hne). }
  fold ats in Htrace.
  assert (Hstages : forall s, (l, s) ∈ (mapFields dom fields atsType heap).2 <-> s = RuleMatching).
  { intros s. rewrite Htrace, list_elem_of_In, in_flat_map. split.
    - intros (l' & _ & Hs). unfold stagesAt in Hs.
      destruct (heap !! l') as [f'|] eqn:Hl'; [|destruct Hs].
      apply in_map_iff in Hs as (s' & Heq & Hs'). injection Heq as -> ->.
      assert (f' = field) as -> by congruence.
      rewrite mapField_stages in Hs'. apply strictNotEqual_string in Hats.
      rewrite Hats in Hs'. destruct Hs' as [<- | []]. reflexivity.
    - intros ->. exists l. split; [now apply list_elem_of_In|].
      unfold stagesAt. rewrite Hl. apply in_map.
      rewrite mapField_stages. apply strictNotEqual_string in Hats.
      rewrite Hats. now left. }
  split.
  - destruct (Hheap l field Hl) as (f & Hf & _ & Hq & _).
    exists f. split; [exact Hf|]. exact (Hq Hin Hats).
  - split; [now apply Hstages|].
    split; intros Hs; apply Hstages in Hs; discriminate Hs.
Qed.

(** An instance: the e-mail input of a Greenhouse form, matched by the
    fallback on its name. *)
Lemma C1_witness :
  (exists field',
      ((mapFields Dom.absent [0%nat] (Some "greenhouse") Samples.emailHeap).1.2) !! 0%nat
      = Some field'
      /\ Field.purpose field'
         = Some (mapFieldByATS Dom.absent Samples.emailField "greenhouse")
      /\ Field.mappingMethod field' = Some "ats-specific"
      /\ Field.confidence field' = Some (9 # 10))
  /\ (0%nat, RuleMatching)
       ∈ (mapFields Dom.absent [0%nat] (Some "greenhouse") Samples.emailHeap).2
  /\ ((0%nat, HeuristicMatching)
       ∉ (mapFields Dom.absent [0%nat] (Some "greenhouse") Samples.emailHeap).2)
  /\ (0%nat, PatternMatching)
       ∉ (mapFields Dom.absent [0%nat] (Some "greenhouse") Samples.emailHeap).2.
Proof.
  apply (C1_rule_match_is_ats_specific Dom.absent [0%nat] (Some "greenhouse")
           Samples.emailHeap 0%nat Samples.emailField).
  - apply list_elem_of_here.
  - reflexivity.
  - vm_compute. discriminate.
Defined.

(** C10: [mapFields] returns the array of the very references it was
    given, in the same order; the object behind each of them keeps its
    descriptor and has afterwards a purpose, one of the four mapping
    methods and a confidence between 0 and 1; objects outside the array are
    untouched. *)
Theorem C10_mapFields_shape (dom : Dom.t) (fields : list loc)
    (atsType : option string) (heap : gmap loc Field.t) :
  (mapFields dom fields atsType heap).1.1 = fields
  /\ (forall l f0, heap !! l = Some f0 ->
        exists f, ((mapFields dom fields atsType heap).1.2) !! l = Some f
                  /\ Field.descriptor f = Field.descriptor f0
                  /\ (l ∈ fields -> wellMapped f)
                  /\ (l ∉ fields -> f = f0)).
Proof.
  destruct (mapFields_inv dom fields atsType heap (fun _ f => wellMapped f))
    as (Hout & _ & Hheap).
  - intros f0 g _. apply mapField_wellMapped.
  - intros _ f H. exact H.
  - split; assumption.
Qed.

(* ===================================================================== *)
(** ** Properties of the rate limiter *)
(* ===================================================================== *)

Import GeminiClient.

Lemma canMakeRequest_no_reset (now : Z) (rl : RateLimit) :
  now - dailyResetTime rl <= 24 * 60 * 60 * 1000 ->
  (canMakeRequest now rl).2 = rl.
Proof.
  intros H. unfold canMakeRequest.
  destruct (24 * 60 * 60 * 1000 <? now - dailyResetTime rl) eqn:E; [apply Z.ltb_lt in E; lia|].
  now destruct (requestsPerDay <=? dailyUsage rl).
Qed.

(** Within one daily window the counter counts the commits. *)
Lemma run_within_window (events : list Event) (rl : RateLimit) :
  Forall (fun e => eventTime e - dailyResetTime rl <= 24 * 60 * 60 * 1000) events ->
  dailyResetTime (run events rl) = dailyResetTime rl
  /\ dailyUsage (run events rl)
     = dailyUsage rl + Z.of_nat (length (List.filter isCommit events)).
Proof.
  unfold run. revert rl. induction events as [|e events IH]; intros rl Hall; simpl.
  - split; [reflexivity | lia].
  - inversion Hall as [|? ? He Hrest]; subst.
    destruct e as [now|now]; simpl in *.
    + rewrite (canMakeRequest_no_reset now rl He). now apply IH.
    + destruct (IH (updateRateLimit now rl)) as [Hr Hu]; [exact Hrest|].
      rewrite Hr, Hu. simpl. split; [reflexivity | lia].
Qed.

(** C8: when the commits of one daily window number [requestsPerDay], the
    next admission attempt in that window is denied; and at the first
    attempt made more than 24 hours after the window started the counter is
    reset, the window restarts, and the answer is given by the interval
    since the last request alone. *)
Theorem C8_daily_limit_and_reset (rl : RateLimit) (events : list Event) (now : Z) :
  dailyUsage rl = 0 ->
  Forall (fun e => eventTime e - dailyResetTime rl <= 24 * 60 * 60 * 1000) events ->
  now - dailyResetTime rl <= 24 * 60 * 60 * 1000 ->
  length (List.filter isCommit events) = Z.to_nat requestsPerDay ->
  (canMakeRequest now (run events rl)).1 = false
  /\ (forall later,
        24 * 60 * 60 * 1000 < later - dailyResetTime (run events rl) ->
        canMakeRequest later (run events rl)
        = (1000 <=? later - lastRequestTime (run events rl),
           {| lastRequestTime := lastRequestTime (run events rl);
              dailyUsage := 0;
              dailyResetTime := later |})).
Proof.
  intros Hzero Hall Hnow Hcount.
  destruct (run_within_window events rl Hall) as [Hreset Husage].
  rewrite Hzero, Hcount in Husage. split.
  - unfold canMakeRequest. rewrite Hreset.
    destruct (24 * 60 * 60 * 1000 <? now - dailyResetTime rl) eqn:E;
      [apply Z.ltb_lt in E; lia|].
    rewrite Husage. reflexivity.
  - intros later Hlater. unfold canMakeRequest.
    apply Z.ltb_lt in Hlater. rewrite Hlater. reflexivity.
Qed.

(** An instance: 1500 committed admissions within 50 minutes. *)
Lemma C8_witness :
  (canMakeRequest 4000000 (run Samples.fullDay Samples.windowStart)).1 = false
  /\ (forall later,
        24 * 60 * 60 * 1000
        < later - dailyResetTime (run Samples.fullDay Samples.windowStart) ->
        canMakeRequest later (run Samples.fullDay Samples.windowStart)
        = (1000 <=? later - lastRequestTime (run Samples.fullDay Samples.windowStart),
           {| lastRequestTime := lastRequestTime (run Samples.fullDay Samples.windowStart);
              dailyUsage := 0;
              dailyResetTime := later |})).
Proof.
  apply (C8_daily_limit_and_reset Samples.windowStart Samples.fullDay 4000000).
  - reflexivity.
  - apply Forall_forall. intros e He. apply list_elem_of_In in He.
    apply Z.leb_le.
    revert e He. apply forallb_forall. vm_compute. reflexivity.
  - vm_compute. discriminate.
  - vm_compute. reflexivity.
Defined.

(* ===================================================================== *)
(** ** Properties of [analyzeFields] *)
(* ===================================================================== *)

(** C7: an entry older than the lifetime is a miss for the lookup of
    [analyzeFields] although the map still holds it: with admission
    granted, the call goes on to the remote request. *)
Theorem C7_expired_entry_is_a_miss (clock : Clock) (remote : Remote)
    (fields : list Field.t) (context : Context) (st : State) (e : CacheEntry) :
  (canMakeRequest (atAdmission clock) (RATE_LIMIT st)).1 = true ->
  JsMap.get (generateFieldCacheKey fields context) (fieldAnalysis st) = Some e ->
  ttl < atLookup clock - timestamp e ->
  isCacheExpired (atLookup clock) e = true
  /\ lookup (generateFieldCacheKey fields context) (atLookup clock) (fieldAnalysis st) = None
  /\ requests (analyzeFields clock remote fields context st) = 1%nat.
Proof.
  intros Hgrant Hget Hold.
  assert (Hexp : isCacheExpired (atLookup clock) e = true)
    by (unfold isCacheExpired; now apply Z.ltb_lt).
  assert (Hmiss : lookup (generateFieldCacheKey fields context) (atLookup clock)
                    (fieldAnalysis st) = None)
    by (unfold lookup; now rewrite Hget, Hexp).
  split; [exact Hexp|]. split; [exact Hmiss|].
  unfold analyzeFields.
  destruct (canMakeRequest (atAdmission clock) (RATE_LIMIT st)) as [granted rl].
  simpl in Hgrant. subst granted. simpl. rewrite Hmiss.
  now destruct remote.
Qed.

(** An instance: an entry stored [ttl + 1] milliseconds before the call. *)
Lemma C7_witness :
  isCacheExpired Samples.t0
    {| data := [Samples.companyField]; timestamp := Samples.t0 - ttl - 1 |} = true
  /\ lookup (generateFieldCacheKey [Samples.companyField] Samples.context) Samples.t0
       (fieldAnalysis Samples.staleState) = None
  /\ requests (analyzeFields (Samples.clockAfter 0) RemoteFailure
                 [Samples.companyField] Samples.context Samples.staleState) = 1%nat.
Proof.
  apply (C7_expired_entry_is_a_miss (Samples.clockAfter 0) RemoteFailure
           [Samples.companyField] Samples.context Samples.staleState
           {| data := [Samples.companyField]; timestamp := Samples.t0 - ttl - 1 |}).
  - vm_compute. reflexivity.
  - vm_compute. reflexivity.
  - vm_compute. reflexivity.
Defined.

(** C9, as stated, fails: a field that already carries a mapping method
    keeps it (here "heuristic", as [mapFields] leaves a field it could not
    resolve), and the attribute llmReasoning is written. *)
Lemma C9_counterexample :
  (canMakeRequest (Samples.t0 + 900) (RATE_LIMIT (state Samples.firstCall))).1 = false
  /\ List.map Field.mappingMethod
       (result (analyzeFields (Samples.clockAfter 900) RemoteFailure
                  [Samples.mappedQuestion] Samples.context (state Samples.firstCall)))
     = [Some "heuristic"]
  /\ List.map Field.llmReasoning
       (result (analyzeFields (Samples.clockAfter 900) RemoteFailure
                  [Samples.mappedQuestion] Samples.context (state Samples.firstCall)))
     = [Some unavailable]
  /\ Field.llmReasoning Samples.mappedQuestion = None.
Proof. repeat split. Qed.

Lemma Math_max_ge_r (a b : Q) : (b <= Math_max a b)%Q.
Proof.
  unfold Math_max. destruct (Qle_bool a b) eqn:E; [apply Qle_refl|].
  destruct (Qlt_le_dec b a) as [H|H]; [now apply Qlt_le_weak|].
  apply Qle_bool_iff in H. congruence.
Qed.

Lemma Math_max_ge_l (a b : Q) : (b <= a)%Q -> (Math_max a b == a)%Q.
Proof.
  intros H. unfold Math_max. destruct (Qle_bool a b) eqn:E; [|reflexivity].
  apply Qle_bool_iff in E. now apply Qle_antisym.
Qed.

Lemma Math_max_le (a b : Q) : (a <= b)%Q -> (Math_max a b == b)%Q.
Proof.
  intros H. unfold Math_max. apply Qle_bool_iff in H. now rewrite H.
Qed.

Lemma orZero_eq (c : Q) : (orZero (Some c) == c)%Q.
Proof.
  simpl. destruct (Qeq_bool c 0) eqn:E; [|reflexivity].
  apply Qeq_bool_iff in E. now symmetry.
Qed.

(** C9, as the code has it: when admission is denied, [analyzeFields]
    makes no request, leaves the cache alone and returns one field for each
    field of the batch, in order, equal to it in every attribute but three:
    the mapping method is the one the field had, "fallback" when it had
    none; the confidence is the field's own when that was 0.3 or more, and
    0.3 when it was less or absent; llmReasoning is the fixed notice. *)
Theorem C9_denied_admission_falls_back (clock : Clock) (remote : Remote)
    (fields : list Field.t) (context : Context) (st : State) :
  (canMakeRequest (atAdmission clock) (RATE_LIMIT st)).1 = false ->
  requests (analyzeFields clock remote fields context st) = 0%nat
  /\ fieldAnalysis (state (analyzeFields clock remote fields context st)) = fieldAnalysis st
  /\ length (result (analyzeFields clock remote fields context st)) = length fields
  /\ (forall (i : nat) (field : Field.t),
        fields !! i = Some field ->
        exists field' c',
          result (analyzeFields clock remote fields context st) !! i = Some field'
          /\ Field.descriptor field' = Field.descriptor field
          /\ Field.purpose field' = Field.purpose field
          /\ Field.needsLLMAnalysis field' = Field.needsLLMAnalysis field
          /\ Field.needsManualReview field' = Field.needsManualReview field
          /\ Field.mappingMethod field' = Some (orFallback (Field.mappingMethod field))
          /\ (Field.mappingMethod field = None -> Field.mappingMethod field' = Some "fallback")
          /\ Field.confidence field' = Some c'
          /\ (3 # 10 <= c')%Q
          /\ (forall c, Field.confidence field = Some c -> (3 # 10 <= c)%Q -> (c' == c)%Q)
          /\ (forall c, Field.confidence field = Some c -> (c < 3 # 10)%Q ->
                (c' == 3 # 10)%Q)
          /\ (Field.confidence field = None -> (c' == 3 # 10)%Q)
          /\ Field.llmReasoning field' = Some unavailable).
Proof.
  intros Hdenied. unfold analyzeFields.
  destruct (canMakeRequest (atAdmission clock) (RATE_LIMIT st)) as [granted rl].
  simpl in Hdenied. subst granted. simpl.
  split; [reflexivity|]. split; [reflexivity|].
  unfold fallbackFieldAnalysis. split; [apply length_map|].
  intros i field Hi.
  exists (fallbackField field), (Math_max (orZero (Field.confidence field)) (3 # 10)).
  split; [now rewrite list_lookup_fmap, Hi|].
  do 5 (split; [reflexivity|]).
  split; [intros Hm; cbn; now rewrite Hm|].
  split; [reflexivity|].
  split; [apply Math_max_ge_r|].
  split.
  { intros c Hc Hle. rewrite Hc.
    rewrite Math_max_ge_l; rewrite orZero_eq; [reflexivity | exact Hle]. }
  split.
  { intros c Hc Hlt. rewrite Hc.
    rewrite Math_max_le; [reflexivity|]. rewrite orZero_eq. now apply Qlt_le_weak. }
  split; [|reflexivity].
  intros Hc. rewrite Hc. reflexivity.
Qed.

(** An instance: a second call 500 ms after the commit of the first. *)
Lemma C9_witness :
  requests (analyzeFields (Samples.clockAfter 900) RemoteFailure
              [Samples.companyField] Samples.context (state Samples.firstCall)) = 0%nat
  /\ length (result (analyzeFields (Samples.clockAfter 900) RemoteFailure
                       [Samples.companyField] Samples.context (state Samples.firstCall)))
     = 1%nat
  /\ (exists field',
        result (analyzeFields (Samples.clockAfter 900) RemoteFailure
                  [Samples.companyField] Samples.context (state Samples.firstCall)) !! 0%nat
        = Some field'
        /\ Field.descriptor field' = Field.descriptor Samples.companyField
        /\ Field.mappingMethod field' = Some "fallback"
        /\ (exists c', Field.confidence field' = Some c' /\ (c' == 3 # 10)%Q)
        /\ Field.llmReasoning field' = Some unavailable).
Proof.
  pose proof (C9_denied_admission_falls_back (Samples.clockAfter 900) RemoteFailure
                [Samples.companyField] Samples.context (state Samples.firstCall)) as H.
  destruct H as (H1 & _ & H3 & H4).
  - vm_compute. reflexivity.
  - split; [exact H1|]. split; [exact H3|].
    destruct (H4 0%nat Samples.companyField eq_refl)
      as (field' & c' & Hf & Hd & _ & _ & _ & _ & Hm & Hc & _ & _ & _ & Hnone & Hr).
    exists field'. split; [exact Hf|]. split; [exact Hd|].
    split; [apply Hm; reflexivity|].
    split; [|exact Hr].
    exists c'. split; [exact Hc | apply Hnone; reflexivity].
Defined.

Lemma get_set_eq {V} (key : string) (v : V) (m : list (string * V)) :
  JsMap.get key (JsMap.set key v m) = Some v.
Proof.
  induction m as [|[k w] rest IH]; simpl.
  - now rewrite String.eqb_refl.
  - destruct (String.eqb k key) eqn:E; simpl; now rewrite E.
Qed.

Lemma get_delete {V} (key key' : string) (m : list (string * V)) :
  JsMap.get key (JsMap.delete key' m)
  = if String.eqb key' key then None else JsMap.get key m.
Proof.
  unfold JsMap.delete. induction m as [|[k w] rest IH]; simpl.
  - now destruct (String.eqb key' key).
  - destruct (String.eqb k key') eqn:E; simpl.
    + apply String.eqb_eq in E. subst k. rewrite IH.
      now destruct (String.eqb key' key).
    + destruct (String.eqb k key) eqn:E'; [|exact IH].
      apply String.eqb_eq in E'. subst k.
      rewrite String.eqb_sym in E. now rewrite E.
Qed.

Lemma get_deletes {V} (key : string) (toRemove m : list (string * V)) (v : V) :
  JsMap.get key (fold_left (fun c e => JsMap.delete e.1 c) toRemove m) = Some v ->
  JsMap.get key m = Some v.
Proof.
  revert m. induction toRemove as [|r toRemove IH]; intros m; simpl; [auto|].
  intros H. apply IH in H. rewrite get_delete in H.
  now destruct (String.eqb r.1 key).
Qed.

(** What the cache holds for a key after a write is what was written. *)
Lemma get_put (key : string) (analysis : list Field.t) (now : Z)
    (cache : list (string * CacheEntry)) (e : CacheEntry) :
  JsMap.get key (put key analysis now cache) = Some e ->
  e = {| data := analysis; timestamp := now |}.
Proof.
  unfold put, cleanupCache. intros H.
  destruct (maxSize <? _)%nat.
  - apply get_deletes in H. rewrite get_set_eq in H. congruence.
  - rewrite get_set_eq in H. congruence.
Qed.

(** C5, as stated, fails: the rate limiter is asked before the cache.  A
    second call 900 ms after the first, with the entry of the first in the
    cache and fresh, is denied and returns the fallback fields, not the
    result of the first call. *)
Lemma C5_counterexample :
  requests Samples.firstCall = 1%nat
  /\ lookup (generateFieldCacheKey [Samples.companyField] Samples.context)
       (atLookup (Samples.clockAfter 900)) (fieldAnalysis (state Samples.firstCall))
     = Some (result Samples.firstCall)
  /\ requests (analyzeFields (Samples.clockAfter 900) (RemoteSuccess None)
                 [Samples.companyField] Samples.context (state Samples.firstCall)) = 0%nat
  /\ result (analyzeFields (Samples.clockAfter 900) (RemoteSuccess None)
               [Samples.companyField] Samples.context (state Samples.firstCall))
     <> result Samples.firstCall.
Proof.
  split; [reflexivity|]. split; [reflexivity|]. split; [reflexivity|].
  intros H. vm_compute in H. discriminate H.
Qed.

(** C5, as the code has it: after a first call that was answered by the
    provider, a second call with the same batch and context, made while the
    entry is in the cache and not expired, issues no request; it returns
    the result of the first call when the rate limiter admits it, and the
    fallback fields when the rate limiter denies it. *)
Theorem C5_second_call_with_warm_cache (clock1 clock2 : Clock)
    (parsed : option (list Analysis)) (remote2 : Remote)
    (fields : list Field.t) (context : Context) (st : State) (e : CacheEntry) :
  requests (analyzeFields clock1 (RemoteSuccess parsed) fields context st) = 1%nat ->
  JsMap.get (generateFieldCacheKey fields context)
    (fieldAnalysis (state (analyzeFields clock1 (RemoteSuccess parsed) fields context st)))
  = Some e ->
  isCacheExpired (atLookup clock2) e = false ->
  requests (analyzeFields clock2 remote2 fields context
              (state (analyzeFields clock1 (RemoteSuccess parsed) fields context st)))
  = 0%nat
  /\ ((canMakeRequest (atAdmission clock2)
         (RATE_LIMIT (state (analyzeFields clock1 (RemoteSuccess parsed) fields context st)))).1
      = true ->
      result (analyzeFields clock2 remote2 fields context
                (state (analyzeFields clock1 (RemoteSuccess parsed) fields context st)))
      = result (analyzeFields clock1 (RemoteSuccess parsed) fields context st))
  /\ ((canMakeRequest (atAdmission clock2)
         (RATE_LIMIT (state (analyzeFields clock1 (RemoteSuccess parsed) fields context st)))).1
      = false ->
      result (analyzeFields clock2 remote2 fields context
                (state (analyzeFields clock1 (RemoteSuccess parsed) fields context st)))
      = fallbackFieldAnalysis fields).
Proof.
  intros Hreq Hget Hfresh.
  set (o1 := analyzeFields clock1 (RemoteSuccess parsed) fields context st) in *.
  assert (Hdata : data e = result o1).
  { subst o1. unfold analyzeFields in *.
    destruct (canMakeRequest (atAdmission clock1) (RATE_LIMIT st)) as [granted rl].
    destruct granted; simpl in *; [|discriminate].
    destruct (lookup _ _ _); simpl in *; [discriminate|].
    apply get_put in Hget. now subst e. }
  assert (Hhit : lookup (generateFieldCacheKey fields context) (atLookup clock2)
                   (fieldAnalysis (state o1)) = Some (result o1)).
  { unfold lookup. now rewrite Hget, Hfresh, Hdata. }
  unfold analyzeFields.
  destruct (canMakeRequest (atAdmission clock2) (RATE_LIMIT (state o1))) as [granted rl].
  destruct granted; simpl; rewrite ?Hhit; simpl.
  - split; [reflexivity|]. split; [reflexivity | discriminate].
  - split; [reflexivity|]. split; [discriminate | reflexivity].
Qed.

(** An instance: a second call two seconds after the first. *)
Lemma C5_witness :
  requests (analyzeFields (Samples.clockAfter 2000) RemoteFailure
              [Samples.companyField] Samples.context (state Samples.firstCall)) = 0%nat
  /\ result (analyzeFields (Samples.clockAfter 2000) RemoteFailure
               [Samples.companyField] Samples.context (state Samples.firstCall))
     = result Samples.firstCall.
Proof.
  pose proof (C5_second_call_with_warm_cache Samples.firstClock (Samples.clockAfter 2000)
                None RemoteFailure [Samples.companyField] Samples.context initial
                {| data := [Samples.companyField]; timestamp := Samples.t0 + 401 |}) as H.
  destruct H as (H1 & H2 & _).
  - vm_compute. reflexivity.
  - vm_compute. reflexivity.
  - vm_compute. reflexivity.
  - split; [exact H1|]. apply H2. vm_compute. reflexivity.
Defined.

(* ===================================================================== *)
(** ** Properties of the cache *)
(* ===================================================================== *)

(** *** The sort *)

Lemma insertByTimestamp_perm (x : string * CacheEntry) (l : list (string * CacheEntry)) :
  Permutation (insertByTimestamp x l) (x :: l).
Proof.
  induction l as [|y rest IH]; simpl; [reflexivity|].
  destruct (timestamp x.2 <=? timestamp y.2); [reflexivity|].
  rewrite IH. apply perm_swap.
Qed.

Lemma sortByTimestamp_perm (l : list (string * CacheEntry)) :
  Permutation (sortByTimestamp l) l.
Proof.
  induction l as [|x rest IH]; simpl; [reflexivity|].
  rewrite insertByTimestamp_perm. now apply perm_skip.
Qed.

Lemma insertByTimestamp_sorted (x : string * CacheEntry) (l : list (string * CacheEntry)) :
  Sorted (fun a b => timestamp a.2 <= timestamp b.2) l ->
  Sorted (fun a b => timestamp a.2 <= timestamp b.2) (insertByTimestamp x l).
Proof.
  induction l as [|y rest IH]; intros Hs; simpl.
  - repeat constructor.
  - destruct (timestamp x.2 <=? timestamp y.2) eqn:E.
    + apply Z.leb_le in E. constructor; [exact Hs | now constructor].
    + apply Z.leb_gt in E. inversion Hs as [|? ? Hrest Hhd]; subst.
      constructor; [now apply IH|].
      destruct rest as [|z rest']; simpl.
      * constructor. lia.
      * destruct (timestamp x.2 <=? timestamp z.2); constructor; [lia|].
        now inversion Hhd.
Qed.

Lemma sortByTimestamp_sorted (l : list (string * CacheEntry)) :
  StronglySorted (fun a b => timestamp a.2 <= timestamp b.2) (sortByTimestamp l).
Proof.
  apply Sorted_StronglySorted.
  - intros a b c Hab Hbc. lia.
  - induction l as [|x rest IH]; simpl; [constructor|].
    now apply insertByTimestamp_sorted.
Qed.

(** In a sorted list, what comes first is not younger than what follows. *)
Lemma sorted_firstn_skipn (n : nat) (l : list (string * CacheEntry)) (a b : string * CacheEntry) :
  StronglySorted (fun a b => timestamp a.2 <= timestamp b.2) l ->
  In a (firstn n l) -> In b (skipn n l) -> timestamp a.2 <= timestamp b.2.
Proof.
  intros Hs. revert n. induction Hs as [|x l Hs IH Hall]; intros n Ha Hb.
  - rewrite firstn_nil in Ha. destruct Ha.
  - destruct n as [|n]; simpl in *; [destruct Ha|].
    destruct Ha as [<-|Ha]; [|now apply (IH n)].
    rewrite Forall_forall in Hall. apply Hall.
    apply list_elem_of_In. rewrite <- (firstn_skipn n l). apply in_or_app. now right.
Qed.

(** *** Deleting the entries of a list of keys *)

Lemma filter_filter {A} (f g : A -> bool) (l : list A) :
  List.filter f (List.filter g l) = List.filter (fun x => g x && f x) l.
Proof.
  induction l as [|x l IH]; simpl; [reflexivity|].
  destruct (g x); simpl; [destruct (f x)|]; now rewrite IH.
Qed.

Lemma deletes_filter (toRemove m : list (string * CacheEntry)) :
  fold_left (fun c e => JsMap.delete e.1 c) toRemove m
  = List.filter (keptAfter toRemove) m.
Proof.
  revert m. induction toRemove as [|r toRemove IH]; intros m; simpl.
  - unfold keptAfter. simpl. induction m as [|x m IHm]; simpl; [reflexivity|].
    now rewrite <- IHm.
  - rewrite IH. unfold JsMap.delete. rewrite filter_filter.
    apply filter_ext. intros e. unfold keptAfter. simpl.
    rewrite negb_orb. now rewrite (String.eqb_sym e.1 r.1).
Qed.

Lemma filter_perm {A} (f : A -> bool) (l l' : list A) :
  Permutation l l' -> Permutation (List.filter f l) (List.filter f l').
Proof.
  induction 1 as [|x l l' _ IH|x y l|l l' l'' _ IH1 _ IH2]; simpl.
  - reflexivity.
  - destruct (f x); [now apply perm_skip | exact IH].
  - destruct (f x), (f y); try reflexivity. apply perm_swap.
  - now rewrite IH1.
Qed.

Lemma filter_all {A} (f : A -> bool) (l : list A) :
  (forall x, In x l -> f x = true) -> List.filter f l = l.
Proof.
  induction l as [|x l IH]; intros H; simpl; [reflexivity|].
  rewrite (H x (or_introl eq_refl)). f_equal. apply IH.
  intros y Hy. apply H. now right.
Qed.

Lemma filter_none {A} (f : A -> bool) (l : list A) :
  (forall x, In x l -> f x = false) -> List.filter f l = [].
Proof.
  induction l as [|x l IH]; intros H; simpl; [reflexivity|].
  rewrite (H x (or_introl eq_refl)). apply IH.
  intros y Hy. apply H. now right.
Qed.

Lemma keptAfter_false (toRemove : list (string * CacheEntry)) (e : string * CacheEntry) :
  keptAfter toRemove e = false <-> In e.1 (List.map fst toRemove).
Proof.
  unfold keptAfter. rewrite negb_false_iff, existsb_exists. split.
  - intros (k & Hin & Heq). apply String.eqb_eq in Heq. now subst k.
  - intros Hin. exists e.1. split; [exact Hin | apply String.eqb_refl].
Qed.

Lemma NoDup_keys_filter (f : string * CacheEntry -> bool) (m : list (string * CacheEntry)) :
  NoDup (List.map fst m) -> NoDup (List.map fst (List.filter f m)).
Proof.
  induction m as [|x m IH]; simpl; [auto|].
  intros Hnd. apply NoDup_cons in Hnd as [Hx Hnd].
  destruct (f x); simpl; [|now apply IH].
  apply NoDup_cons. split; [|now apply IH].
  intros Hin. apply Hx. apply list_elem_of_In in Hin.
  apply in_map_iff in Hin as (y & Hy & Hin).
  apply filter_In in Hin as [Hin _]. apply list_elem_of_In, in_map_iff. now exists y.
Qed.

(** *** [cleanupCache] *)

Lemma cleanupCache_small (m : list (string * CacheEntry)) :
  (length m <= maxSize)%nat -> cleanupCache m = m.
Proof.
  intros H. unfold cleanupCache, JsMap.size.
  destruct (maxSize <? length m)%nat eqn:E; [|reflexivity].
  apply Nat.ltb_lt in E. lia.
Qed.

(** Over capacity, what remains is the sorted list without its first
    entries. *)
Lemma cleanupCache_perm (m : list (string * CacheEntry)) :
  NoDup (List.map fst m) ->
  (maxSize < length m)%nat ->
  Permutation (cleanupCache m) (skipn (length m - maxSize) (sortByTimestamp m)).
Proof.
  intros Hnd Hover. unfold cleanupCache, JsMap.size.
  apply Nat.ltb_lt in Hover. rewrite Hover. rewrite deletes_filter.
  set (d := (length m - maxSize)%nat).
  set (s := sortByTimestamp m).
  set (P := keptAfter (firstn d s)).
  transitivity (List.filter P s).
  { apply filter_perm. symmetry. apply sortByTimestamp_perm. }
  assert (Hs : NoDup (List.map fst (firstn d s) ++ List.map fst (skipn d s))).
  { rewrite <- map_app, firstn_skipn.
    assert (Hp : Permutation (List.map fst (sortByTimestamp m)) (List.map fst m))
      by apply Permutation_map, sortByTimestamp_perm.
    fold s in Hp. now rewrite Hp. }
  rewrite <- (firstn_skipn d s) at 1. rewrite List.filter_app.
  rewrite filter_none, filter_all; [reflexivity | |].
  - intros x Hx. destruct (P x) eqn:E; [reflexivity|]. exfalso.
    apply keptAfter_false in E.
    apply NoDup_app in Hs as (_ & Hdisj & _).
    apply (Hdisj x.1); [now apply list_elem_of_In|].
    apply list_elem_of_In, in_map_iff. now exists x.
  - intros x Hx. apply keptAfter_false, in_map_iff. now exists x.
Qed.

Lemma cleanupCache_bound (m : list (string * CacheEntry)) :
  NoDup (List.map fst m) ->
  NoDup (List.map fst (cleanupCache m)) /\ (length (cleanupCache m) <= maxSize)%nat.
Proof.
  intros Hnd. destruct (le_lt_dec (length m) maxSize) as [Hle|Hgt].
  - rewrite cleanupCache_small by exact Hle. auto.
  - split.
    + unfold cleanupCache. destruct (maxSize <? JsMap.size m)%nat; [|exact Hnd].
      rewrite deletes_filter. now apply NoDup_keys_filter.
    + rewrite (Permutation_length (cleanupCache_perm m Hnd Hgt)).
      rewrite length_skipn, (Permutation_length (sortByTimestamp_perm m)). lia.
Qed.

(** *** [Map.set] *)

Lemma set_keys {V} (key : string) (v : V) (m : list (string * V)) :
  List.map fst (JsMap.set key v m)
  = if existsb (String.eqb key) (List.map fst m) then List.map fst m
    else (List.map fst m ++ [key])%list.
Proof.
  induction m as [|[k w] rest IH]; simpl; [reflexivity|].
  rewrite (String.eqb_sym key k).
  destruct (String.eqb k key) eqn:E; simpl; [reflexivity|].
  rewrite IH. now destruct (existsb (String.eqb key) (List.map fst rest)).
Qed.

Lemma set_fresh {V} (key : string) (v : V) (m : list (string * V)) :
  ~ In key (List.map fst m) -> JsMap.set key v m = (m ++ [(key, v)])%list.
Proof.
  induction m as [|[k w] rest IH]; simpl; intros Hn; [reflexivity|].
  destruct (String.eqb k key) eqn:E.
  - apply String.eqb_eq in E. exfalso. apply Hn. now left.
  - f_equal. apply IH. intros Hin. apply Hn. now right.
Qed.

Lemma set_NoDup {V} (key : string) (v : V) (m : list (string * V)) :
  NoDup (List.map fst m) -> NoDup (List.map fst (JsMap.set key v m)).
Proof.
  intros Hnd. rewrite set_keys.
  destruct (existsb (String.eqb key) (List.map fst m)) eqn:E; [exact Hnd|].
  apply NoDup_app. split; [exact Hnd|]. split.
  - intros k Hk Hin. apply list_elem_of_singleton in Hin. subst k.
    assert (existsb (String.eqb key) (List.map fst m) = true); [|congruence].
    apply existsb_exists. exists key. split; [now apply list_elem_of_In|].
    apply String.eqb_refl.
  - apply NoDup_singleton.
Qed.

(** Every write leaves the cache within its capacity. *)
Lemma put_bound (key : string) (analysis : list Field.t) (now : Z)
    (cache : list (string * CacheEntry)) :
  NoDup (List.map fst cache) ->
  NoDup (List.map fst (put key analysis now cache))
  /\ (JsMap.size (put key analysis now cache) <= maxSize)%nat.
Proof.
  intros Hnd. unfold put, JsMap.size. apply cleanupCache_bound, set_NoDup, Hnd.
Qed.

Lemma runPuts_bound (puts : list Put) (cache : list (string * CacheEntry)) :
  NoDup (List.map fst cache) ->
  (JsMap.size cache <= maxSize)%nat ->
  NoDup (List.map fst (runPuts puts cache))
  /\ (JsMap.size (runPuts puts cache) <= maxSize)%nat.
Proof.
  unfold runPuts. revert cache. induction puts as [|p puts IH]; intros cache Hnd Hle; simpl.
  - auto.
  - destruct (put_bound (putKey p) (putData p) (putTime p) cache Hnd) as [Hnd' Hle'].
    now apply IH.
Qed.

(** *** Sequences of writes with pairwise different keys *)

Lemma runPuts_snoc (puts : list Put) (p : Put) (cache : list (string * CacheEntry)) :
  runPuts (puts ++ [p]) cache
  = put (putKey p) (putData p) (putTime p) (runPuts puts cache).
Proof. unfold runPuts. now rewrite fold_left_app. Qed.

(** The entries written split into the cache and those evicted, none of
    which is younger than an entry of the cache. *)
Lemma runPuts_inv (puts : list Put) :
  NoDup (List.map putKey puts) ->
  exists evicted,
    Permutation (List.map entryOf puts) (evicted ++ runPuts puts [])
    /\ (forall a r, In a evicted -> In r (runPuts puts []) ->
          timestamp a.2 <= timestamp r.2)
    /\ length (runPuts puts []) = Nat.min (length puts) maxSize.
Proof.
  induction puts as [|p puts IH] using rev_ind; intros Hnd.
  - exists []. split; [reflexivity|]. split; [intros a r []|reflexivity].
  - rewrite map_app in Hnd. apply NoDup_app in Hnd as (Hnd & Hfresh & _).
    destruct (IH Hnd) as (evicted & Hperm & Hord & Hlen). clear IH.
    rewrite runPuts_snoc. set (c := runPuts puts []) in *.
    assert (Hkeys : Permutation (List.map putKey puts)
                      (List.map fst evicted ++ List.map fst c)).
    { rewrite <- map_app, <- Hperm, map_map. reflexivity. }
    assert (Hndc : NoDup (List.map fst c)).
    { rewrite Hkeys in Hnd. now apply NoDup_app in Hnd as (_ & _ & Hnd). }
    assert (Hnew : ~ In (putKey p) (List.map fst c)).
    { intros Hin. apply (Hfresh (putKey p)); [|simpl; now left].
      rewrite Hkeys. apply elem_of_app. right. now apply list_elem_of_In. }
    unfold put. rewrite (set_fresh _ _ _ Hnew).
    fold (entryOf p). set (x := entryOf p).
    assert (Hsum : length puts = (length evicted + length c)%nat).
    { apply Permutation_length in Hperm.
      now rewrite length_map, length_app in Hperm. }
    assert (Hndx : NoDup (List.map fst (c ++ [x]))).
    { rewrite map_app. apply NoDup_app. split; [exact Hndc|]. split.
      - intros k Hk Hin. apply list_elem_of_singleton in Hin. subst k.
        apply Hnew. now apply list_elem_of_In.
      - apply NoDup_singleton. }
    destruct (le_lt_dec (length (c ++ [x])) maxSize) as [Hle|Hgt].
    + rewrite cleanupCache_small by exact Hle.
      rewrite length_app in Hle. simpl in Hle.
      exists evicted. split; [|split].
      * rewrite map_app. simpl. rewrite Hperm. now rewrite <- app_assoc.
      * assert (evicted = []) as ->; [|intros a r []].
        destruct evicted; [reflexivity|]. simpl in Hsum. lia.
      * rewrite !length_app. simpl. lia.
    + pose proof (cleanupCache_perm (c ++ [x]) Hndx Hgt) as Hclean.
      set (s := sortByTimestamp (c ++ [x])) in *.
      set (d := (length (c ++ [x]) - maxSize)%nat) in *.
      pose proof (sortByTimestamp_perm (c ++ [x])) as Hs. fold s in Hs.
      pose proof (sortByTimestamp_sorted (c ++ [x])) as Hsorted. fold s in Hsorted.
      assert (Hnds : NoDup (firstn d s ++ skipn d s)).
      { rewrite firstn_skipn, Hs. now apply NoDup_fmap_1 in Hndx. }
      exists (evicted ++ firstn d s)%list. split; [|split].
      * rewrite map_app. simpl. rewrite Hperm, Hclean.
        rewrite <- !app_assoc. apply Permutation_app_head.
        rewrite firstn_skipn. symmetry. exact Hs.
      * intros a r Ha Hr.
        apply (Permutation_in _ Hclean) in Hr.
        apply in_app_or in Ha as [Ha|Ha];
          [|now apply (sorted_firstn_skipn d s)].
        assert (Hrs : In r (c ++ [x])).
        { apply (Permutation_in _ Hs). rewrite <- (firstn_skipn d s).
          apply in_or_app. now right. }
        apply in_app_or in Hrs as [Hrc | [<- | []]]; [now apply Hord|].
        (* the new entry stays: the oldest entry of the sort is in the cache *)
        destruct s as [|m s'] eqn:Es.
        { apply Permutation_length in Hs. rewrite length_app in Hs. simpl in Hs. lia. }
        assert (Hd : (0 < d)%nat) by (unfold d; lia).
        assert (Hm : In m (firstn d (m :: s'))).
        { destruct d; [lia|]. simpl. now left. }
        assert (Hmx : timestamp m.2 <= timestamp x.2)
          by now apply (sorted_firstn_skipn d (m :: s')).
        assert (Hmc : In m (c ++ [x])).
        { apply (Permutation_in _ Hs). now left. }
        apply in_app_or in Hmc as [Hmc | [<- | []]].
        -- specialize (Hord a m Ha Hmc). lia.
        -- exfalso. apply NoDup_app in Hnds as (_ & Hdisj & _).
           apply (Hdisj x); now apply list_elem_of_In.
      * rewrite (Permutation_length Hclean), length_skipn.
        rewrite (Permutation_length Hs). unfold d.
        rewrite !length_app in *. simpl in *. lia.
Qed.

Lemma nodupb_sound (l : list string) : JsString.nodupb l = true -> NoDup l.
Proof.
  induction l as [|x rest IH]; simpl; intros H; [constructor|].
  apply andb_true_iff in H as [Hx Hrest]. apply NoDup_cons. split; [|now apply IH].
  intros Hin. apply negb_true_iff in Hx.
  assert (existsb (String.eqb x) rest = true); [|congruence].
  apply existsb_exists. exists x. split; [now apply list_elem_of_In | apply String.eqb_refl].
Qed.

(** C6, as stated, fails: writes to a key the cache holds replace its
    entry, so 101 writes of one key leave one entry, not 100. *)
Lemma C6_counterexample :
  (maxSize < length Samples.sameKeyPuts)%nat
  /\ JsMap.size (runPuts Samples.sameKeyPuts []) = 1%nat
  /\ JsMap.size (runPuts Samples.sameKeyPuts []) <> maxSize.
Proof.
  split; [vm_compute; lia|]. split; [reflexivity|].
  intros H. vm_compute in H. discriminate H.
Qed.

(** C6, as the code has it: after each write of a sequence the cache holds
    at most [maxSize] entries; and when more than [maxSize] entries were
    written under pairwise different keys, the cache holds exactly
    [maxSize] of them, and no entry it has dropped is younger than an entry
    it holds. *)
Theorem C6_cache_bound_and_eviction (puts : list Put) :
  (forall n, (JsMap.size (runPuts (firstn n puts) []) <= maxSize)%nat)
  /\ (NoDup (List.map putKey puts) ->
      (maxSize < length puts)%nat ->
      JsMap.size (runPuts puts []) = maxSize
      /\ (forall e, In e (runPuts puts []) -> exists p, In p puts /\ e = entryOf p)
      /\ (forall p r, In p puts -> ~ In (entryOf p) (runPuts puts []) ->
            In r (runPuts puts []) -> putTime p <= timestamp r.2)).
Proof.
  split.
  - intros n. apply runPuts_bound; [constructor | unfold JsMap.size; simpl; lia].
  - intros Hnd Hover. destruct (runPuts_inv puts Hnd) as (evicted & Hperm & Hord & Hlen).
    split; [unfold JsMap.size; lia|]. split.
    + intros e He.
      assert (Hin : In e (List.map entryOf puts)).
      { apply (Permutation_in _ (Permutation_sym Hperm)). apply in_or_app. now right. }
      apply in_map_iff in Hin as (p & <- & Hp). now exists p.
    + intros p r Hp Hout Hr.
      assert (Hin : In (entryOf p) (evicted ++ runPuts puts [])).
      { apply (Permutation_in _ Hperm). now apply in_map. }
      apply in_app_or in Hin as [Hin|Hin]; [|contradiction].
      exact (Hord (entryOf p) r Hin Hr).
Qed.

(** An instance: 101 writes under 101 different keys. *)
Lemma C6_witness :
  JsMap.size (runPuts Samples.distinctPuts []) = maxSize
  /\ (forall e, In e (runPuts Samples.distinctPuts []) ->
        exists p, In p Samples.distinctPuts /\ e = entryOf p)
  /\ (forall p r, In p Samples.distinctPuts ->
        ~ In (entryOf p) (runPuts Samples.distinctPuts []) ->
        In r (runPuts Samples.distinctPuts []) -> putTime p <= timestamp r.2).
Proof.
  apply (proj2 (C6_cache_bound_and_eviction Samples.distinctPuts)).
  - apply nodupb_sound. vm_compute. reflexivity.
  - vm_compute. lia.
Defined.

(* ===================================================================== *)
(** ** Further properties of [mapFields] *)
(* ===================================================================== *)

Lemma mapFieldByHeuristics_descriptor (g f : Field.t) :
  Field.descriptor g = Field.descriptor f ->
  mapFieldByHeuristics g = mapFieldByHeuristics f.
Proof.
  intros H. apply descriptor_inv in H as (_ & Ht & Hn & Hi & Hp & Hl).
  unfold mapFieldByHeuristics, heuristicText. now rewrite Ht, Hn, Hi, Hp, Hl.
Qed.

Lemma mapField_mappedField (dom : Dom.t) (atsType : string) (field : Field.t) :
  (mapField dom atsType field).1 = Mapped.mappedField dom atsType field.
Proof.
  unfold mapField, Mapped.mappedField.
  destruct (strictNotEqual (JsStr (mapFieldByATS dom field atsType)) "unknown");
    reflexivity.
Qed.

Lemma mappedField_descriptor (dom : Dom.t) (atsType : string) (field : Field.t) :
  Field.descriptor (Mapped.mappedField dom atsType field) = Field.descriptor field.
Proof. rewrite <- mapField_mappedField. apply mapField_descriptor. Qed.

(** The callback depends on the descriptor of the object only, so mapping
    a mapped object changes nothing. *)
Lemma mappedField_again (dom : Dom.t) (atsType : string) (g f : Field.t) :
  Field.descriptor g = Field.descriptor f ->
  Mapped.mappedField dom atsType (Mapped.mappedField dom atsType g)
  = Mapped.mappedField dom atsType g
  /\ Mapped.mappedField dom atsType (Mapped.reviewed g)
     = Mapped.reviewed (Mapped.mappedField dom atsType g).
Proof.
  intros _. split.
  - unfold Mapped.mappedField at 1.
    rewrite (mapFieldByATS_descriptor dom _ g atsType (mappedField_descriptor dom atsType g)).
    rewrite (mapFieldByHeuristics_descriptor _ g (mappedField_descriptor dom atsType g)).
    unfold Mapped.mappedField.
    destruct (strictNotEqual (JsStr (mapFieldByATS dom g atsType)) "unknown"); reflexivity.
  - assert (Hd : Field.descriptor (Mapped.reviewed g) = Field.descriptor g).
    { unfold Mapped.reviewed. now destruct (Field.needsLLMAnalysis g). }
    unfold Mapped.mappedField.
    rewrite (mapFieldByATS_descriptor dom _ g atsType Hd).
    rewrite (mapFieldByHeuristics_descriptor _ g Hd).
    unfold Mapped.reviewed.
    destruct (strictNotEqual (JsStr (mapFieldByATS dom g atsType)) "unknown");
      simpl; destruct (Field.needsLLMAnalysis g); reflexivity.
Qed.

Lemma reviewed_again (f : Field.t) : Mapped.reviewed (Mapped.reviewed f) = Mapped.reviewed f.
Proof. unfold Mapped.reviewed. destruct (Field.needsLLMAnalysis f) eqn:E; simpl; now rewrite ?E. Qed.

(** [fields.map] on the heap, reference by reference. *)
Lemma fold_visit_lookup (dom : Dom.t) (ats : string) (fields : list loc)
    (acc : gmap loc Field.t * list (loc * Stage)) (l : loc) :
  (fold_left (visit dom ats) fields acc).1 !! l
  = if decide (l ∈ fields) then Mapped.mappedField dom ats <$> acc.1 !! l
    else acc.1 !! l.
Proof.
  revert acc. induction fields as [|a fields IH]; intros acc; simpl.
  - destruct (decide (l ∈ [])) as [Hin|_]; [|reflexivity].
    now apply not_elem_of_nil in Hin.
  - rewrite IH. unfold visit.
    destruct (acc.1 !! a) as [fa|] eqn:Ha.
    + pose proof (mapField_mappedField dom ats fa) as Hfa.
      destruct (mapField dom ats fa) as [fa' stages] eqn:Hm. simpl in Hfa. subst fa'.
      cbn [fst snd].
      destruct (decide (a = l)) as [->|Hne].
      * rewrite lookup_insert_eq, Ha. simpl.
        rewrite (decide_True (P := l ∈ l :: fields)) by (now left).
        destruct (decide (l ∈ fields)); [|reflexivity].
        simpl. f_equal.
        now apply (mappedField_again dom ats fa fa).
      * rewrite lookup_insert_ne by exact Hne.
        destruct (decide (l ∈ fields)) as [Hin|Hn].
        -- rewrite (decide_True (P := l ∈ a :: fields)) by (now right). reflexivity.
        -- rewrite (decide_False (P := l ∈ a :: fields)); [reflexivity|].
           intros Hin. apply elem_of_cons in Hin as [->|Hin]; contradiction.
    + destruct (decide (a = l)) as [->|Hne].
      * rewrite Ha. simpl. now destruct (decide (l ∈ fields)), (decide (l ∈ l :: fields)).
      * destruct (decide (l ∈ fields)) as [Hin|Hn].
        -- rewrite (decide_True (P := l ∈ a :: fields)) by (now right). reflexivity.
        -- rewrite (decide_False (P := l ∈ a :: fields)); [reflexivity|].
           intros Hin. apply elem_of_cons in Hin as [->|Hin]; contradiction.
Qed.

Lemma scheduleLLMAnalysis_exact (ls : list loc) (heap : gmap loc Field.t) (l : loc) :
  scheduleLLMAnalysis ls heap !! l
  = if decide (l ∈ ls) then Field.set_needsManualReview true <$> heap !! l
    else heap !! l.
Proof.
  unfold scheduleLLMAnalysis. revert heap.
  induction ls as [|a ls IH]; intros heap; simpl.
  - destruct (decide (l ∈ [])) as [Hin|_]; [|reflexivity].
    now apply not_elem_of_nil in Hin.
  - rewrite IH. destruct (decide (a = l)) as [->|Hne].
    + rewrite lookup_alter_eq. rewrite (decide_True (P := l ∈ l :: ls)) by (now left).
      destruct (decide (l ∈ ls)); destruct (heap !! l); reflexivity.
    + rewrite lookup_alter_ne by exact Hne.
      destruct (decide (l ∈ ls)) as [Hin|Hn].
      * rewrite (decide_True (P := l ∈ a :: ls)) by (now right). reflexivity.
      * rewrite (decide_False (P := l ∈ a :: ls)); [reflexivity|].
        intros Hin. apply elem_of_cons in Hin as [->|Hin]; contradiction.
Qed.

(** The heap [mapFields] leaves, reference by reference. *)
Lemma mapFields_lookup (dom : Dom.t) (fields : list loc) (atsType : option string)
    (heap : gmap loc Field.t) (l : loc) :
  ((mapFields dom fields atsType heap).1.2) !! l
  = if decide (l ∈ fields)
    then (fun f => Mapped.reviewed (Mapped.mappedField dom (default "unknown" atsType) f))
           <$> heap !! l
    else heap !! l.
Proof.
  unfold mapFields. cbn [fst snd].
  set (ats := default "unknown" atsType).
  set (mapped := fold_left (visit dom ats) fields (heap, [])).
  set (llm := List.filter (wantsLLM mapped.1) fields).
  assert (Hm : mapped.1 !! l
               = if decide (l ∈ fields) then Mapped.mappedField dom ats <$> heap !! l
                 else heap !! l)
    by apply fold_visit_lookup.
  assert (Hllm : l ∈ llm <-> l ∈ fields /\ wantsLLM mapped.1 l = true).
  { unfold llm. rewrite !list_elem_of_In. apply filter_In. }
  assert (Hgoal : (if decide (l ∈ llm)
                   then Field.set_needsManualReview true <$> mapped.1 !! l
                   else mapped.1 !! l)
                  = if decide (l ∈ fields)
                    then (fun f => Mapped.reviewed (Mapped.mappedField dom ats f)) <$> heap !! l
                    else heap !! l).
  { destruct (decide (l ∈ llm)) as [Hin|Hn].
    - apply Hllm in Hin as [Hin Hw]. rewrite decide_True in * by exact Hin.
      unfold wantsLLM in Hw. rewrite Hm in *.
      destruct (heap !! l) as [f|]; simpl in *; [|discriminate].
      unfold Mapped.reviewed. now rewrite Hw.
    - rewrite Hm. destruct (decide (l ∈ fields)) as [Hin|Hout]; [|reflexivity].
      destruct (heap !! l) as [f|] eqn:Hl; simpl; [|reflexivity].
      assert (Hw : wantsLLM mapped.1 l = false).
      { destruct (wantsLLM mapped.1 l) eqn:E; [|reflexivity].
        exfalso. apply Hn, Hllm. auto. }
      unfold wantsLLM in Hw. rewrite Hm in Hw.
      simpl in Hw. unfold Mapped.reviewed. now rewrite Hw. }
  destruct (0 <? length llm)%nat eqn:E.
  - rewrite scheduleLLMAnalysis_exact. exact Hgoal.
  - rewrite <- Hgoal. apply Nat.ltb_ge in E.
    assert (llm = []) as -> by (destruct llm; [reflexivity | simpl in E; lia]).
    destruct (decide (l ∈ [])) as [Hin|_]; [|reflexivity].
    now apply not_elem_of_nil in Hin.
Qed.

Lemma firstRule_range (dom : Dom.t) (field : Field.t) (atsRules : list (string * list string)) :
  firstRule dom field atsRules = "unknown"
  \/ In (firstRule dom field atsRules) (List.map fst atsRules).
Proof.
  induction atsRules as [|[p selectors] rest IH]; simpl; [now left|].
  destruct (existsb (matchesSelector dom field) selectors); [right; now left|].
  destruct IH as [IH|IH]; [now left | right; now right].
Qed.

Lemma rulesOf_In {A} (table : list (string * A)) (key : string) (v : A) :
  rulesOf table key = Some v -> In (key, v) table.
Proof.
  induction table as [|[k w] rest IH]; simpl; [discriminate|].
  destruct (String.eqb k key) eqn:E.
  - apply String.eqb_eq in E. intros [= ->]. subst. now left.
  - intros H. right. now apply IH.
Qed.

(** Every purpose of the rule tables is a purpose of the heuristic table. *)
Lemma mapFieldByATS_range (dom : Dom.t) (field : Field.t) (atsType : string) :
  In (mapFieldByATS dom field atsType) Mapped.taxonomy.
Proof.
  unfold mapFieldByATS.
  destruct (rulesOf ATS_FIELD_RULES atsType) as [atsRules|] eqn:E; [|now left].
  apply rulesOf_In in E.
  pose (known := fun p => existsb (String.eqb p) Mapped.taxonomy).
  assert (Hall : forallb (fun entry => forallb known (List.map fst entry.2))
                   ATS_FIELD_RULES = true) by reflexivity.
  rewrite forallb_forall in Hall. specialize (Hall _ E). cbn [snd] in Hall.
  rewrite forallb_forall in Hall.
  destruct (firstRule_range dom field atsRules) as [-> | Hin]; [now left|].
  specialize (Hall _ Hin). unfold known in Hall.
  apply existsb_exists in Hall as (p & Hp & Heq).
  apply String.eqb_eq in Heq. now subst.
Qed.

Lemma mapFieldByHeuristics_range (field : Field.t) :
  In (FieldMapper.purpose (mapFieldByHeuristics field)) Mapped.taxonomy.
Proof.
  unfold mapFieldByHeuristics, Mapped.taxonomy.
  destruct (heuristicsLoop_first (heuristicText field) (Field.type field) HEURISTIC_PATTERNS)
    as [(pre & p & patterns & post & Htable & _ & _ & Hres) | [_ Hres]];
    rewrite Hres; simpl FieldMapper.purpose; [|now left].
  right. rewrite Htable, map_app. apply in_or_app. right. now left.
Qed.

(** X1: for every object of the batch, [mapFields] discards the purpose,
    confidence and method it carried and assigns the result of the rule
    stage when that is not "unknown", and otherwise the answer of the
    heuristic scorer with the method "heuristic", also when that answer is
    "unknown" with confidence 0.  It never sets needsLLMAnalysis, it marks
    for review exactly the objects that were flagged before the call, and
    it never calls the pattern stage. *)
Theorem X1_mapFields_result (dom : Dom.t) (fields : list loc)
    (atsType : option string) (heap : gmap loc Field.t) (l : loc) (f0 : Field.t) :
  l ∈ fields ->
  heap !! l = Some f0 ->
  (exists f,
      ((mapFields dom fields atsType heap).1.2) !! l = Some f
      /\ Field.descriptor f = Field.descriptor f0
      /\ Field.needsLLMAnalysis f = Field.needsLLMAnalysis f0
      /\ Field.llmReasoning f = Field.llmReasoning f0
      /\ Field.needsManualReview f
         = Field.needsManualReview f0 || Field.needsLLMAnalysis f0
      /\ (mapFieldByATS dom f0 (default "unknown" atsType) <> "unknown" ->
          Field.purpose f = Some (mapFieldByATS dom f0 (default "unknown" atsType))
          /\ Field.confidence f = Some (9 # 10)
          /\ Field.mappingMethod f = Some "ats-specific")
      /\ (mapFieldByATS dom f0 (default "unknown" atsType) = "unknown" ->
          Field.purpose f = Some (FieldMapper.purpose (mapFieldByHeuristics f0))
          /\ Field.confidence f = Some (FieldMapper.confidence (mapFieldByHeuristics f0))
          /\ Field.mappingMethod f = Some "heuristic"))
  /\ (forall l', ~ In (l', PatternMatching) (mapFields dom fields atsType heap).2).
Proof.
  intros Hin Hl. split.
  - rewrite mapFields_lookup, decide_True, Hl by exact Hin. simpl.
    eexists. split; [reflexivity|].
    unfold Mapped.reviewed, Mapped.mappedField.
    destruct (strictNotEqual (JsStr (mapFieldByATS dom f0 (default "unknown" atsType)))
                "unknown") eqn:E; simpl;
      destruct (Field.needsLLMAnalysis f0) eqn:En; simpl; rewrite ?En;
      (split; [reflexivity|]); (split; [reflexivity|]); (split; [reflexivity|]);
      (split; [now rewrite ?orb_true_r, ?orb_false_r|]).
    all: try (apply strictNotEqual_string in E; split; [auto | intros; contradiction]).
    all: split; [intros Hne; apply strictNotEqual_string in Hne; congruence | auto].
  - intros l' Hs.
    destruct (mapFields_inv dom fields atsType heap (fun _ _ => True)) as (_ & Htrace & _);
      [auto | auto |].
    rewrite Htrace in Hs. apply in_flat_map in Hs as (l'' & _ & Hs).
    unfold stagesAt in Hs. destruct (heap !! l'') as [f|]; [|destruct Hs].
    apply in_map_iff in Hs as (s & Heq & Hs). injection Heq as _ ->.
    now apply (pattern_stage_never_called dom (default "unknown" atsType) f).
Qed.

(** An instance: the content script found whyInterested for the labelled
    question; after [mapFields] its purpose is "unknown". *)
Lemma X1_witness :
  (exists f,
      ((mapFields Dom.absent [0%nat] None Cases.questionHeap).1.2) !! 0%nat = Some f
      /\ Field.purpose f = Some "unknown"
      /\ Field.confidence f = Some 0%Q
      /\ Field.mappingMethod f = Some "heuristic")
  /\ (forall l', ~ In (l', PatternMatching)
                   (mapFields Dom.absent [0%nat] None Cases.questionHeap).2).
Proof.
  destruct (X1_mapFields_result Dom.absent [0%nat] None Cases.questionHeap 0%nat
              (Field.spread (Some "whyInterested") None None None Samples.labelledQuestion))
    as [(f & Hf & _ & _ & _ & _ & _ & Hh) Hp].
  - apply list_elem_of_here.
  - reflexivity.
  - split; [|exact Hp]. exists f. split; [exact Hf|]. apply Hh. reflexivity.
Defined.

(** X2: mapping the same batch a second time changes neither the returned
    array, nor any object of the heap, nor the stages called. *)
Theorem X2_mapFields_idempotent (dom : Dom.t) (fields : list loc)
    (atsType : option string) (heap : gmap loc Field.t) :
  mapFields dom fields atsType (mapFields dom fields atsType heap).1.2
  = mapFields dom fields atsType heap.
Proof.
  set (ats := default "unknown" atsType).
  assert (Hheap : (mapFields dom fields atsType (mapFields dom fields atsType heap).1.2).1.2
                  = (mapFields dom fields atsType heap).1.2).
  { apply map_eq. intros l. rewrite mapFields_lookup.
    destruct (decide (l ∈ fields)) as [Hin|Hn]; [|reflexivity].
    rewrite mapFields_lookup, decide_True by exact Hin. fold ats.
    destruct (heap !! l) as [f|]; simpl; [|reflexivity]. f_equal.
    destruct (mappedField_again dom ats f f eq_refl) as [H1 _].
    destruct (mappedField_again dom ats (Mapped.mappedField dom ats f) f
                (mappedField_descriptor dom ats f)) as [_ H2].
    now rewrite H2, H1, reviewed_again. }
  assert (Htrace : (mapFields dom fields atsType (mapFields dom fields atsType heap).1.2).2
                   = (mapFields dom fields atsType heap).2).
  { destruct (mapFields_inv dom fields atsType heap (fun _ _ => True)) as (_ & -> & _);
      [auto | auto |].
    destruct (mapFields_inv dom fields atsType (mapFields dom fields atsType heap).1.2
                (fun _ _ => True)) as (_ & -> & _); [auto | auto |].
    apply flat_map_ext. intros l. unfold stagesAt. rewrite mapFields_lookup. fold ats.
    destruct (decide (l ∈ fields)); [|reflexivity].
    destruct (heap !! l) as [f|]; simpl; [|reflexivity]. f_equal.
    apply mapField_stages_descriptor.
    unfold Mapped.reviewed.
    destruct (Field.needsLLMAnalysis _); simpl; apply mappedField_descriptor. }
  destruct (mapFields dom fields atsType (mapFields dom fields atsType heap).1.2)
    as [[out2 heap2] trace2] eqn:E2.
  destruct (mapFields dom fields atsType heap) as [[out1 heap1] trace1] eqn:E1.
  simpl in *. subst heap2 trace2.
  assert (out2 = fields) by (unfold mapFields in E2; now inversion E2).
  assert (out1 = fields) by (unfold mapFields in E1; now inversion E1).
  now subst.
Qed.

(** X3: the purpose [mapFields] assigns is "unknown" or a purpose of the
    heuristic table; in particular it is never one of the question
    purposes of the pattern table. *)
Theorem X3_mapFields_taxonomy (dom : Dom.t) (fields : list loc)
    (atsType : option string) (heap : gmap loc Field.t) (l : loc) (f0 : Field.t) :
  l ∈ fields ->
  heap !! l = Some f0 ->
  exists f p,
    ((mapFields dom fields atsType heap).1.2) !! l = Some f
    /\ Field.purpose f = Some p
    /\ In p Mapped.taxonomy
    /\ ~ In p (List.map fst QUESTION_PATTERNS).
Proof.
  intros Hin Hl.
  assert (Hq : forall p, In p Mapped.taxonomy -> ~ In p (List.map fst QUESTION_PATTERNS)).
  { intros p Hp Hqp.
    assert (Hall : forallb (fun p => negb (existsb (String.eqb p)
                                            (List.map fst QUESTION_PATTERNS)))
                     Mapped.taxonomy = true) by reflexivity.
    rewrite forallb_forall in Hall. specialize (Hall _ Hp).
    apply negb_true_iff in Hall.
    assert (existsb (String.eqb p) (List.map fst QUESTION_PATTERNS) = true); [|congruence].
    apply existsb_exists. exists p. split; [exact Hqp | apply String.eqb_refl]. }
  rewrite mapFields_lookup, decide_True, Hl by exact Hin. simpl.
  unfold Mapped.reviewed, Mapped.mappedField.
  destruct (strictNotEqual _ _); simpl; destruct (Field.needsLLMAnalysis f0); simpl.
  all: eexists; eexists; split; [reflexivity|]; split; [reflexivity|].
  all: first [ split; [apply mapFieldByATS_range | apply Hq, mapFieldByATS_range]
             | split; [apply mapFieldByHeuristics_range
                      | apply Hq, mapFieldByHeuristics_range] ].
Qed.

Lemma X3_witness :
  exists f p,
    ((mapFields Dom.absent [0%nat] None Cases.questionHeap).1.2) !! 0%nat = Some f
    /\ Field.purpose f = Some p
    /\ In p Mapped.taxonomy
    /\ ~ In p (List.map fst QUESTION_PATTERNS).
Proof.
  apply (X3_mapFields_taxonomy Dom.absent [0%nat] None Cases.questionHeap 0%nat
           (Field.spread (Some "whyInterested") None None None Samples.labelledQuestion)).
  - apply list_elem_of_here.
  - reflexivity.
Defined.

(* ===================================================================== *)
(** ** Properties of [validateMapping] *)
(* ===================================================================== *)

Lemma fold_check (profile : option Validation.Profile) (fields : list Field.t)
    (acc : Validation.Result) :
  let r := fold_left (Validation.check profile) fields acc in
  Validation.valid r
  = (Validation.valid acc
     + length (List.filter (Validation.countsValid profile) fields))%nat
  /\ (Validation.invalid r + Validation.missing r
      = Validation.invalid acc + Validation.missing acc
        + length (List.filter (fun f => negb (Validation.countsValid profile f)) fields))%nat
  /\ length (Validation.issues r)
     = (length (Validation.issues acc)
        + length (List.filter (fun f => negb (Validation.countsValid profile f)) fields))%nat
  /\ List.map Validation.field (Validation.issues r)
     = (List.map Validation.field (Validation.issues acc)
        ++ List.filter (fun f => negb (Validation.countsValid profile f)) fields)%list.
Proof.
  revert acc. induction fields as [|f fields IH]; intros acc; simpl.
  - rewrite app_nil_r. repeat split; lia.
  - destruct (IH (Validation.check profile acc f)) as (H1 & H2 & H3 & H4).
    rewrite H1, H2, H3, H4. clear IH H1 H2 H3 H4.
    unfold Validation.check, Validation.countsValid.
    destruct (match Field.purpose f with
              | Some p => String.eqb p "unknown"
              | None => false
              end); simpl.
    + rewrite length_app, map_app, <- app_assoc. simpl. repeat split; lia.
    + destruct (Validation.notNull
                  (Validation.getValueForField (Field.purpose f) profile)); simpl.
      * repeat split; lia.
      * rewrite length_app, map_app, <- app_assoc. simpl. repeat split; lia.
Qed.

(** X4: [validateMapping] sorts every field into exactly one of valid,
    invalid and missing, and reports an issue, in the order of the fields,
    for each field that is not valid and for no other. *)
Theorem X4_validateMapping_counts (mappedFields : list Field.t)
    (profile : option Validation.Profile) :
  (Validation.valid (Validation.validateMapping mappedFields profile)
   + Validation.invalid (Validation.validateMapping mappedFields profile)
   + Validation.missing (Validation.validateMapping mappedFields profile)
   = length mappedFields)%nat
  /\ length (Validation.issues (Validation.validateMapping mappedFields profile))
     = (Validation.invalid (Validation.validateMapping mappedFields profile)
        + Validation.missing (Validation.validateMapping mappedFields profile))%nat
  /\ List.map Validation.field
       (Validation.issues (Validation.validateMapping mappedFields profile))
     = List.filter (fun f => negb (Validation.countsValid profile f)) mappedFields.
Proof.
  unfold Validation.validateMapping.
  destruct (fold_check profile mappedFields
              {| Validation.valid := 0; Validation.invalid := 0;
                 Validation.missing := 0; Validation.issues := [] |})
    as (H1 & H2 & H3 & H4).
  simpl in *. rewrite H4. split; [|split; [lia | reflexivity]].
  rewrite H1, <- Nat.add_assoc, H2.
  clear. induction mappedFields as [|f fields IH]; simpl; [reflexivity|].
  destruct (Validation.countsValid profile f); simpl; lia.
Qed.

(** X5: without a profile no field is valid, and every field is reported
    as an issue. *)
Theorem X5_validateMapping_without_profile (mappedFields : list Field.t) :
  Validation.valid (Validation.validateMapping mappedFields None) = 0%nat
  /\ List.map Validation.field
       (Validation.issues (Validation.validateMapping mappedFields None))
     = mappedFields.
Proof.
  unfold Validation.validateMapping.
  destruct (fold_check None mappedFields
              {| Validation.valid := 0; Validation.invalid := 0;
                 Validation.missing := 0; Validation.issues := [] |})
    as (H1 & _ & _ & H4).
  simpl in *. rewrite H1, H4.
  assert (Hnone : forall f, Validation.countsValid None f = false).
  { intros f. unfold Validation.countsValid. simpl. apply andb_false_r. }
  split.
  - rewrite filter_none; [reflexivity | intros; apply Hnone].
  - apply filter_all. intros f _. now rewrite Hnone.
Qed.

Lemma direct_of_emptyProfile (p : string) :
  rulesOf (Validation.direct Validation.emptyProfile) p
  = if Validation.isDirect (Some p) then Some Validation.Undefined else None.
Proof.
  unfold Validation.isDirect, Validation.direct, Validation.emptyProfile.
  cbn -[String.eqb].
  repeat match goal with
         | |- context [String.eqb ?k p] =>
             rewrite (String.eqb_sym k p); destruct (String.eqb p k); [reflexivity|]
         end.
  reflexivity.
Qed.

(** X6: an attribute that is absent from the profile counts as data: with
    a profile that has no section at all, the valid fields are exactly
    those whose purpose reads one attribute of the profile (every purpose
    of the heuristic table but fullName). *)
Theorem X6_validateMapping_absent_attributes (mappedFields : list Field.t) :
  Validation.valid
    (Validation.validateMapping mappedFields (Some Validation.emptyProfile))
  = length (List.filter (fun f => Validation.isDirect (Field.purpose f)) mappedFields)
  /\ (forall p, Validation.isDirect (Some p) = true <->
                In p Mapped.taxonomy /\ p <> "unknown" /\ p <> "fullName").
Proof.
  split.
  - unfold Validation.validateMapping.
    destruct (fold_check (Some Validation.emptyProfile) mappedFields
                {| Validation.valid := 0; Validation.invalid := 0;
                   Validation.missing := 0; Validation.issues := [] |})
      as (H1 & _).
    simpl in H1. rewrite H1. f_equal. apply filter_ext. intros f.
    unfold Validation.countsValid, Validation.getValueForField.
    destruct (Field.purpose f) as [p|]; [|reflexivity].
    destruct (String.eqb p "unknown") eqn:Eu.
    { apply String.eqb_eq in Eu. now subst p. }
    destruct (String.eqb p "fullName") eqn:Ef.
    { apply String.eqb_eq in Ef. now subst p. }
    rewrite direct_of_emptyProfile.
    now destruct (Validation.isDirect (Some p)).
  - intros p. unfold Validation.isDirect. rewrite existsb_exists. split.
    + intros (k & Hk & Heq). apply String.eqb_eq in Heq. subst k.
      simpl in Hk. unfold Mapped.taxonomy. simpl.
      repeat (destruct Hk as [<-|Hk];
              [split; [tauto | split; discriminate]|]).
      destruct Hk.
    + intros (Hin & Hu & Hf). exists p. split; [|apply String.eqb_refl].
      unfold Mapped.taxonomy in Hin. simpl in Hin. simpl.
      repeat (destruct Hin as [<-|Hin]; [tauto || contradiction|]).
      destruct Hin.
Qed.

(* ===================================================================== *)
(** ** Further properties of the field client *)
(* ===================================================================== *)

Lemma enhance_lookup (analysis : list Analysis) (fields : list Field.t) (k : Z) (i : nat) :
  enhance analysis k fields !! i
  = (fun field =>
       match List.find (fun a => fieldIndex a =? k + Z.of_nat i + 1) analysis with
       | Some a => Field.spread (purpose a) (confidence a) (Some "llm") (reasoning a) field
       | None => field
       end) <$> fields !! i.
Proof.
  revert k i. induction fields as [|f fields IH]; intros k i; [now destruct i|].
  destruct i as [|i]; simpl.
  - now rewrite Z.add_0_r.
  - rewrite IH. replace (k + 1 + Z.of_nat i + 1) with (k + Z.pos (Pos.of_succ_nat i) + 1) by lia.
    reflexivity.
Qed.

Lemma enhance_length (analysis : list Analysis) (fields : list Field.t) (k : Z) :
  length (enhance analysis k fields) = length fields.
Proof. revert k. induction fields as [|f fields IH]; intros k; simpl; [reflexivity|]. now rewrite IH. Qed.

(** X7: [parseFieldAnalysisResponse] answers with one field for each
    original field, in order.  The field at position [i] (from 0) takes
    purpose, confidence and reasoning from the first object of the answer
    whose fieldIndex is [i + 1], with the method "llm", and keeps the rest
    of its attributes; without such an object, and when the answer could
    not be read at all, it is the original field. *)
Theorem X7_parse_merges_by_index (parsed : option (list Analysis))
    (originalFields : list Field.t) (i : nat) :
  length (parseFieldAnalysisResponse parsed originalFields) = length originalFields
  /\ parseFieldAnalysisResponse parsed originalFields !! i
     = (fun field =>
          match parsed with
          | None => field
          | Some analysis =>
              match List.find (fun a => fieldIndex a =? Z.of_nat i + 1) analysis with
              | Some a =>
                  Field.spread (purpose a) (confidence a) (Some "llm") (reasoning a) field
              | None => field
              end
          end) <$> originalFields !! i
  /\ (forall field', parseFieldAnalysisResponse parsed originalFields !! i = Some field' ->
        exists field, originalFields !! i = Some field
                      /\ Field.descriptor field' = Field.descriptor field
                      /\ Field.needsLLMAnalysis field' = Field.needsLLMAnalysis field
                      /\ Field.needsManualReview field' = Field.needsManualReview field).
Proof.
  assert (Hlookup : parseFieldAnalysisResponse parsed originalFields !! i
     = (fun field =>
          match parsed with
          | None => field
          | Some analysis =>
              match List.find (fun a => fieldIndex a =? Z.of_nat i + 1) analysis with
              | Some a =>
                  Field.spread (purpose a) (confidence a) (Some "llm") (reasoning a) field
              | None => field
              end
          end) <$> originalFields !! i).
  { destruct parsed as [analysis|]; simpl.
    - now rewrite enhance_lookup.
    - now destruct (originalFields !! i). }
  split; [|split; [exact Hlookup|]].
  - destruct parsed; simpl; [apply enhance_length | reflexivity].
  - intros field' Hf. rewrite Hlookup in Hf.
    destruct (originalFields !! i) as [field|]; [|discriminate].
    simpl in Hf. injection Hf as <-. exists field. split; [reflexivity|].
    destruct parsed as [analysis|]; [|auto].
    destruct (List.find _ analysis); auto.
Qed.

(** X8: [analyzeFields] makes at most one request, and it answers either
    with one field for each field of the batch or, admission granted, with
    the payload the cache holds under the key of the batch. *)
Theorem X8_analyzeFields_cardinality (clock : Clock) (remote : Remote)
    (fields : list Field.t) (context : Context) (st : State) :
  (requests (analyzeFields clock remote fields context st) <= 1)%nat
  /\ (length (result (analyzeFields clock remote fields context st)) = length fields
      \/ ((canMakeRequest (atAdmission clock) (RATE_LIMIT st)).1 = true
          /\ lookup (generateFieldCacheKey fields context) (atLookup clock)
               (fieldAnalysis st)
             = Some (result (analyzeFields clock remote fields context st))
          /\ requests (analyzeFields clock remote fields context st) = 0%nat)).
Proof.
  unfold analyzeFields.
  destruct (canMakeRequest (atAdmission clock) (RATE_LIMIT st)) as [granted rl].
  destruct granted; simpl.
  - destruct (lookup _ _ _) as [cached|]; simpl.
    + split; [lia|]. right. auto.
    + destruct remote as [|parsed]; simpl.
      * split; [lia|]. left. apply length_map.
      * split; [lia|]. left.
        destruct parsed; simpl; [apply enhance_length | reflexivity].
  - split; [lia|]. left. apply length_map.
Qed.

Lemma canMakeRequest_lastRequestTime (now : Z) (rl : RateLimit) :
  lastRequestTime (canMakeRequest now rl).2 = lastRequestTime rl.
Proof.
  unfold canMakeRequest.
  destruct (24 * 60 * 60 * 1000 <? now - dailyResetTime rl); [reflexivity|].
  now destruct (requestsPerDay <=? dailyUsage rl).
Qed.

(** X9: a request that fails is neither committed nor cached: the cache is
    as before, the rate limiter is as the admission check left it (the
    time of the last request in particular is unchanged), and the answer
    is the fallback analysis of the batch unless it came from the cache. *)
Theorem X9_failed_request_leaves_no_trace (clock : Clock)
    (fields : list Field.t) (context : Context) (st : State) :
  fieldAnalysis (state (analyzeFields clock RemoteFailure fields context st))
  = fieldAnalysis st
  /\ RATE_LIMIT (state (analyzeFields clock RemoteFailure fields context st))
     = (canMakeRequest (atAdmission clock) (RATE_LIMIT st)).2
  /\ lastRequestTime (RATE_LIMIT (state (analyzeFields clock RemoteFailure fields context st)))
     = lastRequestTime (RATE_LIMIT st)
  /\ (requests (analyzeFields clock RemoteFailure fields context st) = 1%nat ->
      result (analyzeFields clock RemoteFailure fields context st)
      = fallbackFieldAnalysis fields).
Proof.
  unfold analyzeFields.
  pose proof (canMakeRequest_lastRequestTime (atAdmission clock) (RATE_LIMIT st)) as Hlast.
  destruct (canMakeRequest (atAdmission clock) (RATE_LIMIT st)) as [granted rl].
  simpl in Hlast.
  destruct granted; simpl; [destruct (lookup _ _ _); simpl|];
    (split; [reflexivity|]); (split; [reflexivity|]); (split; [exact Hlast|]);
    first [discriminate | reflexivity].
Qed.

(** X13: the admission check can be repeated: asked again at the same
    instant it gives the same answer and leaves the same state; it never
    changes the time of the last request; and once a request is committed
    at time [t], every check made less than 1000 ms after [t] is denied. *)
Theorem X13_admission_check (now t : Z) (rl : RateLimit) :
  canMakeRequest now (canMakeRequest now rl).2 = canMakeRequest now rl
  /\ lastRequestTime (canMakeRequest now rl).2 = lastRequestTime rl
  /\ (now - t < 1000 -> (canMakeRequest now (updateRateLimit t rl)).1 = false).
Proof.
  split; [|split].
  - destruct (24 * 60 * 60 * 1000 <? now - dailyResetTime rl) eqn:E.
    + assert (H1 : (canMakeRequest now rl).2
                   = {| lastRequestTime := lastRequestTime rl; dailyUsage := 0;
                        dailyResetTime := now |})
        by (unfold canMakeRequest; rewrite E; reflexivity).
      rewrite H1. unfold canMakeRequest.
      cbn [dailyUsage dailyResetTime lastRequestTime].
      rewrite Z.sub_diag, E. reflexivity.
    + unfold canMakeRequest. rewrite E.
      destruct (requestsPerDay <=? dailyUsage rl) eqn:Eu; simpl; now rewrite E, Eu.
  - apply canMakeRequest_lastRequestTime.
  - intros Hsoon. unfold canMakeRequest, updateRateLimit.
    cbn [dailyUsage dailyResetTime lastRequestTime].
    assert (Hdenied : (60 * 1000 / requestsPerMinute <=? now - t) = false)
      by (apply Z.leb_gt; exact Hsoon).
    destruct (24 * 60 * 60 * 1000 <? now - dailyResetTime rl);
      cbn [dailyUsage dailyResetTime lastRequestTime].
    + change (requestsPerDay <=? 0) with false. cbn [fst]. exact Hdenied.
    + destruct (requestsPerDay <=? dailyUsage rl + 1); [reflexivity|].
      cbn [fst]. exact Hdenied.
Qed.

(** *** Writing and reading back *)

(** An entry that is not older than any other stays last in the sort. *)
Lemma insertByTimestamp_last (y x : string * CacheEntry) (l : list (string * CacheEntry)) :
  timestamp y.2 <= timestamp x.2 ->
  insertByTimestamp y (l ++ [x]) = (insertByTimestamp y l ++ [x])%list.
Proof.
  intros Hle. induction l as [|z l IH]; simpl.
  - apply Z.leb_le in Hle. now rewrite Hle.
  - destruct (timestamp y.2 <=? timestamp z.2); [reflexivity|]. now rewrite IH.
Qed.

Lemma sortByTimestamp_last (x : string * CacheEntry) (c : list (string * CacheEntry)) :
  (forall y, In y c -> timestamp y.2 <= timestamp x.2) ->
  sortByTimestamp (c ++ [x]) = (sortByTimestamp c ++ [x])%list.
Proof.
  induction c as [|y c IH]; intros Hall; simpl; [reflexivity|].
  rewrite IH by (intros z Hz; apply Hall; now right).
  apply insertByTimestamp_last, Hall. now left.
Qed.

Lemma get_deletes_other {V} (key : string) (toRemove m : list (string * V)) :
  ~ In key (List.map fst toRemove) ->
  JsMap.get key (fold_left (fun c e => JsMap.delete e.1 c) toRemove m) = JsMap.get key m.
Proof.
  revert m. induction toRemove as [|r toRemove IH]; intros m Hn; simpl; [reflexivity|].
  rewrite IH by (intros Hin; apply Hn; now right).
  rewrite get_delete. destruct (String.eqb r.1 key) eqn:E; [|reflexivity].
  apply String.eqb_eq in E. exfalso. apply Hn. now left.
Qed.

Lemma set_existing_length {V} (key : string) (v : V) (m : list (string * V)) :
  In key (List.map fst m) -> length (JsMap.set key v m) = length m.
Proof.
  intros Hin.
  assert (H : length (List.map fst (JsMap.set key v m)) = length (List.map fst m)).
  { rewrite set_keys.
    assert (existsb (String.eqb key) (List.map fst m) = true) as ->; [|reflexivity].
    apply existsb_exists. exists key. split; [exact Hin | apply String.eqb_refl]. }
  now rewrite !length_map in H.
Qed.

(** The eviction that follows a write does not remove the entry written,
    when no entry of the cache is younger. *)
Lemma put_get_back (cacheKey : string) (analysis : list Field.t) (now : Z)
    (cache : list (string * CacheEntry)) :
  NoDup (List.map fst cache) ->
  (JsMap.size cache <= maxSize)%nat ->
  (forall e, In e cache -> timestamp e.2 <= now) ->
  JsMap.get cacheKey (put cacheKey analysis now cache)
  = Some {| data := analysis; timestamp := now |}.
Proof.
  intros Hnd Hsize Hold.
  unfold put. unfold JsMap.size in Hsize.
  {
    destruct (in_dec String.string_dec cacheKey (List.map fst cache)) as [Hin|Hfresh].
    - rewrite cleanupCache_small; [apply get_set_eq|].
      now rewrite set_existing_length.
    - rewrite (set_fresh _ _ _ Hfresh).
      set (x := (cacheKey, {| data := analysis; timestamp := now |})).
      assert (Hgetx : JsMap.get cacheKey (cache ++ [x]) = Some x.2).
      { unfold x. rewrite <- (set_fresh cacheKey _ cache Hfresh). apply get_set_eq. }
      unfold cleanupCache, JsMap.size.
      destruct (maxSize <? length (cache ++ [x]))%nat; [|exact Hgetx].
      rewrite get_deletes_other; [exact Hgetx|].
      rewrite sortByTimestamp_last by (intros y Hy; apply (Hold y Hy)).
      rewrite length_app. simpl length.
      rewrite firstn_app.
      replace (length cache + 1 - maxSize - length (sortByTimestamp cache))%nat with 0%nat.
      + simpl firstn at 2. rewrite app_nil_r.
        intros Hin. apply Hfresh.
        apply in_map_iff in Hin as (e & He & Hin).
        apply in_map_iff. exists e. split; [exact He|].
        apply (Permutation_in _ (sortByTimestamp_perm cache)).
        rewrite <- (firstn_skipn (length cache + 1 - maxSize) (sortByTimestamp cache)).
        apply in_or_app. now left.
      + rewrite (Permutation_length (sortByTimestamp_perm cache)).
        unfold maxSize. lia. }
Qed.

(** An entry found with its timestamp is served until its lifetime ends. *)
Lemma lookup_fresh (cacheKey : string) (analysis : list Field.t) (now later : Z)
    (cache : list (string * CacheEntry)) :
  JsMap.get cacheKey cache = Some {| data := analysis; timestamp := now |} ->
  later - now <= ttl ->
  lookup cacheKey later cache = Some analysis.
Proof.
  intros Hget Hlater. unfold lookup. rewrite Hget. unfold isCacheExpired. simpl.
  assert ((ttl <? later - now) = false) as -> by (apply Z.ltb_ge; lia).
  reflexivity.
Qed.

(** X11: an entry written into a cache that respects its capacity, at a
    time that is not before the timestamp of any entry, is found under its
    key right after the write, and by every lookup made within the
    lifetime: the eviction that follows the write never removes it. *)
Theorem X11_put_then_get (cacheKey : string) (analysis : list Field.t) (now : Z)
    (cache : list (string * CacheEntry)) :
  NoDup (List.map fst cache) ->
  (JsMap.size cache <= maxSize)%nat ->
  (forall e, In e cache -> timestamp e.2 <= now) ->
  JsMap.get cacheKey (put cacheKey analysis now cache)
  = Some {| data := analysis; timestamp := now |}
  /\ (forall later, later - now <= ttl ->
        lookup cacheKey later (put cacheKey analysis now cache) = Some analysis).
Proof.
  intros Hnd Hsize Hold.
  pose proof (put_get_back cacheKey analysis now cache Hnd Hsize Hold) as Hget.
  split; [exact Hget|].
  intros later Hlater. unfold lookup. rewrite Hget.
  unfold isCacheExpired. cbn [timestamp data].
  destruct (ttl <? later - now) eqn:E; [|reflexivity].
  apply Z.ltb_lt in E. lia.
Qed.

(** An instance: a write into the cache the first sample call left. *)
Lemma X11_witness :
  JsMap.get "fields-k" (put "fields-k" [] (Samples.t0 + 5000)
                          (fieldAnalysis (state Samples.firstCall)))
  = Some {| data := []; timestamp := Samples.t0 + 5000 |}
  /\ (forall later, later - (Samples.t0 + 5000) <= ttl ->
        lookup "fields-k" later
          (put "fields-k" [] (Samples.t0 + 5000) (fieldAnalysis (state Samples.firstCall)))
        = Some []).
Proof.
  apply (X11_put_then_get "fields-k" [] (Samples.t0 + 5000)
           (fieldAnalysis (state Samples.firstCall))).
  - apply nodupb_sound. vm_compute. reflexivity.
  - vm_compute. lia.
  - intros e He. vm_compute in He. destruct He as [<- | []]. vm_compute. discriminate.
Defined.

(** *** The state between calls *)

Lemma canMakeRequest_usage (now : Z) (rl : RateLimit) :
  0 <= dailyUsage rl <= requestsPerDay ->
  0 <= dailyUsage (canMakeRequest now rl).2 <= requestsPerDay
  /\ ((canMakeRequest now rl).1 = true ->
      dailyUsage (canMakeRequest now rl).2 < requestsPerDay).
Proof.
  intros Hu. unfold canMakeRequest.
  destruct (24 * 60 * 60 * 1000 <? now - dailyResetTime rl).
  - change (requestsPerDay <=? _) with false. cbn. unfold requestsPerDay. lia.
  - destruct (requestsPerDay <=? dailyUsage rl) eqn:E; cbn [fst snd].
    + split; [exact Hu | discriminate].
    + apply Z.leb_gt in E. split; [exact Hu | intros _; exact E].
Qed.

Lemma call_wellFormed (st : State) (c : Client.Call) :
  Client.wellFormed st -> Client.wellFormed (Client.call st c).
Proof.
  intros (Hu & Hnd & Hsize). unfold Client.call, analyzeFields, Client.wellFormed.
  destruct (canMakeRequest_usage (atAdmission (Client.clock c)) (RATE_LIMIT st) Hu)
    as [Hu' Hgrant].
  destruct (canMakeRequest (atAdmission (Client.clock c)) (RATE_LIMIT st)) as [granted rl].
  cbn [fst snd] in *.
  destruct granted; cbn [negb]; [|simpl; auto].
  destruct (lookup _ _ _); [simpl; auto|].
  destruct (Client.remote c) as [|parsed]; [simpl; auto|].
  cbn [state RATE_LIMIT fieldAnalysis updateRateLimit dailyUsage].
  specialize (Hgrant eq_refl). split; [lia|].
  apply put_bound, Hnd.
Qed.

(** [cleanupCache] looks at the keys and the timestamps only, so what it
    does to a map of questions is what it does to the map of their keys and
    timestamps. *)
Lemma cleanupBy_stamp {E} (time : E -> Z) (cache : list (string * E)) :
  List.map (Client.stamp time) (Client.cleanupBy time cache)
  = cleanupCache (List.map (Client.stamp time) cache).
Proof.
  assert (Hins : forall x l,
             List.map (Client.stamp time) (Client.insertBy time x l)
             = insertByTimestamp (Client.stamp time x) (List.map (Client.stamp time) l)).
  { intros x l. induction l as [|y l IH]; simpl; [reflexivity|].
    destruct (time x.2 <=? time y.2); simpl; [reflexivity | now rewrite IH]. }
  assert (Hsort : forall l,
             List.map (Client.stamp time) (Client.sortBy time l)
             = sortByTimestamp (List.map (Client.stamp time) l)).
  { induction l as [|x l IH]; simpl; [reflexivity|]. now rewrite Hins, IH. }
  assert (Hdel : forall toRemove c,
             List.map (Client.stamp time) (fold_left (fun c e => JsMap.delete e.1 c) toRemove c)
             = fold_left (fun c e => JsMap.delete e.1 c)
                 (List.map (Client.stamp time) toRemove) (List.map (Client.stamp time) c)).
  { induction toRemove as [|r toRemove IH]; intros c; simpl; [reflexivity|].
    rewrite IH. f_equal. unfold JsMap.delete.
    induction c as [|y c IHc]; simpl; [reflexivity|].
    destruct (negb (String.eqb y.1 r.1)); simpl; now rewrite IHc. }
  unfold Client.cleanupBy, cleanupCache, JsMap.size. rewrite length_map.
  destruct (maxSize <? length cache)%nat; [|reflexivity].
  now rewrite Hdel, <- firstn_map, Hsort.
Qed.

Lemma cleanupBy_bound {E} (time : E -> Z) (cache : list (string * E)) :
  NoDup (List.map fst cache) ->
  NoDup (List.map fst (Client.cleanupBy time cache))
  /\ (length (Client.cleanupBy time cache) <= maxSize)%nat.
Proof.
  intros Hnd.
  assert (Hkeys : forall c : list (string * E),
             List.map fst (List.map (Client.stamp time) c) = List.map fst c).
  { intros c. rewrite map_map. reflexivity. }
  destruct (cleanupCache_bound (List.map (Client.stamp time) cache)) as [H1 H2].
  { now rewrite Hkeys. }
  rewrite <- cleanupBy_stamp in H1, H2.
  rewrite Hkeys in H1. rewrite length_map in H2. auto.
Qed.

Lemma anyCall_wellFormed (s : Client.Store) (c : Client.AnyCall) :
  Client.wellFormedStore s -> Client.wellFormedStore (Client.anyCall s c).
Proof.
  intros (Hbase & Hnd & Hsize). destruct c as [c | library clock remote text context].
  - split; [|split; assumption]. now apply call_wellFormed.
  - destruct Hbase as (Hu & Hfnd & Hfsize).
    unfold Client.anyCall, Client.analyzeQuestion, Client.wellFormedStore, Client.wellFormed.
    destruct (canMakeRequest_usage (atAdmission clock) (RATE_LIMIT (Client.base s)) Hu)
      as [Hu' Hgrant].
    destruct (canMakeRequest (atAdmission clock) (RATE_LIMIT (Client.base s)))
      as [granted rl].
    cbn [fst snd] in *.
    destruct granted; cbn [negb]; [|simpl; auto].
    match goal with |- context [match ?x with Some _ => _ | None => _ end] =>
      destruct x end; [simpl; auto|].
    destruct remote as [|parsed]; [simpl; auto|].
    cbn [Client.store Client.base Client.questionAnalysis RATE_LIMIT fieldAnalysis
         updateRateLimit dailyUsage].
    specialize (Hgrant eq_refl).
    split; [split; [lia | auto]|].
    apply cleanupBy_bound, set_NoDup, Hnd.
Qed.

(** *** Overlapping calls *)

Lemma canMakeRequest_again (now : Z) (rl : RateLimit) :
  canMakeRequest now (canMakeRequest now rl).2 = canMakeRequest now rl.
Proof.
  unfold canMakeRequest.
  destruct (24 * 60 * 60 * 1000 <? now - dailyResetTime rl) eqn:E.
  - cbn [dailyResetTime dailyUsage lastRequestTime].
    change (requestsPerDay <=? 0) with false. cbn [snd dailyResetTime].
    replace (now - now) with 0 by lia.
    change (24 * 60 * 60 * 1000 <? 0) with false. reflexivity.
  - destruct (requestsPerDay <=? dailyUsage rl) eqn:E'; cbn [snd]; now rewrite E, E'.
Qed.

Lemma canMakeRequest_nonneg (now : Z) (rl : RateLimit) :
  0 <= dailyUsage rl -> 0 <= dailyUsage (canMakeRequest now rl).2.
Proof.
  intros H. unfold canMakeRequest.
  destruct (24 * 60 * 60 * 1000 <? now - dailyResetTime rl).
  - change (requestsPerDay <=? _) with false. cbn. lia.
  - destruct (requestsPerDay <=? dailyUsage rl); exact H.
Qed.

(** What every piece of a call keeps. *)
Lemma segment_inv (s : Client.Store) (g : Async.Segment) :
  0 <= dailyUsage (RATE_LIMIT (Client.base s))
  /\ NoDup (List.map fst (fieldAnalysis (Client.base s)))
  /\ (JsMap.size (fieldAnalysis (Client.base s)) <= maxSize)%nat
  /\ NoDup (List.map fst (Client.questionAnalysis s))
  /\ (JsMap.size (Client.questionAnalysis s) <= maxSize)%nat ->
  0 <= dailyUsage (RATE_LIMIT (Client.base (Async.segment s g)))
  /\ NoDup (List.map fst (fieldAnalysis (Client.base (Async.segment s g))))
  /\ (JsMap.size (fieldAnalysis (Client.base (Async.segment s g))) <= maxSize)%nat
  /\ NoDup (List.map fst (Client.questionAnalysis (Async.segment s g)))
  /\ (JsMap.size (Client.questionAnalysis (Async.segment s g)) <= maxSize)%nat.
Proof.
  intros (Hu & Hfnd & Hfsize & Hqnd & Hqsize).
  destruct g as [now | now | cacheKey analysis now | cacheKey analysis now];
    cbn [Async.segment Client.withRateLimit Client.base Client.questionAnalysis
         RATE_LIMIT fieldAnalysis].
  - split; [now apply canMakeRequest_nonneg | auto].
  - split; [cbn; lia | auto].
  - destruct (put_bound cacheKey analysis now _ Hfnd). auto.
  - destruct (cleanupBy_bound Client.timestamp
                (JsMap.set cacheKey
                   {| Client.data := analysis; Client.timestamp := now |}
                   (Client.questionAnalysis s))) as [H1 H2]; [now apply set_NoDup|].
    auto.
Qed.

(** A call that no other call interrupts is the run of its pieces. *)
Lemma segmentsOf_anyCall (c : Client.AnyCall) (s : Client.Store) :
  Async.runSegments (Async.segmentsOf c s) s = Client.anyCall s c.
Proof.
  destruct s as [[rl fa] qa].
  destruct c as [c | library clock remote text context];
    unfold Async.runSegments, Async.segmentsOf, Client.anyCall, Client.call,
      analyzeFields, Client.analyzeQuestion;
    cbn [Client.base Client.questionAnalysis RATE_LIMIT fieldAnalysis].
  - destruct (canMakeRequest (atAdmission (Client.clock c)) rl) as [granted rl'] eqn:E.
    destruct granted; cbn [negb].
    + destruct (lookup _ _ _); [|destruct (Client.remote c)];
        cbn [fold_left Async.segment Client.withRateLimit Client.base
             Client.questionAnalysis RATE_LIMIT fieldAnalysis state];
        rewrite ?E; reflexivity.
    + cbn [fold_left Async.segment Client.withRateLimit Client.base
           Client.questionAnalysis RATE_LIMIT fieldAnalysis state].
      now rewrite E.
  - destruct (canMakeRequest (atAdmission clock) rl) as [granted rl'] eqn:E.
    destruct granted; cbn [negb].
    + match goal with |- context [match ?x with Some _ => _ | None => _ end] =>
        destruct x end; [|destruct remote];
        cbn [fold_left Async.segment Client.withRateLimit Client.base
             Client.questionAnalysis RATE_LIMIT fieldAnalysis Client.store];
        rewrite ?E; reflexivity.
    + cbn [fold_left Async.segment Client.withRateLimit Client.base
           Client.questionAnalysis RATE_LIMIT fieldAnalysis Client.store].
      now rewrite E.
Qed.

Lemma serial_runAll (calls : list Client.AnyCall) (s : Client.Store) :
  Async.runSegments (Async.serial calls s) s = Client.runAll calls s.
Proof.
  revert s. induction calls as [|c calls IH]; intros s; [reflexivity|].
  cbn [Async.serial]. unfold Async.runSegments. rewrite fold_left_app.
  fold (Async.runSegments (Async.segmentsOf c s) s). rewrite segmentsOf_anyCall.
  apply IH.
Qed.

Lemma admissions_granted (now : Z) (k : nat) (s : Client.Store) :
  RATE_LIMIT (Client.base (Async.runSegments (repeat (Async.Admission now) (S k)) s))
  = (canMakeRequest now (RATE_LIMIT (Client.base s))).2.
Proof.
  revert s. induction k as [|k IH]; intros s; [reflexivity|].
  change (repeat (Async.Admission now) (S (S k)))
    with (Async.Admission now :: repeat (Async.Admission now) (S k)).
  unfold Async.runSegments. cbn [fold_left].
  fold (Async.runSegments (repeat (Async.Admission now) (S k))
          (Async.segment s (Async.Admission now))).
  rewrite IH. cbn [Async.segment Client.withRateLimit Client.base RATE_LIMIT].
  now rewrite canMakeRequest_again.
Qed.

Lemma commitments_usage (times : list Z) (s : Client.Store) :
  dailyUsage (RATE_LIMIT (Client.base
                (Async.runSegments (List.map Async.Commitment times) s)))
  = dailyUsage (RATE_LIMIT (Client.base s)) + Z.of_nat (length times).
Proof.
  revert s. induction times as [|t times IH]; intros s; [simpl; lia|].
  unfold Async.runSegments. cbn [List.map fold_left].
  fold (Async.runSegments (List.map Async.Commitment times)
          (Async.segment s (Async.Commitment t))).
  rewrite IH. cbn [Async.segment Client.withRateLimit Client.base RATE_LIMIT
                   updateRateLimit dailyUsage length].
  lia.
Qed.

(** X12: however calls of [analyzeFields] and [analyzeQuestion] overlap,
    from the state of a freshly loaded module on, each of the two caches
    keeps one entry per key and at most [maxSize] entries, and the daily
    counter is never negative (the remaining quota [getUsageStats] reports
    never exceeds [requestsPerDay]).  The daily limit itself holds only
    between calls that do not overlap: when each call is awaited before
    the next is made, the remaining quota is never negative; but calls
    made at the same instant, before the request of any of them has
    returned, all pass the admission check that the first one passes, and
    each request that returns adds 1 to the counter, whatever the limit. *)
Theorem X12_state_invariant :
  (forall segments : list Async.Segment,
      Client.remainingToday
        (Client.getUsageStats (Async.runSegments segments Client.loaded))
      <= requestsPerDay
      /\ (Client.fieldAnalysisSize
            (Client.getUsageStats (Async.runSegments segments Client.loaded))
          <= maxSize)%nat
      /\ (Client.questionAnalysisSize
            (Client.getUsageStats (Async.runSegments segments Client.loaded))
          <= maxSize)%nat
      /\ NoDup (List.map fst (fieldAnalysis
                   (Client.base (Async.runSegments segments Client.loaded))))
      /\ NoDup (List.map fst (Client.questionAnalysis
                   (Async.runSegments segments Client.loaded))))
  /\ (forall calls : list Client.AnyCall,
        Async.runSegments (Async.serial calls Client.loaded) Client.loaded
        = Client.runAll calls Client.loaded
        /\ 0 <= Client.remainingToday
                  (Client.getUsageStats (Client.runAll calls Client.loaded)))
  /\ (forall (s : Client.Store) (now t : Z) (times : list Z),
        (canMakeRequest now (RATE_LIMIT (Client.base s))).1 = true ->
        (forall k : nat,
            (canMakeRequest now
               (RATE_LIMIT (Client.base
                  (Async.runSegments (repeat (Async.Admission now) k) s)))).1 = true)
        /\ Client.statDailyUsage
             (Client.getUsageStats
                (Async.runSegments (Async.overlapping now (t :: times)) s))
           = dailyUsage (canMakeRequest now (RATE_LIMIT (Client.base s))).2
             + Z.of_nat (length (t :: times))).
Proof.
  split; [|split].
  - intros segments.
    assert (H : forall s,
               0 <= dailyUsage (RATE_LIMIT (Client.base s))
               /\ NoDup (List.map fst (fieldAnalysis (Client.base s)))
               /\ (JsMap.size (fieldAnalysis (Client.base s)) <= maxSize)%nat
               /\ NoDup (List.map fst (Client.questionAnalysis s))
               /\ (JsMap.size (Client.questionAnalysis s) <= maxSize)%nat ->
               0 <= dailyUsage (RATE_LIMIT (Client.base (Async.runSegments segments s)))
               /\ NoDup (List.map fst (fieldAnalysis
                            (Client.base (Async.runSegments segments s))))
               /\ (JsMap.size (fieldAnalysis (Client.base (Async.runSegments segments s)))
                   <= maxSize)%nat
               /\ NoDup (List.map fst (Client.questionAnalysis
                            (Async.runSegments segments s)))
               /\ (JsMap.size (Client.questionAnalysis (Async.runSegments segments s))
                   <= maxSize)%nat).
    { unfold Async.runSegments.
      induction segments as [|g segments IH]; intros s Hs; [exact Hs|].
      cbn [fold_left]. apply IH, segment_inv, Hs. }
    destruct (H Client.loaded) as (Hu & Hfnd & Hfsize & Hqnd & Hqsize).
    { unfold Client.loaded, initial, JsMap.size. simpl.
      split; [lia|]. split; [constructor|]. split; [lia|]. split; [constructor | lia]. }
    unfold Client.getUsageStats. simpl.
    split; [lia | auto].
  - intros calls. split; [apply serial_runAll|].
    assert (H : forall s, Client.wellFormedStore s ->
                          Client.wellFormedStore (Client.runAll calls s)).
    { unfold Client.runAll. induction calls as [|c calls IH]; intros s Hs; simpl; [exact Hs|].
      apply IH, anyCall_wellFormed, Hs. }
    destruct (H Client.loaded) as ((Hu & _) & _).
    { unfold Client.wellFormedStore, Client.wellFormed, Client.loaded, initial.
      cbn [Client.base Client.questionAnalysis RATE_LIMIT fieldAnalysis dailyUsage].
      unfold JsMap.size, requestsPerDay. simpl.
      split; [split; [lia | split; [constructor | lia]]|].
      split; [constructor | lia]. }
    unfold Client.getUsageStats. simpl. lia.
  - intros s now t times Hgrant. split.
    + intros [|k]; [exact Hgrant|].
      now rewrite admissions_granted, canMakeRequest_again.
    + unfold Async.overlapping, Async.runSegments. rewrite fold_left_app.
      fold (Async.runSegments (repeat (Async.Admission now) (length (t :: times))) s).
      fold (Async.runSegments (List.map Async.Commitment (t :: times))
              (Async.runSegments (repeat (Async.Admission now) (length (t :: times))) s)).
      unfold Client.getUsageStats. cbn [Client.statDailyUsage].
      rewrite commitments_usage. cbn [length]. now rewrite admissions_granted.
Qed.

(** An instance: after 1499 requests of the day, two calls made at the
    same instant are both admitted, and when both requests have returned
    the remaining quota is -1. *)
Lemma X12_witness :
  (canMakeRequest (Samples.t0 + 3002000)
     (RATE_LIMIT (Client.base
        (Async.runSegments [Async.Admission (Samples.t0 + 3002000)] Cases.almostSpent)))).1
  = true
  /\ Client.remainingToday
       (Client.getUsageStats
          (Async.runSegments
             (Async.overlapping (Samples.t0 + 3002000)
                [Samples.t0 + 3002400; Samples.t0 + 3002500])
             Cases.almostSpent))
     = -1.
Proof.
  destruct (proj2 (proj2 X12_state_invariant) Cases.almostSpent (Samples.t0 + 3002000)
              (Samples.t0 + 3002400) [Samples.t0 + 3002500]) as [Hall Husage].
  - vm_compute. reflexivity.
  - split; [exact (Hall 1%nat)|].
    unfold Client.getUsageStats in *. cbn [Client.remainingToday Client.statDailyUsage] in *.
    rewrite Husage. vm_compute. reflexivity.
Defined.


(** *** Cache keys *)

(** The first four characters of the encoding are those of the first
    three characters encoded, and so on. *)
Lemma btoa_prefix (n : nat) (s : string) :
  substring0 (n * 4) (btoa s) = substring0 (n * 4) (btoa (substring0 (n * 3) s)).
Proof.
  assert (H0 : forall t, substring0 0 t = EmptyString) by (intros t; now destruct t).
  revert s. induction n as [|n IH]; intros s; [cbn [Nat.mul]; now rewrite !H0|].
  destruct s as [|a [|b [|c r]]]; try reflexivity.
  cbn [Nat.mul Nat.add substring0 String.substring btoa].
  unfold substring0 in IH. now rewrite IH.
Qed.

Lemma generateFieldCacheKey_keyText (fields : list Field.t) (context : Context) :
  generateFieldCacheKey fields context
  = "fields-" ++ substring0 32 (btoa (Client.keyText fields context)).
Proof. reflexivity. Qed.

(** X14: the key of a batch depends on the first 24 characters of the
    encoded text only: two batches (with their contexts) whose texts agree
    on these have the same key, whatever fields and context follow. *)
Theorem X14_field_key_prefix (fields1 fields2 : list Field.t) (context1 context2 : Context) :
  substring0 24 (Client.keyText fields1 context1)
  = substring0 24 (Client.keyText fields2 context2) ->
  generateFieldCacheKey fields1 context1 = generateFieldCacheKey fields2 context2.
Proof.
  intros H. rewrite !generateFieldCacheKey_keyText. f_equal.
  change 32%nat with (8 * 4)%nat. rewrite (btoa_prefix 8 (Client.keyText fields1 context1)).
  rewrite (btoa_prefix 8 (Client.keyText fields2 context2)).
  change (8 * 3)%nat with 24%nat. now rewrite H.
Qed.

(** An instance: a batch of one input and a batch of two on another page. *)
Lemma X14_witness :
  generateFieldCacheKey Cases.shortBatch Samples.context
  = generateFieldCacheKey Cases.longBatch Cases.otherContext.
Proof.
  apply (X14_field_key_prefix Cases.shortBatch Cases.longBatch
           Samples.context Cases.otherContext).
  vm_compute. reflexivity.
Defined.

(** What a call returns when admission is granted and the lookup hits. *)
Lemma analyzeFields_hit (clock : Clock) (remote : Remote) (fields : list Field.t)
    (context : Context) (st : State) (cached : list Field.t) :
  (canMakeRequest (atAdmission clock) (RATE_LIMIT st)).1 = true ->
  lookup (generateFieldCacheKey fields context) (atLookup clock) (fieldAnalysis st)
  = Some cached ->
  result (analyzeFields clock remote fields context st) = cached
  /\ requests (analyzeFields clock remote fields context st) = 0%nat.
Proof.
  intros Hgrant Hhit. unfold analyzeFields.
  destruct (canMakeRequest (atAdmission clock) (RATE_LIMIT st)) as [granted rl].
  simpl in Hgrant. subst granted. simpl. rewrite Hhit. auto.
Qed.

(** What a call that reaches the provider and is answered leaves. *)
Lemma analyzeFields_answered (clock : Clock) (parsed : option (list Analysis))
    (fields : list Field.t) (context : Context) (st : State) :
  requests (analyzeFields clock (RemoteSuccess parsed) fields context st) = 1%nat ->
  result (analyzeFields clock (RemoteSuccess parsed) fields context st)
  = parseFieldAnalysisResponse parsed fields
  /\ fieldAnalysis (state (analyzeFields clock (RemoteSuccess parsed) fields context st))
     = put (generateFieldCacheKey fields context) (parseFieldAnalysisResponse parsed fields)
         (atStore clock) (fieldAnalysis st)
  /\ dailyUsage (RATE_LIMIT (state (analyzeFields clock (RemoteSuccess parsed)
                                      fields context st)))
     = dailyUsage (canMakeRequest (atAdmission clock) (RATE_LIMIT st)).2 + 1
  /\ lastRequestTime (RATE_LIMIT (state (analyzeFields clock (RemoteSuccess parsed)
                                           fields context st)))
     = atCommit clock.
Proof.
  unfold analyzeFields.
  destruct (canMakeRequest (atAdmission clock) (RATE_LIMIT st)) as [granted rl].
  destruct granted; simpl; [|discriminate].
  destruct (lookup _ _ _); simpl; [discriminate|]. auto.
Qed.

(** X15: the cache does not record which batch an entry was stored for.  A
    call for a batch whose key equals the key of an earlier, answered call
    is served, admission granted and the entry not expired, the result of
    that earlier call and makes no request, whatever the two batches are. *)
Theorem X15_hit_for_another_batch (clock1 clock2 : Clock)
    (parsed : option (list Analysis)) (remote2 : Remote)
    (fields1 fields2 : list Field.t) (context1 context2 : Context)
    (st : State) (e : CacheEntry) :
  generateFieldCacheKey fields1 context1 = generateFieldCacheKey fields2 context2 ->
  requests (analyzeFields clock1 (RemoteSuccess parsed) fields1 context1 st) = 1%nat ->
  JsMap.get (generateFieldCacheKey fields1 context1)
    (fieldAnalysis (state (analyzeFields clock1 (RemoteSuccess parsed) fields1 context1 st)))
  = Some e ->
  isCacheExpired (atLookup clock2) e = false ->
  (canMakeRequest (atAdmission clock2)
     (RATE_LIMIT (state (analyzeFields clock1 (RemoteSuccess parsed) fields1 context1 st)))).1
  = true ->
  result (analyzeFields clock2 remote2 fields2 context2
            (state (analyzeFields clock1 (RemoteSuccess parsed) fields1 context1 st)))
  = result (analyzeFields clock1 (RemoteSuccess parsed) fields1 context1 st)
  /\ requests (analyzeFields clock2 remote2 fields2 context2
                 (state (analyzeFields clock1 (RemoteSuccess parsed) fields1 context1 st)))
     = 0%nat.
Proof.
  intros Hkey Hreq Hget Hfresh Hgrant.
  destruct (analyzeFields_answered clock1 parsed fields1 context1 st Hreq)
    as (Hres & Hcache & _).
  rewrite Hcache in Hget. pose proof (get_put _ _ _ _ _ Hget) as He.
  rewrite <- Hcache in Hget.
  apply analyzeFields_hit; [exact Hgrant|].
  unfold lookup. rewrite <- Hkey, Hget, Hfresh. simpl. now rewrite He, Hres.
Qed.

(** An instance: the analysis of a batch of one input is served for a batch
    of two inputs on another page. *)
Lemma X15_witness :
  result (analyzeFields (Samples.clockAfter 2000) RemoteFailure
            Cases.longBatch Cases.otherContext (state Cases.shortCall))
  = result Cases.shortCall
  /\ requests (analyzeFields (Samples.clockAfter 2000) RemoteFailure
                 Cases.longBatch Cases.otherContext (state Cases.shortCall)) = 0%nat.
Proof.
  apply (X15_hit_for_another_batch Samples.firstClock (Samples.clockAfter 2000) _
           RemoteFailure Cases.shortBatch Cases.longBatch Samples.context
           Cases.otherContext initial
           {| data := result Cases.shortCall; timestamp := Samples.t0 + 401 |}).
  - vm_compute. reflexivity.
  - vm_compute. reflexivity.
  - vm_compute. reflexivity.
  - vm_compute. reflexivity.
  - vm_compute. reflexivity.
Defined.

(** X10: a response that cannot be read is committed and cached like any
    other.  With admission granted and no entry served from the cache, a
    batch whose key can be built (no code unit above 255 in the text of
    the key) is returned as it was given, the call uses one unit of the
    daily quota and, in a cache that respects its capacity and holds no
    younger entry, the array it returned is what every lookup for the
    batch finds within the lifetime (the entry holds the array itself, not
    a copy).  When the key cannot be built, the call makes no request and
    no entry: it answers with the fallback analysis. *)
Theorem X10_unreadable_response_is_cached (clock : Clock)
    (fields : list Field.t) (context : Context) (st : State) :
  (canMakeRequest (atAdmission clock) (RATE_LIMIT st)).1 = true ->
  (forall remote : Remote,
      result (Async.analyzeFieldsWith None clock remote fields st)
      = fallbackFieldAnalysis fields
      /\ requests (Async.analyzeFieldsWith None clock remote fields st) = 0%nat
      /\ fieldAnalysis (state (Async.analyzeFieldsWith None clock remote fields st))
         = fieldAnalysis st
      /\ RATE_LIMIT (state (Async.analyzeFieldsWith None clock remote fields st))
         = (canMakeRequest (atAdmission clock) (RATE_LIMIT st)).2)
  /\ Async.analyzeFieldsWith (Some (generateFieldCacheKey fields context)) clock
       (RemoteSuccess None) fields st
     = analyzeFields clock (RemoteSuccess None) fields context st
  /\ (lookup (generateFieldCacheKey fields context) (atLookup clock) (fieldAnalysis st)
      = None ->
      result (analyzeFields clock (RemoteSuccess None) fields context st) = fields
      /\ requests (analyzeFields clock (RemoteSuccess None) fields context st) = 1%nat
      /\ dailyUsage (RATE_LIMIT (state (analyzeFields clock (RemoteSuccess None)
                                          fields context st)))
         = dailyUsage (canMakeRequest (atAdmission clock) (RATE_LIMIT st)).2 + 1
      /\ (NoDup (List.map fst (fieldAnalysis st)) ->
          (JsMap.size (fieldAnalysis st) <= maxSize)%nat ->
          (forall e, In e (fieldAnalysis st) -> timestamp e.2 <= atStore clock) ->
          forall later, later - atStore clock <= ttl ->
            lookup (generateFieldCacheKey fields context) later
              (fieldAnalysis (state (analyzeFields clock (RemoteSuccess None)
                                       fields context st)))
            = Some (result (analyzeFields clock (RemoteSuccess None) fields context st)))).
Proof.
  intros Hgrant. split; [|split].
  - intros remote. unfold Async.analyzeFieldsWith.
    destruct (canMakeRequest (atAdmission clock) (RATE_LIMIT st)) as [granted rl].
    simpl in Hgrant. subst granted. simpl. auto.
  - reflexivity.
  - intros Hmiss.
    assert (Hreq : requests (analyzeFields clock (RemoteSuccess None) fields context st)
                   = 1%nat).
    { unfold analyzeFields.
      destruct (canMakeRequest (atAdmission clock) (RATE_LIMIT st)) as [granted rl].
      simpl in Hgrant. subst granted. simpl. now rewrite Hmiss. }
    destruct (analyzeFields_answered clock None fields context st Hreq)
      as (Hres & Hcache & Husage & _).
    split; [exact Hres|]. split; [exact Hreq|]. split; [exact Husage|].
    intros Hnd Hsize Hold later Hlater.
    rewrite Hcache, Hres. simpl parseFieldAnalysisResponse.
    apply (lookup_fresh _ _ (atStore clock)); [|exact Hlater].
    now apply put_get_back.
Qed.

(** An instance: the first sample call, answered without an array. *)
Lemma X10_witness :
  result (Async.analyzeFieldsWith None Samples.firstClock (RemoteSuccess None)
            [Samples.companyField] initial)
  = fallbackFieldAnalysis [Samples.companyField]
  /\ result Samples.firstCall = [Samples.companyField]
  /\ requests Samples.firstCall = 1%nat
  /\ dailyUsage (RATE_LIMIT (state Samples.firstCall)) = 1
  /\ (forall later, later - (Samples.t0 + 401) <= ttl ->
        lookup (generateFieldCacheKey [Samples.companyField] Samples.context) later
          (fieldAnalysis (state Samples.firstCall))
        = Some [Samples.companyField]).
Proof.
  destruct (X10_unreadable_response_is_cached Samples.firstClock [Samples.companyField]
              Samples.context initial) as (Hnone & _ & Hsome).
  - vm_compute. reflexivity.
  - destruct (Hnone (RemoteSuccess None)) as (Hfb & _).
    destruct (Hsome eq_refl) as (Hres & Hreq & Husage & Hlater).
    split; [exact Hfb|]. split; [exact Hres|]. split; [exact Hreq|].
    split; [exact Husage|].
    intros later H. unfold Samples.firstCall in *.
    rewrite <- Hres at 2. apply Hlater; [constructor | vm_compute; lia | intros e [] | exact H].
Defined.


(* ===================================================================== *)
(** ** Properties of the question client *)
(* ===================================================================== *)

Lemma orNumber_nonzero (o : option Q) : ~ (Client.orNumber o (1 # 2) == 0)%Q.
Proof.
  unfold Client.orNumber. destruct o as [x|]; [|discriminate].
  destruct (Qeq_bool x 0) eqn:E; [discriminate|].
  intros H. apply Qeq_bool_iff in H. congruence.
Qed.

(** The two functions that produce an analysis. *)
Lemma produced_confidence (r : Client.QuestionAnalysis) :
  (exists parsed, r = Client.parseQuestionAnalysisResponse parsed)
  \/ (exists library text, r = Client.fallbackQuestionAnalysis library text) ->
  ((Client.confidence r == 0)%Q <->
   Client.source r = "fallback" \/ Client.source r = "error")
  /\ In (Client.source r) ["llm"; "error"; "template_fallback"; "fallback"].
Proof.
  intros [[parsed ->] | (library & text & ->)].
  - destruct parsed as [analysis|]; simpl.
    + split; [|tauto]. split.
      * intros H. now apply orNumber_nonzero in H.
      * intros [H|H]; discriminate H.
    + split; [|tauto]. split; [now right | reflexivity].
  - unfold Client.fallbackQuestionAnalysis.
    destruct (match library with Some find => find text | None => None end); simpl.
    + split; [|tauto]. split.
      * intros H. now apply orNumber_nonzero in H.
      * intros [H|H]; discriminate H.
    + split; [|tauto]. split; [now left | reflexivity].
Qed.

(** X16: an answer of [analyzeQuestion] that does not come from the cache
    carries one of the four sources, and its confidence is 0 exactly when
    the source is "fallback" or "error": an analysis by the model or by a
    template never has confidence 0 (a 0 reported by the model or the
    library is replaced by 0.5). *)
Theorem X16_question_confidence_marks_source
    (library : option (string -> option Template.t)) (clock : Clock)
    (remote : Client.RemoteQ) (questionText : string)
    (context : Client.QuestionContext) (s : Client.Store) :
  (exists e,
      JsMap.get (Client.generateQuestionCacheKey questionText context)
        (Client.questionAnalysis s) = Some e
      /\ Client.result (Client.analyzeQuestion library clock remote questionText context s)
         = Client.data e
      /\ Client.requests (Client.analyzeQuestion library clock remote questionText context s)
         = 0%nat)
  \/ (((Client.confidence
          (Client.result (Client.analyzeQuestion library clock remote questionText context s))
        == 0)%Q <->
       Client.source
         (Client.result (Client.analyzeQuestion library clock remote questionText context s))
       = "fallback"
       \/ Client.source
            (Client.result (Client.analyzeQuestion library clock remote questionText context s))
          = "error")
      /\ In (Client.source
               (Client.result
                  (Client.analyzeQuestion library clock remote questionText context s)))
           ["llm"; "error"; "template_fallback"; "fallback"]).
Proof.
  unfold Client.analyzeQuestion.
  destruct (canMakeRequest (atAdmission clock) (RATE_LIMIT (Client.base s))) as [granted rl].
  destruct granted; cbn [negb].
  - destruct (JsMap.get (Client.generateQuestionCacheKey questionText context)
                (Client.questionAnalysis s)) as [e|].
    + destruct (negb (ttl <? atLookup clock - Client.timestamp e)).
      * left. exists e. simpl. auto.
      * right. destruct remote; cbn [Client.result]; apply produced_confidence; eauto.
    + right. destruct remote; cbn [Client.result]; apply produced_confidence; eauto.
  - right. cbn [Client.result]. apply produced_confidence; eauto.
Qed.

(** X17: the key of a question depends on the first 24 characters of the
    question and on the first 12 characters of the text made of position
    and company only. *)
Theorem X17_question_key_prefix (question1 question2 : string)
    (context1 context2 : Client.QuestionContext) :
  substring0 24 question1 = substring0 24 question2 ->
  substring0 12 (Client.contextText context1) = substring0 12 (Client.contextText context2) ->
  Client.generateQuestionCacheKey question1 context1
  = Client.generateQuestionCacheKey question2 context2.
Proof.
  intros Hq Hc. unfold Client.generateQuestionCacheKey.
  fold (Client.contextText context1). fold (Client.contextText context2).
  change 32%nat with (8 * 4)%nat. change 16%nat with (4 * 4)%nat.
  rewrite (btoa_prefix 8 question1), (btoa_prefix 8 question2).
  rewrite (btoa_prefix 4 (Client.contextText context1)).
  rewrite (btoa_prefix 4 (Client.contextText context2)).
  change (8 * 3)%nat with 24%nat. change (4 * 3)%nat with 12%nat.
  now rewrite Hq, Hc.
Qed.

(** An instance: two questions that start alike, for the same position. *)
Lemma X17_witness :
  Client.generateQuestionCacheKey Cases.question1 Cases.questionContext
  = Client.generateQuestionCacheKey Cases.question2 Cases.questionContext.
Proof.
  apply (X17_question_key_prefix Cases.question1 Cases.question2
           Cases.questionContext Cases.questionContext).
  - vm_compute. reflexivity.
  - reflexivity.
Defined.

(** X18: a question whose key equals the key of a question analysed
    before is answered, admission granted and the entry not expired, with
    the analysis of that other question, and without a request. *)
Theorem X18_answer_of_another_question
    (library : option (string -> option Template.t)) (clock1 clock2 : Clock)
    (parsed : option Parsed.t) (remote2 : Client.RemoteQ)
    (question1 question2 : string) (context1 context2 : Client.QuestionContext)
    (s : Client.Store) (e : Client.QuestionEntry) :
  Client.generateQuestionCacheKey question1 context1
  = Client.generateQuestionCacheKey question2 context2 ->
  Client.requests
    (Client.analyzeQuestion library clock1 (Client.QSuccess parsed) question1 context1 s)
  = 1%nat ->
  JsMap.get (Client.generateQuestionCacheKey question1 context1)
    (Client.questionAnalysis
       (Client.store
          (Client.analyzeQuestion library clock1 (Client.QSuccess parsed)
             question1 context1 s)))
  = Some e ->
  atLookup clock2 - Client.timestamp e <= ttl ->
  (canMakeRequest (atAdmission clock2)
     (RATE_LIMIT
        (Client.base
           (Client.store
              (Client.analyzeQuestion library clock1 (Client.QSuccess parsed)
                 question1 context1 s))))).1
  = true ->
  Client.result
    (Client.analyzeQuestion library clock2 remote2 question2 context2
       (Client.store
          (Client.analyzeQuestion library clock1 (Client.QSuccess parsed)
             question1 context1 s)))
  = Client.parseQuestionAnalysisResponse parsed
  /\ Client.result
       (Client.analyzeQuestion library clock1 (Client.QSuccess parsed)
          question1 context1 s)
     = Client.parseQuestionAnalysisResponse parsed
  /\ Client.requests
       (Client.analyzeQuestion library clock2 remote2 question2 context2
          (Client.store
             (Client.analyzeQuestion library clock1 (Client.QSuccess parsed)
                question1 context1 s)))
     = 0%nat.
Proof.
  intros Hkey Hreq Hget Hfresh Hgrant.
  set (o1 := Client.analyzeQuestion library clock1 (Client.QSuccess parsed)
               question1 context1 s) in *.
  assert (H1 : Client.result o1 = Client.parseQuestionAnalysisResponse parsed
               /\ Client.data e = Client.parseQuestionAnalysisResponse parsed).
  { subst o1. unfold Client.analyzeQuestion in *.
    destruct (canMakeRequest (atAdmission clock1) (RATE_LIMIT (Client.base s)))
      as [granted rl].
    destruct granted; cbn [negb] in *; [|discriminate].
    match type of Hreq with context [match ?x with Some _ => _ | None => _ end] =>
      destruct x end; [discriminate|].
    cbn [Client.result Client.store Client.questionAnalysis] in *.
    split; [reflexivity|].
    unfold Client.cleanupBy in Hget.
    destruct (maxSize <? _)%nat.
    - apply get_deletes in Hget. rewrite get_set_eq in Hget. now injection Hget as <-.
    - rewrite get_set_eq in Hget. now injection Hget as <-. }
  destruct H1 as [Hres1 Hdata].
  unfold Client.analyzeQuestion.
  destruct (canMakeRequest (atAdmission clock2) (RATE_LIMIT (Client.base (Client.store o1))))
    as [granted rl].
  simpl in Hgrant. subst granted. cbn [negb].
  rewrite <- Hkey, Hget.
  assert ((ttl <? atLookup clock2 - Client.timestamp e) = false) as ->
    by (apply Z.ltb_ge; exact Hfresh).
  cbn [negb Client.result Client.requests]. rewrite Hdata. auto.
Qed.

(** An instance: the second sample question, asked two seconds after the
    first, receives the analysis of the first. *)
Lemma X18_witness :
  Client.result
    (Client.analyzeQuestion None (Samples.clockAfter 2000) Client.QFailure
       Cases.question2 Cases.questionContext (Client.store Cases.questionCall))
  = Client.result Cases.questionCall
  /\ Client.requests
       (Client.analyzeQuestion None (Samples.clockAfter 2000) Client.QFailure
          Cases.question2 Cases.questionContext (Client.store Cases.questionCall))
     = 0%nat.
Proof.
  destruct (X18_answer_of_another_question None Samples.firstClock (Samples.clockAfter 2000)
              Cases.questionReply Client.QFailure Cases.question1 Cases.question2
              Cases.questionContext Cases.questionContext Client.loaded
              {| Client.data := Client.result Cases.questionCall;
                 Client.timestamp := Samples.t0 + 401 |})
    as (H2 & H1 & H0).
  - vm_compute. reflexivity.
  - vm_compute. reflexivity.
  - vm_compute. reflexivity.
  - vm_compute. discriminate.
  - vm_compute. reflexivity.
  - split; [|exact H0]. unfold Cases.questionCall. now rewrite H1.
Defined.

(* ===================================================================== *)
(** ** One run of [cleanupCache] *)
(* ===================================================================== *)

Lemma unique_key {E} (m : list (string * E)) (a b : string * E) :
  NoDup (List.map fst m) -> In a m -> In b m -> a.1 = b.1 -> a = b.
Proof.
  induction m as [|x m IH]; simpl; intros Hnd Ha Hb Hk; [destruct Ha|].
  apply NoDup_cons in Hnd as [Hx Hnd].
  destruct Ha as [->|Ha], Hb as [->|Hb]; auto.
  - exfalso. apply Hx. rewrite Hk. apply list_elem_of_In. now apply in_map.
  - exfalso. apply Hx. rewrite <- Hk. apply list_elem_of_In. now apply in_map.
Qed.

(** X19: on a map whose keys are unique, [cleanupCache] leaves the smaller
    of the size and [CACHE.maxSize] entries; what it leaves is the map with
    some entries taken out, the others in their order of insertion; and
    no entry it takes out is younger than an entry it leaves. *)
Theorem X19_cleanupCache_step (cache : list (string * CacheEntry)) :
  NoDup (List.map fst cache) ->
  JsMap.size (cleanupCache cache) = Nat.min (JsMap.size cache) maxSize
  /\ (exists keep, cleanupCache cache = List.filter keep cache)
  /\ (forall e r, In e cache -> ~ In e (cleanupCache cache) ->
        In r (cleanupCache cache) -> timestamp e.2 <= timestamp r.2).
Proof.
  intros Hnd. unfold JsMap.size.
  destruct (le_lt_dec (length cache) maxSize) as [Hle|Hgt].
  - rewrite cleanupCache_small by exact Hle. split; [lia|]. split.
    + exists (fun _ => true). clear. induction cache as [|x m IH]; simpl; congruence.
    + intros e r He Hne. contradiction.
  - pose proof (cleanupCache_perm cache Hnd Hgt) as Hperm.
    split; [|split].
    + rewrite (Permutation_length Hperm), length_skipn,
        (Permutation_length (sortByTimestamp_perm cache)). lia.
    + unfold cleanupCache, JsMap.size. apply Nat.ltb_lt in Hgt. rewrite Hgt.
      rewrite deletes_filter. eauto.
    + intros e r He Hne Hr.
      apply (sorted_firstn_skipn (length cache - maxSize) (sortByTimestamp cache));
        [apply sortByTimestamp_sorted | |].
      * assert (Hk : keptAfter (firstn (length cache - maxSize) (sortByTimestamp cache)) e
                     = false).
        { destruct (keptAfter _ e) eqn:Ek; [|reflexivity].
          exfalso. apply Hne. unfold cleanupCache, JsMap.size.
          apply Nat.ltb_lt in Hgt. rewrite Hgt, deletes_filter.
          apply filter_In. auto. }
        apply keptAfter_false in Hk. apply in_map_iff in Hk as (e' & Hkey & He').
        assert (e' = e) as <-; [|exact He'].
        apply (unique_key cache); auto.
        apply (Permutation_in _ (sortByTimestamp_perm cache)).
        rewrite <- (firstn_skipn (length cache - maxSize) (sortByTimestamp cache)).
        apply in_or_app. now left.
      * exact (Permutation_in _ Hperm Hr).
Qed.

(** An instance: a map of 101 entries under 101 keys. *)
Lemma X19_witness :
  JsMap.size (cleanupCache (List.map entryOf Samples.distinctPuts)) = 100%nat
  /\ (exists keep,
         cleanupCache (List.map entryOf Samples.distinctPuts)
         = List.filter keep (List.map entryOf Samples.distinctPuts))
  /\ (forall e r, In e (List.map entryOf Samples.distinctPuts) ->
        ~ In e (cleanupCache (List.map entryOf Samples.distinctPuts)) ->
        In r (cleanupCache (List.map entryOf Samples.distinctPuts)) ->
        timestamp e.2 <= timestamp r.2).
Proof.
  apply (X19_cleanupCache_step (List.map entryOf Samples.distinctPuts)).
  apply nodupb_sound. vm_compute. reflexivity.
Defined.

(* ===================================================================== *)
(** ** Properties of [getSuggestions] *)
(* ===================================================================== *)

Import PrimFloat.

Lemma accumulate_shift (n : nat) (weight start : PrimFloat.float) :
  Suggest.accumulate n weight (PrimFloat.add start weight)
  = PrimFloat.add (Suggest.accumulate n weight start) weight.
Proof.
  unfold Suggest.accumulate. induction n as [|n IH]; simpl; [reflexivity|].
  now rewrite IH.
Qed.

Lemma forEach_spec (fieldText kind : string) (weight : PrimFloat.float)
    (keywords : list string) (acc : PrimFloat.float * list string) :
  (Suggest.forEach fieldText kind weight keywords acc).1
  = Suggest.accumulate (countIncluded fieldText keywords) weight acc.1
  /\ length (Suggest.forEach fieldText kind weight keywords acc).2
     = (length acc.2 + countIncluded fieldText keywords)%nat.
Proof.
  unfold Suggest.forEach, countIncluded.
  revert acc. induction keywords as [|k keywords IH]; intros acc; simpl.
  - split; [reflexivity | lia].
  - destruct (includes fieldText (toLowerCase k)); simpl.
    + destruct (IH (PrimFloat.add acc.1 weight, Suggest.push acc.2 (Suggest.reason kind k)))
        as [H1 H2].
      rewrite H1, H2. cbn [fst snd]. unfold Suggest.push. rewrite length_app. simpl.
      split; [apply accumulate_shift | lia].
    + apply IH.
Qed.

Lemma scoreAndReasons_spec (field : Field.t) (patterns : Patterns) :
  (Suggest.scoreAndReasons field patterns).1
  = Suggest.scoreOf (countIncluded (heuristicText field) (names patterns))
      (countIncluded (heuristicText field) (labels patterns))
      (Suggest.typeMatches field patterns)
  /\ length (Suggest.scoreAndReasons field patterns).2 = Suggest.matches field patterns.
Proof.
  unfold Suggest.scoreAndReasons, Suggest.scoreOf, Suggest.matches.
  destruct (forEach_spec (heuristicText field) "name" 0.3%float (names patterns)
              (0%float, [])) as [N1 N2].
  destruct (forEach_spec (heuristicText field) "label" 0.4%float (labels patterns)
              (Suggest.forEach (heuristicText field) "name" 0.3%float (names patterns)
                 (0%float, []))) as [L1 L2].
  rewrite N1 in L1. rewrite N2 in L2. cbn [fst snd length] in L1, L2.
  destruct (Suggest.typeMatches field patterns); cbn [fst snd].
  - unfold Suggest.push. rewrite L1, length_app, L2. simpl. split; [reflexivity | lia].
  - rewrite L1, L2. split; [reflexivity | lia].
Qed.

Lemma countIncluded_le (fieldText : string) (l : list string) :
  (countIncluded fieldText l <= length l)%nat.
Proof. unfold countIncluded. apply List.filter_length_le. Qed.

(** No purpose of the table has more than 7 names or 4 labels. *)
Lemma table_sizes (p : string) (patterns : Patterns) :
  In (p, patterns) HEURISTIC_PATTERNS ->
  (length (names patterns) <= 7)%nat /\ (length (labels patterns) <= 4)%nat.
Proof.
  intros Hin.
  assert (H : forallb (fun e : string * Patterns =>
                         (length (names e.2) <=? 7)%nat && (length (labels e.2) <=? 4)%nat)
                HEURISTIC_PATTERNS = true) by (vm_compute; reflexivity).
  rewrite forallb_forall in H. apply H in Hin. cbn [snd] in Hin.
  apply andb_true_iff in Hin as [H1 H2].
  split; now apply Nat.leb_le.
Qed.

(** With at most 7 names and 4 labels, the score passes 0.1 exactly when
    something was counted, and the confidence then lies between 0.2 and 1. *)
Lemma threshold (k j : nat) (t : bool) :
  (k <= 7)%nat -> (j <= 4)%nat ->
  PrimFloat.ltb 0.1%float (Suggest.scoreOf k j t)
  = (0 <? k + j + (if t then 1 else 0))%nat
  /\ (PrimFloat.ltb 0.1%float (Suggest.scoreOf k j t) = true ->
      PrimFloat.leb 0.2%float (Float64.Math_min (Suggest.scoreOf k j t) 1%float) = true
      /\ PrimFloat.leb (Float64.Math_min (Suggest.scoreOf k j t) 1%float) 1%float = true).
Proof.
  intros Hk Hj.
  pose (check := fun (k j : nat) (t : bool) =>
          Bool.eqb (PrimFloat.ltb 0.1%float (Suggest.scoreOf k j t))
            (0 <? k + j + (if t then 1 else 0))%nat
          && (negb (PrimFloat.ltb 0.1%float (Suggest.scoreOf k j t))
              || (PrimFloat.leb 0.2%float (Float64.Math_min (Suggest.scoreOf k j t) 1%float)
                  && PrimFloat.leb (Float64.Math_min (Suggest.scoreOf k j t) 1%float)
                       1%float))).
  assert (H : forallb (fun k => forallb (fun j => forallb (check k j) [false; true])
                                  (seq 0 5)) (seq 0 8) = true)
    by (vm_compute; reflexivity).
  rewrite forallb_forall in H.
  assert (H1 := H k ltac:(apply in_seq; lia)).
  rewrite forallb_forall in H1.
  assert (H2 := H1 j ltac:(apply in_seq; lia)).
  rewrite forallb_forall in H2.
  assert (H3 : check k j t = true) by (apply H2; destruct t; simpl; auto).
  unfold check in H3. apply andb_true_iff in H3 as [Ha Hb].
  apply Bool.eqb_prop in Ha. split; [exact Ha|].
  intros Hs. rewrite Hs in Hb. simpl in Hb. now apply andb_true_iff in Hb.
Qed.

(** *** The sort *)

Lemma insert_perm (x : Suggest.Suggestion) (l : list Suggest.Suggestion) :
  Permutation (Suggest.insert x l) (x :: l).
Proof.
  induction l as [|y l IH]; simpl; [reflexivity|].
  destruct (PrimFloat.ltb 0%float (Suggest.comparator x y)); [|reflexivity].
  rewrite IH. apply perm_swap.
Qed.

Lemma sort_perm (l : list Suggest.Suggestion) : Permutation (Suggest.sort l) l.
Proof.
  induction l as [|x l IH]; simpl; [reflexivity|].
  rewrite insert_perm. now apply perm_skip.
Qed.

(** On the confidences that occur, the comparator is positive exactly
    when its first argument has the smaller confidence, and the order of
    doubles is total and transitive. *)
Lemma values_order (a b : PrimFloat.float) :
  In a Suggest.values -> In b Suggest.values ->
  PrimFloat.ltb 0%float (PrimFloat.sub b a) = negb (PrimFloat.leb b a)
  /\ (PrimFloat.leb b a = false -> PrimFloat.leb a b = true).
Proof.
  intros Ha Hb.
  pose (check := fun a b : PrimFloat.float =>
          Bool.eqb (PrimFloat.ltb 0%float (PrimFloat.sub b a)) (negb (PrimFloat.leb b a))
          && (PrimFloat.leb b a || PrimFloat.leb a b)).
  assert (H : forallb (fun a => forallb (check a) Suggest.values) Suggest.values = true)
    by (vm_compute; reflexivity).
  rewrite forallb_forall in H. apply H in Ha. rewrite forallb_forall in Ha.
  apply Ha in Hb. unfold check in Hb. apply andb_true_iff in Hb as [H1 H2].
  apply Bool.eqb_prop in H1. split; [exact H1|].
  intros Hf. now rewrite Hf in H2.
Qed.

Lemma values_transitive (a b c : PrimFloat.float) :
  In a Suggest.values -> In b Suggest.values -> In c Suggest.values ->
  PrimFloat.leb c b = true -> PrimFloat.leb b a = true -> PrimFloat.leb c a = true.
Proof.
  intros Ha Hb Hc.
  pose (check := fun a b c : PrimFloat.float =>
          negb (PrimFloat.leb c b && PrimFloat.leb b a) || PrimFloat.leb c a).
  assert (H : forallb (fun a => forallb (fun b => forallb (check a b) Suggest.values)
                                  Suggest.values) Suggest.values = true)
    by (vm_compute; reflexivity).
  rewrite forallb_forall in H. apply H in Ha. rewrite forallb_forall in Ha.
  apply Ha in Hb. rewrite forallb_forall in Hb. apply Hb in Hc.
  unfold check in Hc. intros H1 H2. now rewrite H1, H2 in Hc.
Qed.

Lemma insert_Forall (P : Suggest.Suggestion -> Prop) (x : Suggest.Suggestion)
    (l : list Suggest.Suggestion) :
  P x -> Forall P l -> Forall P (Suggest.insert x l).
Proof.
  intros Hx Hl. induction Hl as [|y l Hy Hl IH]; simpl; [now repeat constructor|].
  destruct (PrimFloat.ltb 0%float (Suggest.comparator x y)); repeat constructor; auto.
Qed.

Lemma insert_sorted (x : Suggest.Suggestion) (l : list Suggest.Suggestion) :
  Forall (fun s => In (Suggest.confidence s) Suggest.values) (x :: l) ->
  StronglySorted Suggest.descending l ->
  StronglySorted Suggest.descending (Suggest.insert x l).
Proof.
  intros Hv Hs. apply Forall_cons in Hv as [Hx Hl].
  induction Hs as [|y l Hs IH Hy]; simpl.
  - repeat constructor.
  - apply Forall_cons in Hl as [Hyv Hl].
    destruct (values_order (Suggest.confidence x) (Suggest.confidence y) Hx Hyv)
      as [Hcmp Htotal].
    unfold Suggest.comparator. rewrite Hcmp.
    destruct (PrimFloat.leb (Suggest.confidence y) (Suggest.confidence x)) eqn:E; simpl.
    + constructor; [now constructor|].
      constructor; [exact E|].
      rewrite Forall_forall in Hy, Hl. apply Forall_forall. intros z Hz.
      unfold Suggest.descending in *.
      apply (values_transitive _ (Suggest.confidence y)); auto.
    + constructor; [now apply IH|].
      apply insert_Forall; [|exact Hy].
      unfold Suggest.descending. now apply Htotal.
Qed.

Lemma sort_sorted (l : list Suggest.Suggestion) :
  Forall (fun s => In (Suggest.confidence s) Suggest.values) l ->
  StronglySorted Suggest.descending (Suggest.sort l).
Proof.
  induction l as [|x l IH]; intros Hv; simpl; [constructor|].
  pose proof Hv as Hv'. apply Forall_cons in Hv' as [Hx Hl].
  apply insert_sorted; [|now apply IH].
  constructor; [exact Hx|].
  rewrite (sort_perm l). exact Hl.
Qed.

(** *** The suggestions before the sort *)

Lemma suggest_inv (field : Field.t) (table : list (string * Patterns))
    (s : Suggest.Suggestion) :
  In s (flat_map (Suggest.suggest field) table) <->
  exists p patterns,
    In (p, patterns) table
    /\ PrimFloat.ltb 0.1%float (Suggest.scoreAndReasons field patterns).1 = true
    /\ s = {| Suggest.purpose := p;
              Suggest.confidence :=
                Float64.Math_min (Suggest.scoreAndReasons field patterns).1 1%float;
              Suggest.reasons := (Suggest.scoreAndReasons field patterns).2 |}.
Proof.
  rewrite in_flat_map. split.
  - intros ([p patterns] & Hin & Hs). unfold Suggest.suggest in Hs. cbn [fst snd] in Hs.
    destruct (PrimFloat.ltb 0.1%float (Suggest.scoreAndReasons field patterns).1) eqn:E;
      [|destruct Hs].
    destruct Hs as [<-|[]]. exists p, patterns. auto.
  - intros (p & patterns & Hin & Hs & ->). exists (p, patterns). split; [exact Hin|].
    unfold Suggest.suggest. cbn [fst snd]. rewrite Hs. now left.
Qed.

Lemma table_counts (field : Field.t) (p : string) (patterns : Patterns) :
  In (p, patterns) HEURISTIC_PATTERNS ->
  (countIncluded (heuristicText field) (names patterns) <= 7)%nat
  /\ (countIncluded (heuristicText field) (labels patterns) <= 4)%nat.
Proof.
  intros Hin. apply table_sizes in Hin as [H1 H2].
  pose proof (countIncluded_le (heuristicText field) (names patterns)).
  pose proof (countIncluded_le (heuristicText field) (labels patterns)).
  lia.
Qed.

Lemma suggest_threshold (field : Field.t) (p : string) (patterns : Patterns) :
  In (p, patterns) HEURISTIC_PATTERNS ->
  PrimFloat.ltb 0.1%float (Suggest.scoreAndReasons field patterns).1 = true
  <-> (0 < Suggest.matches field patterns)%nat.
Proof.
  intros Hin. destruct (table_counts field p patterns Hin) as [Hk Hj].
  destruct (scoreAndReasons_spec field patterns) as [-> _].
  destruct (threshold _ _ (Suggest.typeMatches field patterns) Hk Hj) as [-> _].
  unfold Suggest.matches. apply Nat.ltb_lt.
Qed.

Lemma suggest_values (field : Field.t) (s : Suggest.Suggestion) :
  In s (flat_map (Suggest.suggest field) HEURISTIC_PATTERNS) ->
  In (Suggest.confidence s) Suggest.values.
Proof.
  intros Hs. apply suggest_inv in Hs as (p & patterns & Hin & _ & ->).
  destruct (table_counts field p patterns Hin) as [Hk Hj].
  destruct (scoreAndReasons_spec field patterns) as [-> _].
  cbn [Suggest.confidence]. unfold Suggest.values.
  apply in_flat_map. eexists. split; [apply in_seq; split; [lia | simpl; apply Nat.lt_succ_r, Hk]|].
  apply in_flat_map. eexists. split; [apply in_seq; split; [lia | simpl; apply Nat.lt_succ_r, Hj]|].
  destruct (Suggest.typeMatches field patterns); simpl; auto.
Qed.

Lemma suggest_purposes (field : Field.t) (table : list (string * Patterns)) :
  NoDup (List.map fst table) ->
  NoDup (List.map Suggest.purpose (flat_map (Suggest.suggest field) table)).
Proof.
  induction table as [|[p patterns] table IH]; simpl; intros Hnd; [constructor|].
  apply NoDup_cons in Hnd as [Hp Hnd].
  rewrite List.map_app. apply NoDup_app. split; [|split].
  - unfold Suggest.suggest. destruct (PrimFloat.ltb _ _); simpl.
    + apply NoDup_singleton.
    + constructor.
  - intros q Hq Hq'. apply Hp.
    assert (q = p) as ->.
    { unfold Suggest.suggest in Hq. cbn [fst snd] in Hq.
      destruct (PrimFloat.ltb _ _); simpl in Hq.
      - now apply list_elem_of_singleton in Hq.
      - now apply elem_of_nil in Hq. }
    apply list_elem_of_In in Hq'. apply in_map_iff in Hq' as (s & <- & Hs).
    apply suggest_inv in Hs as (p' & patterns' & Hin & _ & ->). cbn [Suggest.purpose].
    apply list_elem_of_In, in_map_iff. now exists (p', patterns').
  - now apply IH.
Qed.

Lemma table_keys : NoDup (List.map fst HEURISTIC_PATTERNS).
Proof. apply nodupb_sound. vm_compute. reflexivity. Qed.

Lemma getSuggestions_In (field : Field.t) (s : Suggest.Suggestion) :
  In s (Suggest.getSuggestions field)
  <-> In s (flat_map (Suggest.suggest field) HEURISTIC_PATTERNS).
Proof.
  unfold Suggest.getSuggestions. split; apply Permutation_in;
    [apply sort_perm | symmetry; apply sort_perm].
Qed.

(** X20: [getSuggestions] suggests a purpose of [HEURISTIC_PATTERNS]
    exactly when one of its names or labels occurs in the text of the
    field or its types include the type of the field; the suggestion then
    gives one reason for each of these.  Keywords of [ids] and
    [placeholders] play no part. *)
Theorem X20_suggested_iff_matched (field : Field.t) (p : string) (patterns : Patterns) :
  In (p, patterns) HEURISTIC_PATTERNS ->
  ((exists s, In s (Suggest.getSuggestions field) /\ Suggest.purpose s = p)
   <-> (0 < Suggest.matches field patterns)%nat)
  /\ (forall s, In s (Suggest.getSuggestions field) -> Suggest.purpose s = p ->
        length (Suggest.reasons s) = Suggest.matches field patterns).
Proof.
  intros Hin.
  assert (Hown : forall s, In s (Suggest.getSuggestions field) -> Suggest.purpose s = p ->
                   PrimFloat.ltb 0.1%float (Suggest.scoreAndReasons field patterns).1 = true
                   /\ Suggest.reasons s = (Suggest.scoreAndReasons field patterns).2).
  { intros s Hs Hp. apply getSuggestions_In in Hs.
    apply suggest_inv in Hs as (p' & patterns' & Hin' & Hscore & ->).
    cbn [Suggest.purpose] in Hp. subst p'.
    assert (Heq : (p, patterns') = (p, patterns))
      by (apply (unique_key HEURISTIC_PATTERNS); auto using table_keys).
    injection Heq as ->. auto. }
  split; [split|].
  - intros (s & Hs & Hp). apply (suggest_threshold field p patterns Hin).
    now apply (Hown s).
  - intros Hm. apply (suggest_threshold field p patterns Hin) in Hm.
    eexists. split; [apply getSuggestions_In; apply suggest_inv; eauto | reflexivity].
  - intros s Hs Hp. destruct (Hown s Hs Hp) as [_ ->].
    apply scoreAndReasons_spec.
Qed.

(** An instance: the e-mail input and the purpose email. *)
Lemma X20_witness :
  exists s, In s (Suggest.getSuggestions Samples.emailField) /\ Suggest.purpose s = "email".
Proof.
  apply (X20_suggested_iff_matched Samples.emailField "email" Cases.emailPatterns).
  - do 3 right. left. reflexivity.
  - vm_compute. lia.
Defined.

(** X21: the suggestions come in descending order of confidence, every
    confidence lies between 0.2 and 1, and no purpose is suggested twice. *)
Theorem X21_suggestions_sorted (field : Field.t) :
  StronglySorted Suggest.descending (Suggest.getSuggestions field)
  /\ Forall (fun s => PrimFloat.leb 0.2%float (Suggest.confidence s) = true
                      /\ PrimFloat.leb (Suggest.confidence s) 1%float = true
                      /\ In (Suggest.purpose s) (List.map fst HEURISTIC_PATTERNS))
       (Suggest.getSuggestions field)
  /\ NoDup (List.map Suggest.purpose (Suggest.getSuggestions field)).
Proof.
  split; [|split].
  - apply sort_sorted. apply Forall_forall. intros s Hs.
    apply (suggest_values field). now apply list_elem_of_In.
  - apply Forall_forall. intros s Hs. apply list_elem_of_In in Hs.
    apply getSuggestions_In in Hs.
    apply suggest_inv in Hs as (p & patterns & Hin & Hscore & ->).
    cbn [Suggest.confidence Suggest.purpose].
    destruct (table_counts field p patterns Hin) as [Hk Hj].
    destruct (scoreAndReasons_spec field patterns) as [Hs _]. rewrite Hs in *.
    destruct (threshold _ _ (Suggest.typeMatches field patterns) Hk Hj) as [_ Hb].
    destruct (Hb Hscore) as [H1 H2].
    split; [exact H1|]. split; [exact H2|].
    apply in_map_iff. now exists (p, patterns).
  - unfold Suggest.getSuggestions. rewrite (sort_perm _).
    apply suggest_purposes, table_keys.
Qed.

(* ===================================================================== *)
(** ** Platforms without rules *)
(* ===================================================================== *)

Lemma mapField_without_rules (dom dom' : Dom.t) (atsType atsType' : string)
    (field : Field.t) :
  rulesOf ATS_FIELD_RULES atsType = None ->
  rulesOf ATS_FIELD_RULES atsType' = None ->
  mapField dom atsType field = mapField dom' atsType' field.
Proof.
  intros H H'. unfold mapField, mapFieldByATS. now rewrite H, H'.
Qed.

Lemma fold_visit_without_rules (dom dom' : Dom.t) (atsType atsType' : string)
    (fields : list loc) (acc : gmap loc Field.t * list (loc * Stage)) :
  rulesOf ATS_FIELD_RULES atsType = None ->
  rulesOf ATS_FIELD_RULES atsType' = None ->
  fold_left (visit dom atsType) fields acc = fold_left (visit dom' atsType') fields acc.
Proof.
  intros H H'. revert acc. induction fields as [|l fields IH]; intros acc; simpl;
    [reflexivity|].
  rewrite IH. f_equal. unfold visit.
  destruct (acc.1 !! l) as [field|]; [|reflexivity].
  now rewrite (mapField_without_rules dom dom' atsType atsType' field H H').
Qed.

(** X22: for a platform that has no entry in [ATS_FIELD_RULES] the page is
    not consulted and the name of the platform plays no part: [mapFields]
    does what it does without a platform on any page, and every object of
    the batch gets the purpose and confidence of the heuristic scorer with
    the method "heuristic". *)
Theorem X22_platform_without_rules (dom dom' : Dom.t) (fields : list loc)
    (atsType : option string) (heap : gmap loc Field.t) :
  rulesOf ATS_FIELD_RULES (default "unknown" atsType) = None ->
  mapFields dom fields atsType heap = mapFields dom' fields None heap
  /\ (forall l f0, l ∈ fields -> heap !! l = Some f0 ->
        exists f,
          ((mapFields dom fields atsType heap).1.2) !! l = Some f
          /\ Field.purpose f = Some (FieldMapper.purpose (mapFieldByHeuristics f0))
          /\ Field.confidence f = Some (FieldMapper.confidence (mapFieldByHeuristics f0))
          /\ Field.mappingMethod f = Some "heuristic").
Proof.
  intros Hnone. split.
  - unfold mapFields. cbn [default].
    now rewrite (fold_visit_without_rules dom dom' (default "unknown" atsType) "unknown"
                   fields (heap, []) Hnone eq_refl).
  - intros l f0 Hin Hl.
    rewrite mapFields_lookup, (decide_True (P := l ∈ fields)), Hl by exact Hin.
    simpl. eexists. split; [reflexivity|].
    unfold Mapped.mappedField, mapFieldByATS. rewrite Hnone. simpl.
    unfold Mapped.reviewed.
    destruct (Field.needsLLMAnalysis _); simpl; auto.
Qed.

(** An instance: the e-mail input on a platform that is detected but has
    no rules. *)
Lemma X22_witness :
  mapFields Dom.absent [0%nat] (Some "bamboohr") Samples.emailHeap
  = mapFields Dom.absent [0%nat] None Samples.emailHeap
  /\ (forall l f0, l ∈ [0%nat] -> Samples.emailHeap !! l = Some f0 ->
        exists f,
          ((mapFields Dom.absent [0%nat] (Some "bamboohr") Samples.emailHeap).1.2) !! l
          = Some f
          /\ Field.purpose f = Some (FieldMapper.purpose (mapFieldByHeuristics f0))
          /\ Field.confidence f = Some (FieldMapper.confidence (mapFieldByHeuristics f0))
          /\ Field.mappingMethod f = Some "heuristic").
Proof.
  apply (X22_platform_without_rules Dom.absent Dom.absent [0%nat] (Some "bamboohr")
           Samples.emailHeap).
  reflexivity.
Defined.

(* ===================================================================== *)
(** ** The purposes of the content script *)
(* ===================================================================== *)

Ltac next_test :=
  match goal with
  | |- (if ?c then _ else _) <> _ => destruct c eqn:?
  | |- In (if ?c then _ else _) _ -> _ => destruct c eqn:?
  end.

(** Every branch of a cascade of tests, closed by [tac] at its end. *)
Ltac cascade tac := cbv iota; first [ tac | next_test; cascade tac ].

(** X23: [determineFieldPurpose] never answers "coverLetterUpload": the
    test for a cover letter question comes first and answers
    "coverLetter", also for a file input.  It answers "resumeUpload" or
    "fileUpload" for file inputs only, and never "unknown" for a file
    input. *)
Theorem X23_determineFieldPurpose_files (fieldInfo : Field.t) :
  ContentScript.determineFieldPurpose fieldInfo <> "coverLetterUpload"
  /\ (In (ContentScript.determineFieldPurpose fieldInfo) ["resumeUpload"; "fileUpload"] ->
      Field.type fieldInfo = "file")
  /\ (Field.type fieldInfo = "file" ->
      ContentScript.determineFieldPurpose fieldInfo <> "unknown").
Proof.
  unfold ContentScript.determineFieldPurpose. cbv zeta.
  set (text := toLowerCase _).
  split; [|split].
  - cascade discriminate.
  - cascade ltac:(first [ intros _; now apply String.eqb_eq
                        | intros [H|[H|[]]]; discriminate H ]).
  - intros Hfile. rewrite Hfile. change (String.eqb "file" "file") with true.
    cascade discriminate.
Qed.

Lemma taxonomy_not_own (p : string) :
  In p Mapped.taxonomy -> ~ In p ContentScript.ownPurposes.
Proof.
  intros Hp Hown.
  assert (Hall : forallb (fun p => negb (existsb (String.eqb p) ContentScript.ownPurposes))
                   Mapped.taxonomy = true) by reflexivity.
  rewrite forallb_forall in Hall. specialize (Hall _ Hp).
  apply negb_true_iff in Hall.
  assert (existsb (String.eqb p) ContentScript.ownPurposes = true); [|congruence].
  apply existsb_exists. exists p. split; [exact Hown | apply String.eqb_refl].
Qed.

(** X24: the content script hands its fields to [mapFields], so the five
    purposes only [determineFieldPurpose] knows (the question purposes
    whyInterested, whyQualified, coverLetter and additionalInfo, and
    fileUpload) never reach the caller of [analyzeFormFields]: a field that
    [determineFieldPurpose] gives one of them leaves [mapFields] with
    another purpose, "unknown" or one of the heuristic table. *)
Theorem X24_own_purposes_are_lost (dom : Dom.t) (fields : list loc)
    (atsType : option string) (heap : gmap loc Field.t) (l : loc) (f0 : Field.t) :
  l ∈ fields ->
  heap !! l = Some f0 ->
  In (ContentScript.determineFieldPurpose f0) ContentScript.ownPurposes ->
  exists f p,
    ((mapFields dom fields atsType heap).1.2) !! l = Some f
    /\ Field.purpose f = Some p
    /\ In p Mapped.taxonomy
    /\ p <> ContentScript.determineFieldPurpose f0.
Proof.
  intros Hin Hl Hown.
  assert (Hne : forall p, In p Mapped.taxonomy -> p <> ContentScript.determineFieldPurpose f0).
  { intros p Hp Heq. apply (taxonomy_not_own p Hp). now rewrite Heq. }
  rewrite mapFields_lookup, (decide_True (P := l ∈ fields)), Hl by exact Hin. simpl.
  unfold Mapped.reviewed, Mapped.mappedField.
  destruct (strictNotEqual _ _); simpl; destruct (Field.needsLLMAnalysis f0); simpl.
  all: eexists; eexists; split; [reflexivity|]; split; [reflexivity|].
  all: first [ split; [apply mapFieldByATS_range | apply Hne, mapFieldByATS_range]
             | split; [apply mapFieldByHeuristics_range
                      | apply Hne, mapFieldByHeuristics_range] ].
Qed.

(** An instance: the labelled question, which [determineFieldPurpose]
    takes for whyInterested. *)
Lemma X24_witness :
  exists f p,
    ((mapFields Dom.absent [0%nat] None Cases.questionHeap).1.2) !! 0%nat = Some f
    /\ Field.purpose f = Some p
    /\ In p Mapped.taxonomy
    /\ p <> "whyInterested".
Proof.
  apply (X24_own_purposes_are_lost Dom.absent [0%nat] None Cases.questionHeap 0%nat
           (Field.spread (Some "whyInterested") None None None Samples.labelledQuestion)).
  - apply list_elem_of_here.
  - reflexivity.
  - vm_compute. auto.
Defined.
